(** * Cross-chain LSD arbitrage bot: profitability, execution engine, ledger

    A shallow embedding of the opportunity finder, the profitability
    calculator, the staged execution engine (standard and flash-loan paths),
    the PnL ledger and the bot's single-flight guard, with the properties
    the specification states about them.

    Conventions
    - [ethers.BigNumber] is an arbitrary-precision signed integer: [Z], with
      [div] truncating toward zero and throwing on a zero divisor.
    - a JavaScript number is an IEEE-754 binary64 value: [spec_float] with
      [prec = 53] and [emax = 1024], rounded to nearest-even.
    - a thrown exception is the [Throw msg] case of [result], [msg] being
      [error.message].
    - log statements have no effect on any modelled value and are left out. *)

From Stdlib Require Import ZArith List String Ascii Bool Lia SpecFloat.
From Stdlib Require Import DecimalString.
From Stdlib Require DecimalFacts DecimalPos DecimalN.
From stdpp Require Import gmap strings.

Local Open Scope string_scope.
Local Open Scope Z_scope.

(** ** Exceptions *)

Inductive result (A : Type) : Type :=
| Ok (a : A)
| Throw (msg : string).
Arguments Ok {A} a.
Arguments Throw {A} msg.

Global Instance result_ret : MRet result := fun A a => Ok a.

Global Instance result_bind : MBind result := fun A B k r =>
  match r with
  | Ok a => k a
  | Throw m => Throw m
  end.

(** ** JavaScript numbers and the built-ins the program calls *)

Module JS.

Definition number := spec_float.
Definition prec : Z := 53.
Definition emax : Z := 1024.

Definition NaN : number := S754_nan.
Definition add : number -> number -> number := SFadd prec emax.
Definition sub : number -> number -> number := SFsub prec emax.
Definition mul : number -> number -> number := SFmul prec emax.
Definition div : number -> number -> number := SFdiv prec emax.

(** [x < y], [x <= y], [x > y], [x >= y]; each is false when an operand is NaN. *)
Definition lt (x y : number) : bool := SFltb x y.
Definition le (x y : number) : bool := SFleb x y.
Definition gt (x y : number) : bool := SFltb y x.
Definition ge (x y : number) : bool := SFleb y x.

Definition Math_abs : number -> number := SFabs.

(** [Math.min(x, y)]: NaN if either is NaN, and -0 is below +0. *)
Definition Math_min (x y : number) : number :=
  match x, y with
  | S754_nan, _ | _, S754_nan => S754_nan
  | S754_zero sx, S754_zero sy => S754_zero (sx || sy)
  | _, _ => if SFltb y x then y else x
  end.

(** The binary64 value nearest to the rational [n / d]. *)
Definition ofRatio (n : Z) (d : positive) : number :=
  match n with
  | Z0 => S754_zero false
  | Zpos p => div (S754_finite false p 0) (S754_finite false d 0)
  | Zneg p => div (S754_finite true p 0) (S754_finite false d 0)
  end.

(** An integer as a number (exact below 2^53). *)
Definition ofZ (z : Z) : number := binary_normalize prec emax z 0 false.

(** *** Decimal digit strings *)

Definition string_of_N (n : N) : string := NilZero.string_of_uint (N.to_uint n).

Definition is_digit (c : ascii) : bool :=
  let n := N_of_ascii c in (48 <=? n)%N && (n <=? 57)%N.

Definition digit_val (c : ascii) : Z := Z.of_N (N_of_ascii c) - 48.

Fixpoint digits_value_from (acc : Z) (s : string) : Z :=
  match s with
  | EmptyString => acc
  | String c s' => digits_value_from (acc * 10 + digit_val c) s'
  end.

Definition digits_value (s : string) : Z := digits_value_from 0 s.

Fixpoint all_digits (s : string) : bool :=
  match s with
  | EmptyString => true
  | String c s' => is_digit c && all_digits s'
  end.

Fixpoint span_digits (s : string) : string * string :=
  match s with
  | String c s' =>
      if is_digit c then let '(d, r) := span_digits s' in (String c d, r)
      else (EmptyString, s)
  | EmptyString => (EmptyString, EmptyString)
  end.

Fixpoint repeat_char (c : ascii) (n : nat) : string :=
  match n with
  | O => EmptyString
  | S n' => String c (repeat_char c n')
  end.

Definition zeros (n : Z) : string := repeat_char "0"%char (Z.to_nat n).

Definition slen (s : string) : Z := Z.of_nat (String.length s).

Definition pad_left_zeros (width : Z) (s : string) : string :=
  zeros (width - slen s) +:+ s.

Fixpoint rev_string_onto (s acc : string) : string :=
  match s with
  | EmptyString => acc
  | String c s' => rev_string_onto s' (String c acc)
  end.

Definition rev_string (s : string) : string := rev_string_onto s EmptyString.

Fixpoint drop_leading (c0 : ascii) (s : string) : string :=
  match s with
  | String c s' => if Ascii.eqb c c0 then drop_leading c0 s' else s
  | EmptyString => EmptyString
  end.

Definition strip_trailing_zeros (s : string) : string :=
  rev_string (drop_leading "0"%char (rev_string s)).

Definition take (n : Z) (s : string) : string := String.substring 0 (Z.to_nat n) s.
Definition drop (n : Z) (s : string) : string :=
  String.substring (Z.to_nat n) (String.length s - Z.to_nat n) s.


(** *** [ethers.utils.formatEther] and [ethers.utils.parseEther] (ethers v5,
    [formatFixed] and [parseFixed] with 18 decimals) *)

Definition ether : Z := 1000000000000000000.

Definition formatEther (value : Z) : string :=
  let negative := value <? 0 in
  let v := Z.abs value in
  let fraction := pad_left_zeros 18 (string_of_N (Z.to_N (v mod ether))) in
  let fraction := match strip_trailing_zeros fraction with
                  | EmptyString => "0"
                  | f => f
                  end in
  let whole := string_of_N (Z.to_N (v / ether)) in
  (if negative then "-" else "") +:+ whole +:+ "." +:+ fraction.

Fixpoint all_digits_or_dots (s : string) : bool :=
  match s with
  | EmptyString => true
  | String c s' => (is_digit c || Ascii.eqb c "."%char) && all_digits_or_dots s'
  end.

(** [s.split(".")]: the components between the dots. *)
Fixpoint split_dots (s : string) (cur : string) : list string :=
  match s with
  | EmptyString => [rev_string cur]
  | String c s' =>
      if Ascii.eqb c "."%char then rev_string cur :: split_dots s' EmptyString
      else split_dots s' (String c cur)
  end.

Definition parseEther (value : string) : result Z :=
  let negative := match value with String "-" _ => true | _ => false end in
  let body := match value with String "-" r => r | _ => value end in
  if negb (all_digits_or_dots body) || (slen body =? 0) then
    Throw "invalid decimal value"
  else if String.eqb body "." then Throw "missing value"
  else
    match split_dots body EmptyString with
    | [] => Throw "invalid decimal value"
    | whole :: rest =>
        match rest with
        | _ :: _ :: _ => Throw "too many decimal points"
        | _ =>
            let whole := if slen whole =? 0 then "0" else whole in
            let fraction := match rest with
                            | f :: _ => if slen f =? 0 then "0" else f
                            | [] => "0"
                            end in
            let fraction := strip_trailing_zeros fraction in
            if 18 <? slen fraction then Throw "fractional component exceeds decimals"
            else
              let fraction := fraction +:+ zeros (18 - slen fraction) in
              let wei := digits_value whole * ether + digits_value fraction in
              Ok (if negative then - wei else wei)
        end
    end.

(** *** [Number.prototype.toString] (radix 10)

    The shortest decimal digit string [s] (of length [k]) and exponent [n]
    with [s * 10^(n-k)] reading back as the number, the nearest such [s]
    when several exist. *)

(** [s * 10^p], correctly rounded. *)
Definition scaled (s : Z) (p : Z) : number :=
  if 0 <=? p then ofRatio (s * 10 ^ p) 1 else ofRatio s (Z.to_pos (10 ^ (- p))).

(** The exact value of the positive finite number [m * 2^e] as a fraction. *)
Definition exact (m : positive) (e : Z) : Z * Z :=
  if 0 <=? e then (Zpos m * 2 ^ e, 1) else (Zpos m, 2 ^ (- e)).

Definition same_finite (m : positive) (e : Z) (x : number) : bool :=
  match x with
  | S754_finite false m' e' => Pos.eqb m m' && (e =? e')
  | _ => false
  end.

Definition digits10 (z : Z) : Z := slen (string_of_N (Z.to_N z)).

(** [n] with [10^(n-1) <= num/den < 10^n]. *)
Definition decimal_exponent (num den : Z) : Z :=
  let g := digits10 num - digits10 den in
  let above := if 0 <=? g then den * 10 ^ g <=? num else den <=? num * 10 ^ (- g) in
  if above then g + 1 else g.

Fixpoint shortest_digits (fuel : nat) (k : Z) (m : positive) (e : Z)
    (num den n : Z) : Z * Z :=
  let p := k - n in
  let P := if 0 <=? p then num * 10 ^ p else num in
  let Q := if 0 <=? p then den else den * 10 ^ (- p) in
  let lo := P / Q in
  let hi := lo + 1 in
  match fuel with
  | O => (if 2 * P <? (2 * lo + 1) * Q then lo else hi, k)
  | S fuel' =>
      match same_finite m e (scaled lo (n - k)), same_finite m e (scaled hi (n - k)) with
      | true, true =>
          match 2 * P ?= (2 * lo + 1) * Q with
          | Lt => (lo, k)
          | Gt => (hi, k)
          | Eq => (if Z.even lo then lo else hi, k)
          end
      | true, false => (lo, k)
      | false, true => (hi, k)
      | false, false => shortest_digits fuel' (k + 1) m e num den n
      end
  end.

Definition render_digits (ds : string) (n : Z) : string :=
  let k := slen ds in
  if (k <=? n) && (n <=? 21) then ds +:+ zeros (n - k)
  else if (0 <? n) && (n <=? 21) then take n ds +:+ "." +:+ drop n ds
  else if (-6 <? n) && (n <=? 0) then "0." +:+ zeros (- n) +:+ ds
  else
    let e := n - 1 in
    let es := (if e <? 0 then "-" else "+") +:+ string_of_N (Z.to_N (Z.abs e)) in
    if k =? 1 then ds +:+ "e" +:+ es
    else take 1 ds +:+ "." +:+ drop 1 ds +:+ "e" +:+ es.

Definition Number_toString (x : number) : string :=
  match x with
  | S754_nan => "NaN"
  | S754_zero _ => "0"
  | S754_infinity s => if s then "-Infinity" else "Infinity"
  | S754_finite s m e =>
      let '(num, den) := exact m e in
      let n := decimal_exponent num den in
      let '(sd, k) := shortest_digits 16 1 m e num den n in
      let raw := string_of_N (Z.to_N sd) in
      (if s then "-" else "")
        +:+ render_digits (strip_trailing_zeros raw) (n + (slen raw - k))
  end.

(** *** [parseFloat] and the string-to-number conversion ([ToNumber]) *)

Definition is_ws (c : ascii) : bool :=
  let n := N_of_ascii c in (n =? 32)%N || ((9 <=? n)%N && (n <=? 13)%N).

Definition trim_left (s : string) : string :=
  (fix go (s : string) : string :=
     match s with
     | String c s' => if is_ws c then go s' else s
     | EmptyString => EmptyString
     end) s.

Definition trim (s : string) : string :=
  rev_string (trim_left (rev_string (trim_left s))).

Definition split_sign (s : string) : bool * string :=
  match s with
  | String "-" r => (true, r)
  | String "+" r => (false, r)
  | _ => (false, s)
  end.

(** The longest prefix that is a [StrDecimalLiteral], with what follows it. *)
Definition scan_decimal (s : string) : option (number * string) :=
  let '(neg, s1) := split_sign s in
  if String.prefix "Infinity" s1 then Some (S754_infinity neg, drop 8 s1)
  else
    let '(ip, s2) := span_digits s1 in
    let '(fp, s3) := match s2 with
                     | String "." r => span_digits r
                     | _ => (EmptyString, s2)
                     end in
    if (slen ip =? 0) && (slen fp =? 0) then None
    else
      let '(ex, s4) :=
        match s3 with
        | String c r =>
            if Ascii.eqb c "e"%char || Ascii.eqb c "E"%char then
              let '(eneg, r1) := split_sign r in
              let '(ed, r2) := span_digits r1 in
              if slen ed =? 0 then (0, s3)
              else (if eneg then - digits_value ed else digits_value ed, r2)
            else (0, s3)
        | EmptyString => (0, s3)
        end in
      let mant := digits_value (ip +:+ fp) in
      let v := if mant =? 0 then S754_zero neg
               else scaled (if neg then - mant else mant) (ex - slen fp) in
      Some (v, s4).

Definition parseFloat (s : string) : number :=
  match scan_decimal (trim_left s) with
  | Some (v, _) => v
  | None => NaN
  end.

Definition radix_digit (base : Z) (c : ascii) : option Z :=
  let n := Z.of_N (N_of_ascii c) in
  let v := if (48 <=? n) && (n <=? 57) then n - 48
           else if (97 <=? n) && (n <=? 102) then n - 87
           else if (65 <=? n) && (n <=? 70) then n - 55
           else 99 in
  if v <? base then Some v else None.

Fixpoint radix_value (base : Z) (acc : Z) (s : string) : option Z :=
  match s with
  | EmptyString => Some acc
  | String c s' =>
      match radix_digit base c with
      | Some d => radix_value base (acc * base + d) s'
      | None => None
      end
  end.

Definition radix_literal (base : Z) (digits : string) : number :=
  if slen digits =? 0 then NaN
  else match radix_value base 0 digits with
       | Some v => ofRatio v 1
       | None => NaN
       end.

(** [Number(s)] for a string, as the arguments of [Math.min] are converted. *)
Definition StringToNumber (s : string) : number :=
  let t := trim s in
  match t with
  | EmptyString => S754_zero false
  | String "0" (String c r) =>
      if Ascii.eqb c "x"%char || Ascii.eqb c "X"%char then radix_literal 16 r
      else if Ascii.eqb c "o"%char || Ascii.eqb c "O"%char then radix_literal 8 r
      else if Ascii.eqb c "b"%char || Ascii.eqb c "B"%char then radix_literal 2 r
      else match scan_decimal t with
           | Some (v, EmptyString) => v
           | _ => NaN
           end
  | _ => match scan_decimal t with
         | Some (v, EmptyString) => v
         | _ => NaN
         end
  end.

(** *** [Number.prototype.toFixed] *)

Definition Number_toFixed (x : number) (fd : Z) : string :=
  match x with
  | S754_finite s m e =>
      if ge (Math_abs x) (ofRatio (10 ^ 21) 1) then Number_toString x
      else
        let '(num, den) := exact m e in
        let n := (2 * num * 10 ^ fd + den) / (2 * den) in
        let digits := string_of_N (Z.to_N n) in
        let digits := if fd =? 0 then digits
                      else let d := pad_left_zeros (fd + 1) digits in
                           take (slen d - fd) d +:+ "." +:+ drop (slen d - fd) d in
        (if s then "-" else "") +:+ digits
  | S754_zero _ => if fd =? 0 then "0" else "0." +:+ zeros fd
  | _ => Number_toString x
  end.

End JS.

(** ** [ethers.BigNumber] *)

Module BN.

Definition toString (z : Z) : string :=
  (if z <? 0 then "-" else "") +:+ JS.string_of_N (Z.to_N (Z.abs z)).

(** [a.div(b)]: truncated division, a zero divisor throws. *)
Definition div (a b : Z) : result Z :=
  if b =? 0 then Throw "division by zero" else Ok (Z.quot a b).

(** [a.toNumber()]: throws outside the 53-bit safe range. *)
Definition toNumber (a : Z) : result JS.number :=
  if Z.abs a <? 2 ^ 53 then Ok (JS.ofZ a) else Throw "overflow".

End BN.

(** ** Data model *)

Definition AddressZero : string := "0x0000000000000000000000000000000000000000".

(** A JavaScript object used as a map from property names to values;
    [Object.entries] lists the properties in insertion order (no property
    name of the program is an integer index). *)
Definition JsObject (V : Type) : Type := list (string * V).

Fixpoint obj_get {V} (k : string) (o : JsObject V) : option V :=
  match o with
  | [] => None
  | (k', v) :: o' => if String.eqb k k' then Some v else obj_get k o'
  end.

Fixpoint obj_set {V} (k : string) (v : V) (o : JsObject V) : JsObject V :=
  match o with
  | [] => [(k, v)]
  | (k', v') :: o' =>
      if String.eqb k k' then (k', v) :: o' else (k', v') :: obj_set k v o'
  end.

Definition obj_keys {V} (o : JsObject V) : list string := map fst o.

(** The association list holds an object's own properties. Every object
    literal also inherits the properties of [Object.prototype]: [o[k]]
    finds them when [o] has no own property [k]. The value of each is a
    function, or for [__proto__] the prototype itself: truthy, and an
    object that can be given properties. *)
Definition Object_prototype_properties : list string :=
  [ "constructor"; "__defineGetter__"; "__defineSetter__"; "hasOwnProperty";
    "__lookupGetter__"; "__lookupSetter__"; "isPrototypeOf";
    "propertyIsEnumerable"; "toString"; "valueOf"; "__proto__";
    "toLocaleString" ].

Definition inherited (k : string) : bool :=
  existsb (String.eqb k) Object_prototype_properties.

(** Truthiness of a possibly missing string property. *)
Definition truthy (s : option string) : bool :=
  match s with
  | Some s => negb (String.eqb s "")
  | None => false
  end.

(** [config/config.js], the settings the modelled functions read. *)
Record Config := {
  gas_maxFeePerGas : Z;
  gas_gasLimit : Z;
  minProfitThresholdUSD : JS.number;
  maxSlippagePercent : JS.number;
  priceDeviationThreshold : JS.number;
  flashLoanEnabled : bool;
  bridges_across_enabled : bool;
  bridges_socket_enabled : bool;
  maxExposurePerTrade : Z
}.

Definition config : Config := {|
  gas_maxFeePerGas := 30 * 10 ^ 9;
  gas_gasLimit := 500000;
  minProfitThresholdUSD := JS.ofZ 50;
  maxSlippagePercent := JS.ofRatio 5 10;
  priceDeviationThreshold := JS.ofRatio 5 10;
  flashLoanEnabled := true;
  bridges_across_enabled := true;
  bridges_socket_enabled := true;
  maxExposurePerTrade := 5 * JS.ether
|}.

(** An entry of [tokens.lsdTokens]; [networks] is the property that
    [findCrosschainLSDTokens] adds (empty on a configuration entry). *)
Record Token := {
  symbol : string;
  addresses : JsObject string;
  networks : list string
}.

Record Price := {
  tokenSymbol : string;
  priceInEth : JS.number;
  priceInUsd : JS.number
}.

Record GasEstimate := {
  gasEstimate : Z;
  gasCost : Z;
  gasCostEth : string
}.

Record ProfitabilityAnalysis := {
  isProfitable : bool;
  priceDiffPercentage : JS.number;
  expectedBuyAmountWei : Z;
  expectedBuyAmountToken : string;
  expectedSellAmountWei : Z;
  expectedSellAmountToken : string;
  expectedEthFromSellWei : Z;
  expectedEthFromSellETH : string;
  estimatedGasCostBuy : GasEstimate;
  estimatedGasCostSell : GasEstimate;
  bridgeFee : string;
  bridgeBackFee : string;
  totalCostsWei : Z;
  totalCostsETH : string;
  estimatedProfitWei : Z;
  estimatedProfitETH : string;
  estimatedProfitUSD : string;
  estimatedROI : JS.number;
  optimalTradeSize : string;
  reason : string
}.

(** What [calculateProfitability] returns: the two-property object
    [{ isProfitable: false, reason }], or the full analysis. *)
Inductive ProfitabilityResult :=
| Rejected (why : string)
| Analysis (a : ProfitabilityAnalysis).

(** The budget argument [maxExposureEth]: the finder passes the BigNumber
    [config.wallet.maxExposurePerTrade], other callers a number. *)
Inductive Exposure :=
| ExposureNumber (x : JS.number)
| ExposureBig (z : Z).

Definition Exposure_toString (e : Exposure) : string :=
  match e with
  | ExposureNumber x => JS.Number_toString x
  | ExposureBig z => BN.toString z
  end.

(** ** arbitrage/calculator.js *)

Section Calculator.

Variable cfg : Config.

(** External collaborators: the swap adapter's gas estimate and the bridge
    adapter's fee estimate. *)
Variable swapper_estimateSwapGasCost :
  string -> string -> string -> Z -> result GasEstimate.
Variable bridgesUtils_getBridgeFee :
  string -> string -> string -> Z -> result Z.

Definition estimateGasCost (network fromToken toToken : string) (amount : Z)
    : GasEstimate :=
  match swapper_estimateSwapGasCost network fromToken toToken amount with
  | Ok g => g
  | Throw _ =>
      {| gasEstimate := gas_gasLimit cfg;
         gasCost := gas_gasLimit cfg * gas_maxFeePerGas cfg;
         gasCostEth := JS.formatEther (gas_gasLimit cfg * gas_maxFeePerGas cfg) |}
  end.

(** [parseFloat(x)] of a number converts it to a string first. *)
Definition parseFloat_number (x : JS.number) : JS.number :=
  JS.parseFloat (JS.Number_toString x).

(** Every operation of the [try] block is total on a price that is a
    number and costs that are BigNumbers, so its [catch], which returns
    "1", is never entered. *)
Definition calculateOptimalTradeSize (buyPrice sellPrice : JS.number)
    (gasCostBuy gasCostSell bridgeFee bridgeBackFee : Z) : string :=
  let buyPriceEth := parseFloat_number buyPrice in
  let sellPriceEth := parseFloat_number sellPrice in
  let gasCostBuyEth := JS.parseFloat (JS.formatEther gasCostBuy) in
  let gasCostSellEth := JS.parseFloat (JS.formatEther gasCostSell) in
  let bridgeFeeEth := JS.parseFloat (JS.formatEther bridgeFee) in
  let bridgeBackFeeEth := JS.parseFloat (JS.formatEther bridgeBackFee) in
  let fixedCosts := JS.add (JS.add gasCostBuyEth gasCostSellEth) bridgeBackFeeEth in
  let bridgeFeeRatio := JS.div bridgeFeeEth buyPriceEth in
  let priceDiffRatio := JS.sub (JS.div sellPriceEth buyPriceEth) (JS.ofZ 1) in
  if JS.le priceDiffRatio bridgeFeeRatio then "0.1"
  else
    let optimalTradeSize :=
      JS.mul (JS.div fixedCosts (JS.sub priceDiffRatio bridgeFeeRatio)) (JS.ofZ 50) in
    let cappedTradeSize := JS.Math_min optimalTradeSize (JS.ofZ 100) in
    JS.Number_toString cappedTradeSize.

Definition calculateProfitability_body (token : Token)
    (buyNetwork sellNetwork : string) (buyPrice sellPrice : Price)
    (maxExposureEth : Exposure) (tokenAddressBuy tokenAddressSell : string)
    : result ProfitabilityAnalysis :=
  let priceDiffPercentage :=
    JS.mul (JS.div (JS.sub (priceInEth sellPrice) (priceInEth buyPrice))
                   (priceInEth buyPrice)) (JS.ofZ 100) in
  maxExposureWei ← JS.parseEther (Exposure_toString maxExposureEth);
  let estimatedGasCostBuy :=
    estimateGasCost buyNetwork AddressZero tokenAddressBuy maxExposureWei in
  let slippageMultiplier :=
    JS.div (JS.sub (JS.ofZ 100) (maxSlippagePercent cfg)) (JS.ofZ 100) in
  slippageWei ← JS.parseEther (JS.Number_toString slippageMultiplier);
  buyPriceWei ← JS.parseEther (JS.Number_toString (priceInEth buyPrice));
  expectedBuyAmount ← BN.div (maxExposureWei * slippageWei) buyPriceWei;
  bridgeFee ← bridgesUtils_getBridgeFee buyNetwork sellNetwork tokenAddressBuy
                 expectedBuyAmount;
  let expectedSellAmount := expectedBuyAmount - bridgeFee in
  sellPriceWei ← JS.parseEther (JS.Number_toString (priceInEth sellPrice));
  oneEther ← JS.parseEther "1";
  expectedEthFromSell ← BN.div (expectedSellAmount * sellPriceWei) oneEther;
  let estimatedGasCostSell :=
    estimateGasCost sellNetwork tokenAddressSell AddressZero expectedSellAmount in
  bridgeBackFee ← bridgesUtils_getBridgeFee sellNetwork buyNetwork AddressZero
                     expectedEthFromSell;
  let totalCosts :=
    gasCost estimatedGasCostBuy + gasCost estimatedGasCostSell + bridgeBackFee in
  let profit := expectedEthFromSell - maxExposureWei - totalCosts in
  roiScaled ← BN.div (profit * 10000) maxExposureWei;
  roiNumber ← BN.toNumber roiScaled;
  let roi := JS.div roiNumber (JS.ofZ 100) in
  let profitUsd :=
    JS.div (JS.mul (JS.parseFloat (JS.formatEther profit)) (priceInUsd buyPrice))
           (priceInEth buyPrice) in
  let optimalTradeSize :=
    calculateOptimalTradeSize (priceInEth buyPrice) (priceInEth sellPrice)
      (gasCost estimatedGasCostBuy) (gasCost estimatedGasCostSell)
      bridgeFee bridgeBackFee in
  let isProfitable :=
    (0 <? profit) && JS.ge profitUsd (minProfitThresholdUSD cfg) in
  Ok {| isProfitable := isProfitable;
        priceDiffPercentage := priceDiffPercentage;
        expectedBuyAmountWei := expectedBuyAmount;
        expectedBuyAmountToken := JS.formatEther expectedBuyAmount;
        expectedSellAmountWei := expectedSellAmount;
        expectedSellAmountToken := JS.formatEther expectedSellAmount;
        expectedEthFromSellWei := expectedEthFromSell;
        expectedEthFromSellETH := JS.formatEther expectedEthFromSell;
        estimatedGasCostBuy := estimatedGasCostBuy;
        estimatedGasCostSell := estimatedGasCostSell;
        bridgeFee := JS.formatEther bridgeFee;
        bridgeBackFee := JS.formatEther bridgeBackFee;
        totalCostsWei := totalCosts;
        totalCostsETH := JS.formatEther totalCosts;
        estimatedProfitWei := profit;
        estimatedProfitETH := JS.formatEther profit;
        estimatedProfitUSD := JS.Number_toFixed profitUsd 2;
        estimatedROI := roi;
        optimalTradeSize := optimalTradeSize;
        reason := if isProfitable then "Profitable"
                  else "Not enough profit after costs" |}.

Definition calculateProfitability (token : Token)
    (buyNetwork sellNetwork : string) (buyPrice sellPrice : Price)
    (maxExposureEth : Exposure) : ProfitabilityResult :=
  let tokenAddressBuy := obj_get buyNetwork (addresses token) in
  let tokenAddressSell := obj_get sellNetwork (addresses token) in
  if negb (truthy tokenAddressBuy) || negb (truthy tokenAddressSell) then
    Rejected "Token not available on one of the networks"
  else
    match calculateProfitability_body token buyNetwork sellNetwork
            buyPrice sellPrice maxExposureEth
            (default "" tokenAddressBuy) (default "" tokenAddressSell) with
    | Ok a => Analysis a
    | Throw msg => Rejected ("Error: " +:+ msg)
    end.

(** [calculatePnL] of an executed arbitrage. *)
Record PnL := {
  startingBalanceWei : Z;
  startingBalanceEth : string;
  endingBalanceWei : Z;
  endingBalanceEth : string;
  grossProfitWei : Z;
  grossProfitEth : string;
  gasUsedWei : Z;
  gasUsedEth : string;
  netProfitWei : Z;
  netProfitEth : string;
  roi : string;
  isProfit : bool
}.

Definition calculatePnL (startingBalanceWei endingBalanceWei gasUsedWei : Z)
    : result PnL :=
  let grossProfitWei := endingBalanceWei - startingBalanceWei in
  let netProfitWei := grossProfitWei - gasUsedWei in
  roi ← (if 0 <? startingBalanceWei then
           scaled ← BN.div (netProfitWei * 10000) startingBalanceWei;
           n ← BN.toNumber scaled;
           Ok (JS.div n (JS.ofZ 100))
         else Ok (JS.ofZ 0));
  Ok {| startingBalanceWei := startingBalanceWei;
        startingBalanceEth := JS.formatEther startingBalanceWei;
        endingBalanceWei := endingBalanceWei;
        endingBalanceEth := JS.formatEther endingBalanceWei;
        grossProfitWei := grossProfitWei;
        grossProfitEth := JS.formatEther grossProfitWei;
        gasUsedWei := gasUsedWei;
        gasUsedEth := JS.formatEther gasUsedWei;
        netProfitWei := netProfitWei;
        netProfitEth := JS.formatEther netProfitWei;
        roi := JS.Number_toString roi +:+ "%";
        isProfit := 0 <? netProfitWei |}.

End Calculator.

(** ** arbitrage/finder.js *)

Record Opportunity := {
  token : Token;
  buyNetwork : string;
  sellNetwork : string;
  buyPrice : Price;
  sellPrice : Price;
  priceDifference : JS.number;
  profitability : ProfitabilityAnalysis
}.

Record StepDescriptor := {
  sd_step : Z;
  sd_action : string;
  sd_network : string;
  sd_details : string
}.

Record Strategy := {
  opportunity : Opportunity;
  useFlashLoan : bool;
  tradeSize : Z;
  estimatedGasCostsBuy : GasEstimate;
  estimatedGasCostsSell : GasEstimate;
  strategy_bridgeFee : Z;
  bridgeTime : JS.number;
  strategy_steps : list StepDescriptor;
  strategy_estimatedProfitWei : Z;
  strategy_estimatedProfitETH : string;
  strategy_estimatedProfitUSD : string;
  strategy_estimatedROI : JS.number;
  estimatedTime : JS.number
}.

(** The pairs [(l[i], l[j])] with [i < j], in the order the nested loops
    visit them. *)
Fixpoint index_pairs {A} (l : list A) : list (A * A) :=
  match l with
  | [] => []
  | x :: r => (map (pair x) r ++ index_pairs r)%list
  end.

Section Finder.

Variable cfg : Config.
Variable lsdTokens : list Token.

(** External collaborators. *)
Variable defiUtils_getTokenPrice : string -> string -> result Price.
Variable swapper_estimateSwapGasCost :
  string -> string -> string -> Z -> result GasEstimate.
Variable bridgesUtils_getBridgeFee :
  string -> string -> string -> Z -> result Z.
Variable bridgesUtils_getBridgingTime : string -> string -> result JS.number.

Definition listed_networks (t : Token) : list string :=
  map fst (List.filter (fun na => negb (String.eqb (snd na) "")) (addresses t)).

Definition findCrosschainLSDTokens : list Token :=
  flat_map
    (fun t =>
       let networks := listed_networks t in
       if (1 <? Z.of_nat (length networks)) then
         [ {| symbol := symbol t; addresses := addresses t; networks := networks |} ]
       else [])
    lsdTokens.

Definition getPricesAcrossChains (t : Token) : JsObject Price :=
  fold_left
    (fun prices network =>
       if truthy (obj_get network (addresses t)) then
         match defiUtils_getTokenPrice
                 (default "" (obj_get network (addresses t))) network with
         | Ok price => obj_set network price prices
         | Throw _ => prices
         end
       else prices)
    (networks t) [].

(** The body of the inner loop for one pair of price entries: the
    opportunity it pushes, if any. A price missing from [prices] makes
    [calculateProfitability] fail inside its own [try], so nothing is pushed. *)
Definition examine_pair (t : Token) (prices : JsObject Price)
    (source target : string * Price) : option Opportunity :=
  let '(sourceNetwork, sourcePrice) := source in
  let '(targetNetwork, targetPrice) := target in
  let priceDiff :=
    JS.mul (JS.div (JS.sub (priceInEth targetPrice) (priceInEth sourcePrice))
                   (priceInEth sourcePrice)) (JS.ofZ 100) in
  let absPriceDiff := JS.Math_abs priceDiff in
  if JS.ge absPriceDiff (priceDeviationThreshold cfg) then
    let buyNetwork :=
      if JS.lt (priceInEth sourcePrice) (priceInEth targetPrice)
      then sourceNetwork else targetNetwork in
    let sellNetwork :=
      if String.eqb buyNetwork sourceNetwork then targetNetwork else sourceNetwork in
    match obj_get buyNetwork prices, obj_get sellNetwork prices with
    | Some buyPrice, Some sellPrice =>
        match calculateProfitability cfg swapper_estimateSwapGasCost
                bridgesUtils_getBridgeFee t buyNetwork sellNetwork
                buyPrice sellPrice (ExposureBig (maxExposurePerTrade cfg)) with
        | Analysis profitabilityAnalysis =>
            if isProfitable profitabilityAnalysis then
              Some {| token := t;
                      buyNetwork := buyNetwork;
                      sellNetwork := sellNetwork;
                      buyPrice := buyPrice;
                      sellPrice := sellPrice;
                      priceDifference := priceDiff;
                      profitability := profitabilityAnalysis |}
            else None
        | Rejected _ => None
        end
    | _, _ => None
    end
  else None.

Definition opportunities_of_token (t : Token) : list Opportunity :=
  let prices := getPricesAcrossChains t in
  omap (fun st => examine_pair t prices (fst st) (snd st)) (index_pairs prices).

(** Nothing in the [try] block throws ([getPricesAcrossChains] and
    [calculateProfitability] catch their own exceptions), so the [catch]
    that returns the empty list is never entered. The discovery timestamp
    of an opportunity, a clock reading no modelled function inspects, is
    left out. *)
Definition findArbitrageOpportunities : list Opportunity :=
  flat_map opportunities_of_token findCrosschainLSDTokens.

Definition getBestArbitrageStrategy (o : Opportunity) : result Strategy :=
  let tokenAddressBuy := default "" (obj_get (buyNetwork o) (addresses (token o))) in
  let tokenAddressSell := default "" (obj_get (sellNetwork o) (addresses (token o))) in
  maxTradeSize ← JS.parseEther
    (JS.Number_toString
       (JS.Math_min
          (JS.StringToNumber (JS.formatEther (maxExposurePerTrade cfg)))
          (JS.StringToNumber (optimalTradeSize (profitability o)))));
  let useFlashLoan :=
    flashLoanEnabled cfg
    && String.ltb (JS.formatEther (maxExposurePerTrade cfg))
                  (optimalTradeSize (profitability o)) in
  estimatedGasCostsBuy ← swapper_estimateSwapGasCost (buyNetwork o) AddressZero
                            tokenAddressBuy maxTradeSize;
  estimatedGasCostsSell ← swapper_estimateSwapGasCost (sellNetwork o)
                             tokenAddressSell AddressZero
                             (expectedSellAmountWei (profitability o));
  bridgeFee ← bridgesUtils_getBridgeFee (buyNetwork o) (sellNetwork o)
                 tokenAddressBuy (expectedBuyAmountWei (profitability o));
  bridgeTime ← bridgesUtils_getBridgingTime (buyNetwork o) (sellNetwork o);
  Ok {| opportunity := o;
        useFlashLoan := useFlashLoan;
        tradeSize := maxTradeSize;
        estimatedGasCostsBuy := estimatedGasCostsBuy;
        estimatedGasCostsSell := estimatedGasCostsSell;
        strategy_bridgeFee := bridgeFee;
        bridgeTime := bridgeTime;
        strategy_steps :=
          [ {| sd_step := 1; sd_action := "Buy LSD"; sd_network := buyNetwork o;
               sd_details := "Buy " +:+ symbol (token o) +:+ " on " +:+ buyNetwork o
                 +:+ " at " +:+ JS.Number_toString (priceInEth (buyPrice o))
                 +:+ " ETH" |};
            {| sd_step := 2; sd_action := "Bridge LSD"; sd_network := buyNetwork o;
               sd_details := "Bridge " +:+ symbol (token o) +:+ " from "
                 +:+ buyNetwork o +:+ " to " +:+ sellNetwork o
                 +:+ ". Estimated time: " +:+ JS.Number_toString bridgeTime
                 +:+ " minutes" |};
            {| sd_step := 3; sd_action := "Sell LSD"; sd_network := sellNetwork o;
               sd_details := "Sell " +:+ symbol (token o) +:+ " on " +:+ sellNetwork o
                 +:+ " at " +:+ JS.Number_toString (priceInEth (sellPrice o))
                 +:+ " ETH" |};
            {| sd_step := 4; sd_action := "Bridge ETH back";
               sd_network := sellNetwork o;
               sd_details := "Bridge ETH from " +:+ sellNetwork o +:+ " back to "
                 +:+ buyNetwork o |} ];
        strategy_estimatedProfitWei := estimatedProfitWei (profitability o);
        strategy_estimatedProfitETH := estimatedProfitETH (profitability o);
        strategy_estimatedProfitUSD := estimatedProfitUSD (profitability o);
        strategy_estimatedROI := estimatedROI (profitability o);
        estimatedTime := JS.mul bridgeTime (JS.ofZ 2) |}.

End Finder.

(** ** utils/defi.js: flash loans *)

Inductive FlashLoanState := INACTIVE | PENDING | COMPLETED | FAILED.

(** A transaction receipt; [receipt_status] is 1 for a transaction that
    succeeded on chain. *)
Record Receipt := {
  receipt_status : Z;
  gasUsed : Z;
  effectiveGasPrice : Z
}.

(** The object the flash-loan callback resolves to. *)
Record CallbackResult := {
  cb_success : bool;
  cb_profit : option Z;
  cb_error : option string
}.

Record FlashLoanResult := {
  fl_txHash : string;
  fl_receipt : option Receipt;
  fl_callbackResult : CallbackResult;
  fl_status : string
}.

Definition calculateFlashLoanFee (amount : Z) : Z :=
  Z.quot (amount * 9) 10000.

Definition canRepayFlashLoan (flashLoanAmount currentBalance : Z) : bool :=
  let loanFee := Z.quot (flashLoanAmount * 9) 10000 in
  let totalRepayment := flashLoanAmount + loanFee in
  totalRepayment <=? currentBalance.

Definition FlashLoanState_eqb (a b : FlashLoanState) : bool :=
  match a, b with
  | INACTIVE, INACTIVE | PENDING, PENDING | COMPLETED, COMPLETED | FAILED, FAILED => true
  | _, _ => false
  end.

(** [executeFlashLoan]: [st] is the module variable [flashLoanState];
    [lendingPool_flashLoan] stands for the on-chain part (signer, lending
    pool, gas price, the loan transaction and its confirmation), which
    yields the transaction hash and receipt or throws. The callback runs on
    a state [S] of the caller, here the caller's step list. *)
Definition executeFlashLoan {S : Type} (cfg : Config)
    (lendingPool_flashLoan : string -> string -> Z -> result (string * Receipt))
    (st : FlashLoanState) (network tokenAddr : string) (amount : Z)
    (callbackFunction : string -> Z -> S -> S * CallbackResult) (s : S)
    : FlashLoanState * S * result (option FlashLoanResult) :=
  if negb (flashLoanEnabled cfg) then (st, s, Ok None)
  else if negb (FlashLoanState_eqb st INACTIVE) then
    (FAILED, s, Throw "Another flash loan is already in progress")
  else
    match lendingPool_flashLoan network tokenAddr amount with
    | Throw msg => (FAILED, s, Throw msg)
    | Ok (hash, receipt) =>
        let '(s', callbackResult) := callbackFunction tokenAddr amount s in
        (COMPLETED, s',
         Ok (Some {| fl_txHash := hash;
                     fl_receipt := Some receipt;
                     fl_callbackResult := callbackResult;
                     fl_status := "success" |}))
    end.

(** ** arbitrage/executor.js *)

Record SwapResult := {
  swap_txHash : string;
  swap_status : string;
  swap_receipt : option Receipt;
  swap_inputAmount : option Z;
  swap_outputAmount : option Z
}.

Record BridgeResult := {
  bridge_txHash : string;
  bridge_status : string;
  bridge_receipt : option Receipt
}.

Record Balance := {
  balance_wei : string;
  balance_eth : string
}.

(** A step record of an execution. The wall-clock properties ([startTime],
    [endTime], and the execution's [durationMs]) are left out. *)
Record Step := {
  step_number : Z;
  step_action : string;
  step_network : string;
  step_status : string;
  step_txHash : option string;
  step_inputAmount : option string;
  step_outputAmount : option string;
  step_amount : option string;
  step_details : option string;
  step_flashLoan : bool;
  step_error : option string
}.

Record Execution := {
  exec_strategy : Strategy;
  exec_steps : option (list Step);
  exec_status : string;
  exec_error : option string;
  exec_startBalances : option (JsObject Balance);
  exec_endBalances : option (JsObject Balance);
  exec_pnl : option PnL;
  exec_totalGasUsed : option string;
  exec_flashLoan : bool;
  exec_flashLoanTxHash : option string;
  exec_flashLoanAmount : option string;
  exec_flashLoanProfit : option string;
  exec_profit : option string
}.

Definition new_step (n : Z) (action network : string) : Step :=
  {| step_number := n; step_action := action; step_network := network;
     step_status := "in_progress"; step_txHash := None;
     step_inputAmount := None; step_outputAmount := None; step_amount := None;
     step_details := None; step_flashLoan := false; step_error := None |}.

Definition step_failed (s : Step) (msg : string) : Step :=
  {| step_number := step_number s; step_action := step_action s;
     step_network := step_network s;
     step_status := "failed"; step_txHash := step_txHash s;
     step_inputAmount := step_inputAmount s;
     step_outputAmount := step_outputAmount s; step_amount := step_amount s;
     step_details := step_details s; step_flashLoan := step_flashLoan s;
     step_error := Some msg |}.

(** The object built by the outermost [catch] of both execution functions. *)
Definition failed_execution (strategy : Strategy) (msg : string) (flash : bool)
    : Execution :=
  {| exec_strategy := strategy; exec_steps := None; exec_status := "failed";
     exec_error := Some msg; exec_startBalances := None;
     exec_endBalances := None; exec_pnl := None; exec_totalGasUsed := None;
     exec_flashLoan := flash; exec_flashLoanTxHash := None;
     exec_flashLoanAmount := None; exec_flashLoanProfit := None;
     exec_profit := None |}.

(** [ethers.BigNumber.from(r.receipt.gasUsed).mul(r.receipt.effectiveGasPrice)] *)
Definition receipt_cost (r : option Receipt) : result Z :=
  match r with
  | Some r => Ok (gasUsed r * effectiveGasPrice r)
  | None => Throw "Cannot read properties of undefined (reading 'gasUsed')"
  end.

(** [balances[network]?.eth || '0'] *)
Definition balance_eth_or_zero (balances : JsObject Balance) (network : string)
    : string :=
  match obj_get network balances with
  | Some b => if String.eqb (balance_eth b) "" then "0" else balance_eth b
  | None => "0"
  end.

(** ** The adapters as the executor sees them

    [swapper.executeSwap] and [bridgesUtils.bridgeTokens], cut where the
    transaction has been submitted: what precedes (quotes, connector
    choice, approvals, the router or bridge call) yields the transaction
    hash or throws and is a collaborator; the confirmation and the object
    returned are modelled. *)

Definition lower_ascii (c : ascii) : ascii :=
  let n := N_of_ascii c in
  if (65 <=? n)%N && (n <=? 90)%N then ascii_of_N (n + 32) else c.

Fixpoint toLowerCase (s : string) : string :=
  match s with
  | EmptyString => EmptyString
  | String c s' => String (lower_ascii c) (toLowerCase s')
  end.

Section Adapters.

Variable cfg : Config.
Variable lsdTokens : list Token.

(** [provider.waitForTransaction(txHash, confirmations)] on a network. *)
Variable provider_waitForTransaction : string -> string -> result Receipt.
(** What [swapper.executeSwap] does up to the submission of the swap. *)
Variable submit_swap : string -> string -> string -> Z -> JS.number -> result string.
(** What [bridgeWithSocket] and [bridgeWithAcross] do up to the submission
    of the bridge transaction, and Socket's status query after it. *)
Variable submit_socket : string -> string -> string -> Z -> string -> result string.
Variable submit_across : string -> string -> string -> Z -> string -> result string.
Variable socket_details : string -> result unit.

(** utils/web3.js *)
Definition waitForTransaction (txHash network : string) : result Receipt :=
  receipt ← provider_waitForTransaction txHash network;
  if receipt_status receipt =? 1 then Ok receipt
  else Throw ("Transaction " +:+ txHash +:+ " failed").

(** The connectors' [executeSwap] from the confirmation on, and the spread
    of its result by [swapper.executeSwap], which adds neither
    [inputAmount] nor [outputAmount]. *)
Definition swapper_executeSwap (network fromToken toToken : string) (amount : Z)
    (maxSlippage : JS.number) : result SwapResult :=
  tx ← submit_swap network fromToken toToken amount maxSlippage;
  receipt ← waitForTransaction tx network;
  Ok {| swap_txHash := tx;
        swap_status := if receipt_status receipt =? 1 then "success" else "failed";
        swap_receipt := Some receipt;
        swap_inputAmount := None;
        swap_outputAmount := None |}.

Definition bridgeWithSocket (source destination tokenAddress : string) (amount : Z)
    (recipient : string) : result BridgeResult :=
  tx ← submit_socket source destination tokenAddress amount recipient;
  receipt ← waitForTransaction tx source;
  _ ← socket_details tx;
  Ok {| bridge_txHash := tx; bridge_status := "success";
        bridge_receipt := Some receipt |}.

Definition bridgeWithAcross (source destination tokenAddress : string) (amount : Z)
    (recipient : string) : result BridgeResult :=
  tx ← submit_across source destination tokenAddress amount recipient;
  receipt ← waitForTransaction tx source;
  Ok {| bridge_txHash := tx; bridge_status := "success";
        bridge_receipt := Some receipt |}.

(** The token check that opens [bridgeTokens]: the first configured token
    whose address on the source network is [tokenAddress] must be listed
    on the destination network. *)
Definition bridge_supported (source destination tokenAddress : string) : bool :=
  match List.find
          (fun t => match obj_get source (addresses t) with
                    | Some a => String.eqb (toLowerCase a) (toLowerCase tokenAddress)
                    | None => false
                    end) lsdTokens with
  | Some tokenInfo => truthy (obj_get destination (addresses tokenInfo))
  | None => false
  end.

Definition bridgeTokens (source destination tokenAddress : string) (amount : Z)
    (recipient : string) : result BridgeResult :=
  if negb (bridge_supported source destination tokenAddress) then
    Throw ("Token " +:+ tokenAddress +:+ " not supported on " +:+ destination)
  else if bridges_socket_enabled cfg then
    match bridgeWithSocket source destination tokenAddress amount recipient with
    | Ok r => Ok r
    | Throw socketError =>
        if bridges_across_enabled cfg then
          bridgeWithAcross source destination tokenAddress amount recipient
        else Throw socketError
    end
  else if bridges_across_enabled cfg then
    bridgeWithAcross source destination tokenAddress amount recipient
  else Throw "No bridge provider enabled".

End Adapters.

Section Executor.

Variable cfg : Config.

(** External collaborators. [web3Utils_checkWalletBalances n] is the
    result of the [n]-th balance query of a run. *)
Variable web3Utils_checkWalletBalances : nat -> result (JsObject Balance).
Variable web3Utils_getSigner : string -> result string.
Variable swapper_executeSwap :
  string -> string -> string -> Z -> JS.number -> result SwapResult.
Variable bridgesUtils_bridgeTokens :
  string -> string -> string -> Z -> string -> result BridgeResult.
Variable lendingPool_flashLoan : string -> string -> Z -> result (string * Receipt).

Definition running_execution (strategy : Strategy)
    (startBalances : JsObject Balance) (steps : list Step) : Execution :=
  {| exec_strategy := strategy; exec_steps := Some steps;
     exec_status := "in_progress"; exec_error := None;
     exec_startBalances := Some startBalances; exec_endBalances := None;
     exec_pnl := None; exec_totalGasUsed := None; exec_flashLoan := false;
     exec_flashLoanTxHash := None; exec_flashLoanAmount := None;
     exec_flashLoanProfit := None; exec_profit := None |}.

(** The [catch] block of step [n]: the step and the execution are marked
    failed with the error, and the execution is returned. *)
Definition fail_step (strategy : Strategy) (startBalances : JsObject Balance)
    (done : list Step) (current : Step) (n : string) (msg : string) : Execution :=
  {| exec_strategy := strategy;
     exec_steps := Some (done ++ [step_failed current msg])%list;
     exec_status := "failed";
     exec_error := Some ("Failed at step " +:+ n +:+ ": " +:+ msg);
     exec_startBalances := Some startBalances; exec_endBalances := None;
     exec_pnl := None; exec_totalGasUsed := None; exec_flashLoan := false;
     exec_flashLoanTxHash := None; exec_flashLoanAmount := None;
     exec_flashLoanProfit := None; exec_profit := None |}.

Definition swap_step (s : Step) (r : SwapResult) (inputDefault outputDefault : Z)
    : Step :=
  {| step_number := step_number s; step_action := step_action s;
     step_network := step_network s;
     step_status := swap_status r;
     step_txHash := Some (swap_txHash r);
     step_inputAmount :=
       Some (JS.formatEther (default inputDefault (swap_inputAmount r)));
     step_outputAmount :=
       Some (JS.formatEther (default outputDefault (swap_outputAmount r)));
     step_amount := step_amount s; step_details := step_details s;
     step_flashLoan := step_flashLoan s; step_error := step_error s |}.

Definition bridge_step (s : Step) (r : BridgeResult) (amount : Z) : Step :=
  {| step_number := step_number s; step_action := step_action s;
     step_network := step_network s;
     step_status := bridge_status r;
     step_txHash := Some (bridge_txHash r);
     step_inputAmount := step_inputAmount s;
     step_outputAmount := step_outputAmount s;
     step_amount := Some (JS.formatEther amount);
     step_details := step_details s;
     step_flashLoan := step_flashLoan s; step_error := step_error s |}.

(** The [try] bodies of the four steps, up to the last statement that can
    throw: the adapter's result and the gas it cost. *)
Definition try_buy (strategy : Strategy) (simulate : bool) (tokenAddressBuy : string)
    : result (SwapResult * Z) :=
  let p := profitability (opportunity strategy) in
  swapResult ←
    (if simulate then
       Ok {| swap_txHash := "0xsimulated_buy_transaction";
             swap_status := "success"; swap_receipt := None;
             swap_inputAmount := Some (tradeSize strategy);
             swap_outputAmount := Some (expectedBuyAmountWei p) |}
     else swapper_executeSwap (buyNetwork (opportunity strategy)) AddressZero
            tokenAddressBuy (tradeSize strategy) (maxSlippagePercent cfg));
  gas ← (if simulate then Ok 0 else receipt_cost (swap_receipt swapResult));
  Ok (swapResult, gas).

Definition try_bridge (strategy : Strategy) (simulate : bool) (tokenAddressBuy : string)
    : result (BridgeResult * Z) :=
  let o := opportunity strategy in
  recipient ← web3Utils_getSigner (sellNetwork o);
  bridgeResult ←
    (if simulate then
       Ok {| bridge_txHash := "0xsimulated_bridge_transaction";
             bridge_status := "success"; bridge_receipt := None |}
     else bridgesUtils_bridgeTokens (buyNetwork o) (sellNetwork o) tokenAddressBuy
            (expectedBuyAmountWei (profitability o)) recipient);
  gas ← (if simulate then Ok 0 else receipt_cost (bridge_receipt bridgeResult));
  Ok (bridgeResult, gas).

Definition try_sell (strategy : Strategy) (simulate : bool) (tokenAddressSell : string)
    : result (SwapResult * Z) :=
  let o := opportunity strategy in
  let p := profitability o in
  swapResult ←
    (if simulate then
       Ok {| swap_txHash := "0xsimulated_sell_transaction";
             swap_status := "success"; swap_receipt := None;
             swap_inputAmount := Some (expectedSellAmountWei p);
             swap_outputAmount := Some (expectedEthFromSellWei p) |}
     else swapper_executeSwap (sellNetwork o) tokenAddressSell AddressZero
            (expectedSellAmountWei p) (maxSlippagePercent cfg));
  gas ← (if simulate then Ok 0 else receipt_cost (swap_receipt swapResult));
  Ok (swapResult, gas).

Definition try_bridge_back (strategy : Strategy) (simulate : bool)
    : result (BridgeResult * Z) :=
  let o := opportunity strategy in
  recipient ← web3Utils_getSigner (buyNetwork o);
  bridgeResult ←
    (if simulate then
       Ok {| bridge_txHash := "0xsimulated_bridge_back_transaction";
             bridge_status := "success"; bridge_receipt := None |}
     else bridgesUtils_bridgeTokens (sellNetwork o) (buyNetwork o) AddressZero
            (expectedEthFromSellWei (profitability o)) recipient);
  gas ← (if simulate then Ok 0 else receipt_cost (bridge_receipt bridgeResult));
  Ok (bridgeResult, gas).

(** The first statements of step 1's [try]: with a flash-loan strategy in
    live mode the step is annotated before the swap is attempted. *)
Definition annotate_flash (strategy : Strategy) (simulate : bool) (s : Step) : Step :=
  if useFlashLoan strategy && negb simulate then
    {| step_number := step_number s; step_action := step_action s;
       step_network := step_network s; step_status := step_status s;
       step_txHash := step_txHash s; step_inputAmount := step_inputAmount s;
       step_outputAmount := step_outputAmount s; step_amount := step_amount s;
       step_details :=
         Some ("Using flash loan to buy " +:+ JS.formatEther (tradeSize strategy)
               +:+ " ETH of " +:+ symbol (token (opportunity strategy)));
       step_flashLoan := true; step_error := step_error s |}
  else s.

(** What follows the four steps: balances, PnL, and the successful
    execution; an exception here reaches the outermost [catch]. *)
Definition settle (strategy : Strategy) (startBalances : JsObject Balance)
    (steps : list Step) (totalGasUsed : Z) : Execution :=
  let o := opportunity strategy in
  match
    (endBalances ← web3Utils_checkWalletBalances 1%nat;
     startBalanceWei ← JS.parseEther (balance_eth_or_zero startBalances (buyNetwork o));
     endBalanceWei ← JS.parseEther (balance_eth_or_zero endBalances (buyNetwork o));
     pnl ← calculatePnL startBalanceWei endBalanceWei totalGasUsed;
     Ok (endBalances, pnl))
  with
  | Throw msg => failed_execution strategy msg false
  | Ok (endBalances, pnl) =>
      {| exec_strategy := strategy; exec_steps := Some steps;
         exec_status := "success"; exec_error := None;
         exec_startBalances := Some startBalances;
         exec_endBalances := Some endBalances;
         exec_pnl := Some pnl;
         exec_totalGasUsed := Some (JS.formatEther totalGasUsed);
         exec_flashLoan := false; exec_flashLoanTxHash := None;
         exec_flashLoanAmount := None; exec_flashLoanProfit := None;
         exec_profit := None |}
  end.

Definition executeArbitrageStrategy (strategy : Strategy) (simulate : bool)
    : Execution :=
  let o := opportunity strategy in
  let p := profitability o in
  match web3Utils_checkWalletBalances 0%nat with
  | Throw msg => failed_execution strategy msg false
  | Ok startBalances =>
    let tokenAddressBuy := default "" (obj_get (buyNetwork o) (addresses (token o))) in
    let tokenAddressSell := default "" (obj_get (sellNetwork o) (addresses (token o))) in
    let totalGasUsed := 0 in
    (* Step 1: buy on the source network *)
    let buyStep := annotate_flash strategy simulate
                     (new_step 1 "Buy LSD" (buyNetwork o)) in
    match try_buy strategy simulate tokenAddressBuy with
    | Throw msg => fail_step strategy startBalances [] buyStep "1" msg
    | Ok (swapResult, gas) =>
      let totalGasUsed := totalGasUsed + gas in
      let buyStep := swap_step buyStep swapResult (tradeSize strategy)
                       (expectedBuyAmountWei p) in
      (* Step 2: bridge to the target network *)
      let bridgeStep := new_step 2 "Bridge LSD" (buyNetwork o) in
      match try_bridge strategy simulate tokenAddressBuy with
      | Throw msg => fail_step strategy startBalances [buyStep] bridgeStep "2" msg
      | Ok (bridgeResult, gas) =>
        let totalGasUsed := totalGasUsed + gas in
        let bridgeStep := bridge_step bridgeStep bridgeResult (expectedBuyAmountWei p) in
        (* Step 3: sell on the target network *)
        let sellStep := new_step 3 "Sell LSD" (sellNetwork o) in
        match try_sell strategy simulate tokenAddressSell with
        | Throw msg =>
            fail_step strategy startBalances [buyStep; bridgeStep] sellStep "3" msg
        | Ok (swapResult, gas) =>
          let totalGasUsed := totalGasUsed + gas in
          let sellStep := swap_step sellStep swapResult (expectedSellAmountWei p)
                            (expectedEthFromSellWei p) in
          (* Step 4: bridge ETH back *)
          let bridgeBackStep := new_step 4 "Bridge ETH back" (sellNetwork o) in
          match try_bridge_back strategy simulate with
          | Throw msg =>
              fail_step strategy startBalances [buyStep; bridgeStep; sellStep]
                bridgeBackStep "4" msg
          | Ok (bridgeResult, gas) =>
            let totalGasUsed := totalGasUsed + gas in
            let bridgeBackStep :=
              bridge_step bridgeBackStep bridgeResult (expectedEthFromSellWei p) in
            settle strategy startBalances
              [buyStep; bridgeStep; sellStep; bridgeBackStep] totalGasUsed
          end
        end
      end
    end
  end.

(** The callback handed to [executeFlashLoan]; it pushes its steps onto
    the execution's step list, which it shares with the caller. *)
Definition flashLoanCallback (strategy : Strategy) (simulate : bool)
    (tokenAddressBuy : string) (tokenAddress : string) (amount : Z)
    (steps : list Step) : list Step * CallbackResult :=
  let o := opportunity strategy in
  let p := profitability o in
  let buyStep := new_step 1 "Buy LSD with flash loan" (buyNetwork o) in
  match
    (if simulate then
       Ok {| swap_txHash := "0xsimulated_flash_buy_transaction";
             swap_status := "success"; swap_receipt := None;
             swap_inputAmount := Some amount;
             swap_outputAmount := Some (expectedBuyAmountWei p) |}
     else swapper_executeSwap (buyNetwork o) AddressZero tokenAddressBuy amount
            (maxSlippagePercent cfg))
  with
  | Throw msg =>
      ((steps ++ [buyStep])%list,
       {| cb_success := false; cb_profit := None; cb_error := Some msg |})
  | Ok buyResult =>
      let buyStep := swap_step buyStep buyResult amount (expectedBuyAmountWei p) in
      let expectedOutput := expectedEthFromSellWei p in
      let sellStep :=
        {| step_number := 2; step_action := "Atomic Swap";
           step_network := buyNetwork o; step_status := "success";
           step_txHash := Some "0xsimulated_atomic_swap_transaction";
           step_inputAmount := step_outputAmount buyStep;
           step_outputAmount := Some (JS.formatEther expectedOutput);
           step_amount := None; step_details := None; step_flashLoan := false;
           step_error := None |} in
      let steps := (steps ++ [buyStep; sellStep])%list in
      let flashLoanFee := calculateFlashLoanFee amount in
      let repaymentAmount := amount + flashLoanFee in
      let canRepay := canRepayFlashLoan amount expectedOutput in
      if negb canRepay then
        (steps,
         {| cb_success := false; cb_profit := None;
            cb_error :=
              Some "Cannot repay flash loan - arbitrage not profitable enough" |})
      else
        let profit := expectedOutput - repaymentAmount in
        (steps, {| cb_success := true; cb_profit := Some profit; cb_error := None |})
  end.

(** [executeFlashLoanArbitrage], with the flash-loan module state threaded
    through. *)
Definition executeFlashLoanArbitrage (st : FlashLoanState) (strategy : Strategy)
    (simulate : bool) : FlashLoanState * Execution :=
  let o := opportunity strategy in
  let p := profitability o in
  if negb (flashLoanEnabled cfg) then
    (st, failed_execution strategy "Flash loans are disabled in configuration" true)
  else
    let tokenAddressBuy := default "" (obj_get (buyNetwork o) (addresses (token o))) in
    match JS.parseEther (optimalTradeSize p) with
    | Throw msg => (st, failed_execution strategy msg true)
    | Ok optimalAmount =>
        let '(st', steps, flashLoanResult) :=
          if simulate then
            (st, [],
             Ok (Some {| fl_txHash := "0xsimulated_flash_loan_transaction";
                         fl_receipt := None;
                         fl_callbackResult :=
                           {| cb_success := true;
                              cb_profit := Some (estimatedProfitWei p);
                              cb_error := None |};
                         fl_status := "success" |}))
          else
            executeFlashLoan cfg lendingPool_flashLoan st (buyNetwork o)
              AddressZero optimalAmount
              (flashLoanCallback strategy simulate tokenAddressBuy) [] in
        match flashLoanResult with
        | Throw msg => (st', failed_execution strategy msg true)
        | Ok None =>
            (st', failed_execution strategy
                    "Cannot read properties of null (reading 'txHash')" true)
        | Ok (Some r) =>
            let cb := fl_callbackResult r in
            let flashLoanProfit :=
              match cb_profit cb with
              | Some profit => JS.formatEther profit
              | None => "0"
              end in
            (st',
             {| exec_strategy := strategy; exec_steps := Some steps;
                exec_status := if cb_success cb then "success" else "failed";
                exec_error :=
                  if cb_success cb then None
                  else Some (match cb_error cb with
                             | Some e => if String.eqb e "" then "Flash loan failed" else e
                             | None => "Flash loan failed"
                             end);
                exec_startBalances := None; exec_endBalances := None;
                exec_pnl := None; exec_totalGasUsed := None;
                exec_flashLoan := true;
                exec_flashLoanTxHash := Some (fl_txHash r);
                exec_flashLoanAmount := Some (JS.formatEther optimalAmount);
                exec_flashLoanProfit := Some flashLoanProfit;
                exec_profit := if cb_success cb then Some flashLoanProfit else None |})
        end
    end.

End Executor.

(** ** [Array.prototype.sort], [slice] and the array store

    [sort] is stable; [after x y] says the comparator puts [x] after [y]
    (its result is positive). *)

Fixpoint insert_sorted {A} (after : A -> A -> bool) (x : A) (l : list A) : list A :=
  match l with
  | [] => [x]
  | y :: l' => if after x y then y :: insert_sorted after x l' else x :: y :: l'
  end.

Definition stable_sort {A} (after : A -> A -> bool) (l : list A) : list A :=
  foldr (insert_sorted after) [] l.

(** [l.slice(start, end)] for integer arguments. *)
Definition slice_index (len i : Z) : Z :=
  if i <? 0 then Z.max (len + i) 0 else Z.min i len.

Definition list_slice {A} (start stop : Z) (l : list A) : list A :=
  let len := Z.of_nat (length l) in
  let k := slice_index len start in
  let final := slice_index len stop in
  firstn (Z.to_nat (Z.max (final - k) 0)) (skipn (Z.to_nat k) l).

(** ** simulation/pnl.js: the PnL ledger *)

(** A trade record. [trade_timestamp] is the instant of the ISO string the
    record carries, in milliseconds. *)
Record Trade := {
  trade_id : Z;
  trade_timestamp : Z;
  trade_token : string;
  trade_buyNetwork : string;
  trade_sellNetwork : string;
  trade_buyPrice : JS.number;
  trade_sellPrice : JS.number;
  trade_tradeSize : string;
  trade_status : string;
  trade_steps : option (list Step);
  trade_pnl : option PnL;
  trade_flashLoan : bool
}.

Record PnlPoint := {
  point_timestamp : Z;
  point_tradeId : Z;
  point_profit : JS.number;
  point_balance : JS.number;
  point_token : string
}.

(** Arrays of trades live in a store, so that copying an array and
    sorting it in place are distinct from touching the original. *)
Abbreviation loc := positive (only parsing).
Abbreviation heap := (gmap positive (list Trade)) (only parsing).

Definition Array_read (h : heap) (l : loc) : list Trade := default [] (h !! l).

Definition Array_alloc (h : heap) (content : list Trade) : loc * heap :=
  let l := fresh (dom h) in (l, <[l := content]> h).

Definition Array_push (h : heap) (l : loc) (x : Trade) : heap :=
  <[l := (Array_read h l ++ [x])%list]> h.

(** [[...a]] *)
Definition Array_spread (h : heap) (l : loc) : loc * heap :=
  Array_alloc h (Array_read h l).

(** [a.sort(cmp)]: sorts [a] in place and returns it. *)
Definition Array_sort (after : Trade -> Trade -> bool) (h : heap) (l : loc)
    : loc * heap :=
  (l, <[l := stable_sort after (Array_read h l)]> h).

Definition Array_slice (start stop : Z) (h : heap) (l : loc) : loc * heap :=
  Array_alloc h (list_slice start stop (Array_read h l)).

Record PnLTracker := {
  initialBalanceETH : JS.number;
  currentBalanceETH : JS.number;
  trades : loc;
  pnlHistory : list PnlPoint
}.

(** The tracker object together with the array store. [saveData] writes
    both lists to disk and swallows any error; the files are not part of
    the state. *)
Record Ledger := {
  store : heap;
  tracker : PnLTracker
}.

Definition ledger_trades (w : Ledger) : list Trade :=
  Array_read (store w) (trades (tracker w)).

(** The constructor followed by [loadData]: [pnlData] and [tradesData] are
    the parsed contents of the two files, when they exist. *)
Definition PnLTracker_new (h : heap) (initialBalance : JS.number)
    (pnlData : option (list PnlPoint)) (tradesData : option (list Trade)) : Ledger :=
  let '(l, h) := Array_alloc h [] in
  let history := default [] pnlData in
  let balance := match last history with
                 | Some p => point_balance p
                 | None => initialBalance
                 end in
  let '(l, h) := match tradesData with
                 | Some ts => Array_alloc h ts
                 | None => (l, h)
                 end in
  {| store := h;
     tracker := {| initialBalanceETH := initialBalance;
                   currentBalanceETH := balance;
                   trades := l;
                   pnlHistory := history |} |}.

(** [execution.status === 'success' && execution.pnl] *)
Definition advances_balance (execution : Execution) : bool :=
  String.eqb (exec_status execution) "success"
  && match exec_pnl execution with Some _ => true | None => false end.

(** [recordTrade(execution)] at clock reading [now]. *)
Definition recordTrade (now : Z) (execution : Execution) (w : Ledger)
    : Ledger * Trade :=
  let this := tracker w in
  let o := opportunity (exec_strategy execution) in
  let trade :=
    {| trade_id := Z.of_nat (length (ledger_trades w)) + 1;
       trade_timestamp := now;
       trade_token := symbol (token o);
       trade_buyNetwork := buyNetwork o;
       trade_sellNetwork := sellNetwork o;
       trade_buyPrice := priceInEth (buyPrice o);
       trade_sellPrice := priceInEth (sellPrice o);
       trade_tradeSize := JS.formatEther (tradeSize (exec_strategy execution));
       trade_status := exec_status execution;
       trade_steps := exec_steps execution;
       trade_pnl := exec_pnl execution;
       trade_flashLoan := exec_flashLoan execution |} in
  let h := Array_push (store w) (trades this) trade in
  if String.eqb (exec_status execution) "success" then
    match exec_pnl execution with
    | Some pnl =>
        let profit := JS.parseFloat (netProfitEth pnl) in
        let balance := JS.add (currentBalanceETH this) profit in
        ({| store := h;
            tracker :=
              {| initialBalanceETH := initialBalanceETH this;
                 currentBalanceETH := balance;
                 trades := trades this;
                 pnlHistory :=
                   (pnlHistory this ++
                      [ {| point_timestamp := now;
                           point_tradeId := trade_id trade;
                           point_profit := profit;
                           point_balance := balance;
                           point_token := symbol (token o) |} ])%list |} |},
         trade)
    | None => ({| store := h; tracker := this |}, trade)
    end
  else ({| store := h; tracker := this |}, trade).

Record Performance := {
  perf_trades : Z;
  perf_successfulTrades : Z;
  perf_totalProfit : JS.number
}.

Record Summary := {
  sum_initialBalance : JS.number;
  sum_currentBalance : JS.number;
  sum_totalTrades : Z;
  sum_successfulTrades : Z;
  sum_failedTrades : Z;
  sum_winRate : string;
  sum_totalProfit : string;
  sum_totalGasCost : string;
  sum_netProfit : string;
  sum_roi : string;
  sum_largestProfit : string;
  sum_largestLoss : string;
  sum_tokenPerformance : JsObject Performance;
  sum_networkPerformance : JsObject Performance
}.

(** The four accumulators of the first loop of [getSummary]. *)
Record Totals := {
  totalProfit : JS.number;
  totalGasCost : JS.number;
  largestProfit : JS.number;
  largestLoss : JS.number
}.

Definition totals_step (acc : Totals) (trade : Trade) : Totals :=
  match trade_pnl trade with
  | Some pnl =>
      let profit := JS.parseFloat (netProfitEth pnl) in
      let gasCost := JS.parseFloat (gasUsedEth pnl) in
      {| totalProfit := JS.add (totalProfit acc) profit;
         totalGasCost := JS.add (totalGasCost acc) gasCost;
         largestProfit :=
           if JS.gt profit (largestProfit acc) then profit else largestProfit acc;
         largestLoss :=
           if JS.lt profit (largestLoss acc) then profit else largestLoss acc |}
  | None => acc
  end.

Definition summary_totals (ts : list Trade) : Totals :=
  fold_left totals_step ts
    {| totalProfit := JS.ofZ 0; totalGasCost := JS.ofZ 0;
       largestProfit := JS.ofZ 0; largestLoss := JS.ofZ 0 |}.

(** One iteration of a breakdown loop, for the key [key] (a token symbol
    or a network pair). When the table has no own entry for [key] but
    inherits one ([key] names a property of [Object.prototype]),
    [!table[key]] is false: no entry is created, and the counters are
    written onto the inherited object, not into the table. *)
Definition performance_step (key : string) (trade : Trade) (pnl : PnL)
    (table : JsObject Performance) : JsObject Performance :=
  let success := String.eqb (trade_status trade) "success" in
  let count entry :=
    obj_set key
      {| perf_trades := perf_trades entry + 1;
         perf_successfulTrades :=
           if success then perf_successfulTrades entry + 1
           else perf_successfulTrades entry;
         perf_totalProfit :=
           if success then JS.add (perf_totalProfit entry)
                             (JS.parseFloat (netProfitEth pnl))
           else perf_totalProfit entry |}
      table in
  match obj_get key table with
  | Some entry => count entry
  | None =>
      if inherited key then table
      else count {| perf_trades := 0; perf_successfulTrades := 0;
                    perf_totalProfit := JS.ofZ 0 |}
  end.

Definition tokenPerformance_of (ts : list Trade) : JsObject Performance :=
  fold_left
    (fun table trade =>
       match trade_pnl trade with
       | Some pnl =>
           if negb (String.eqb (trade_token trade) "") then
             performance_step (trade_token trade) trade pnl table
           else table
       | None => table
       end) ts [].

Definition networkPerformance_of (ts : list Trade) : JsObject Performance :=
  fold_left
    (fun table trade =>
       match trade_pnl trade with
       | Some pnl =>
           if negb (String.eqb (trade_buyNetwork trade) "")
              && negb (String.eqb (trade_sellNetwork trade) "") then
             performance_step
               (trade_buyNetwork trade +:+ "-" +:+ trade_sellNetwork trade)
               trade pnl table
           else table
       | None => table
       end) ts [].

Definition getSummary (w : Ledger) : Summary :=
  let this := tracker w in
  let ts := ledger_trades w in
  let totalTrades := Z.of_nat (length ts) in
  let successfulTrades :=
    Z.of_nat (length (List.filter (fun t => String.eqb (trade_status t) "success") ts)) in
  let failedTrades := totalTrades - successfulTrades in
  let t := summary_totals ts in
  let winRate :=
    if 0 <? totalTrades then
      JS.mul (JS.div (JS.ofZ successfulTrades) (JS.ofZ totalTrades)) (JS.ofZ 100)
    else JS.ofZ 0 in
  let roi :=
    JS.mul (JS.div (JS.sub (currentBalanceETH this) (initialBalanceETH this))
                   (initialBalanceETH this)) (JS.ofZ 100) in
  {| sum_initialBalance := initialBalanceETH this;
     sum_currentBalance := currentBalanceETH this;
     sum_totalTrades := totalTrades;
     sum_successfulTrades := successfulTrades;
     sum_failedTrades := failedTrades;
     sum_winRate := JS.Number_toFixed winRate 2 +:+ "%";
     sum_totalProfit := JS.Number_toFixed (totalProfit t) 4;
     sum_totalGasCost := JS.Number_toFixed (totalGasCost t) 4;
     sum_netProfit := JS.Number_toFixed (JS.sub (totalProfit t) (totalGasCost t)) 4;
     sum_roi := JS.Number_toFixed roi 2 +:+ "%";
     sum_largestProfit := JS.Number_toFixed (largestProfit t) 4;
     sum_largestLoss := JS.Number_toFixed (largestLoss t) 4;
     sum_tokenPerformance := tokenPerformance_of ts;
     sum_networkPerformance := networkPerformance_of ts |}.

Record HistoryPage := {
  page_total : Z;
  page_limit : Z;
  page_offset : Z;
  page_trades : loc
}.

(** The comparator of [getTradeHistory] puts [a] after [b] when
    [new Date(b.timestamp) - new Date(a.timestamp)] is positive. *)
Definition newer_first (a b : Trade) : bool :=
  0 <? trade_timestamp b - trade_timestamp a.

Definition getTradeHistory (limit offset : Z) (w : Ledger) : Ledger * HistoryPage :=
  let this := tracker w in
  let '(copy, h) := Array_spread (store w) (trades this) in
  let '(sortedTrades, h) := Array_sort newer_first h copy in
  let total := Z.of_nat (length (Array_read h sortedTrades)) in
  let '(page, h) := Array_slice offset (offset + limit) h sortedTrades in
  ({| store := h; tracker := this |},
   {| page_total := total; page_limit := limit; page_offset := offset;
      page_trades := page |}).

Definition reset (w : Ledger) : Ledger :=
  let this := tracker w in
  let '(l, h) := Array_alloc (store w) [] in
  {| store := h;
     tracker := {| initialBalanceETH := initialBalanceETH this;
                   currentBalanceETH := initialBalanceETH this;
                   trades := l;
                   pnlHistory := [] |} |}.

(** ** bot.js: the bot state and its asynchronous operations

    Between two [await]s JavaScript runs a function without interruption,
    so each operation is cut at its [await]s into atomic segments; a
    suspended call of [executeArbitrage] is a task. *)

Record ActiveTrade := {
  at_token : string;
  at_buyNetwork : string;
  at_sellNetwork : string;
  at_status : string;
  at_profit : option string;
  at_error : option string
}.

Record RecentOpportunity := {
  ro_token : string;
  ro_buyNetwork : string;
  ro_sellNetwork : string;
  ro_priceDifference : string;
  ro_estimatedProfit : string
}.

(** [botState]; the clock reading [lastScan] is left out. *)
Record BotState := {
  running : bool;
  activeTrade : option ActiveTrade;
  recentOpportunities : list RecentOpportunity;
  totalScans : Z;
  opportunitiesFound : Z;
  tradesExecuted : Z;
  tradesSuccessful : Z;
  tradesFailed : Z
}.

(** A call of [executeArbitrage] that passed the guard and is suspended:
    at [await finder.getBestArbitrageStrategy(...)], or at the [await] of
    the executor, while the Execution it created is in progress. *)
Inductive ExecTask :=
| AwaitingStrategy (o : Opportunity)
| AwaitingExecution (s : Strategy).

Record Bot := {
  botState : BotState;
  pnlTracker : Ledger;
  autoExecute : bool;
  scanning : nat;
  executing : list ExecTask;
  timers : nat
}.

Definition with_state (b : Bot) (st : BotState) : Bot :=
  {| botState := st; pnlTracker := pnlTracker b; autoExecute := autoExecute b;
     scanning := scanning b; executing := executing b; timers := timers b |}.

Definition set_activeTrade (st : BotState) (a : option ActiveTrade) : BotState :=
  {| running := running st; activeTrade := a;
     recentOpportunities := recentOpportunities st;
     totalScans := totalScans st; opportunitiesFound := opportunitiesFound st;
     tradesExecuted := tradesExecuted st; tradesSuccessful := tradesSuccessful st;
     tradesFailed := tradesFailed st |}.

Definition count_trade (st : BotState) (executed successful failed : Z) : BotState :=
  {| running := running st; activeTrade := activeTrade st;
     recentOpportunities := recentOpportunities st;
     totalScans := totalScans st; opportunitiesFound := opportunitiesFound st;
     tradesExecuted := tradesExecuted st + executed;
     tradesSuccessful := tradesSuccessful st + successful;
     tradesFailed := tradesFailed st + failed |}.

(** [executeArbitrage(opportunity)], from the call to its first [await]. *)
Definition executeArbitrage_call (o : Opportunity) (b : Bot) : Bot :=
  match activeTrade (botState b) with
  | Some _ => b
  | None =>
      {| botState :=
           set_activeTrade (botState b)
             (Some {| at_token := symbol (token o);
                      at_buyNetwork := buyNetwork o;
                      at_sellNetwork := sellNetwork o;
                      at_status := "in_progress";
                      at_profit := None; at_error := None |});
         pnlTracker := pnlTracker b; autoExecute := autoExecute b;
         scanning := scanning b;
         executing := (executing b ++ [AwaitingStrategy o])%list;
         timers := timers b |}
  end.

(** The [catch] block of [executeArbitrage]: it marks the active trade, if
    there is one, failed and arms the timer that clears it. *)
Definition executeArbitrage_catch (msg : string) (b : Bot) : Bot :=
  match activeTrade (botState b) with
  | Some a =>
      {| botState :=
           count_trade
             (set_activeTrade (botState b)
                (Some {| at_token := at_token a; at_buyNetwork := at_buyNetwork a;
                         at_sellNetwork := at_sellNetwork a;
                         at_status := "failed";
                         at_profit := at_profit a; at_error := Some msg |}))
             1 0 1;
         pnlTracker := pnlTracker b; autoExecute := autoExecute b;
         scanning := scanning b; executing := executing b;
         timers := S (timers b) |}
  | None => b
  end.

Definition remove_task (i : nat) (b : Bot) : Bot :=
  {| botState := botState b; pnlTracker := pnlTracker b;
     autoExecute := autoExecute b; scanning := scanning b;
     executing := delete i (executing b); timers := timers b |}.

(** Task [i] resumes with the outcome of [getBestArbitrageStrategy]. *)
Definition executeArbitrage_strategy (i : nat) (r : result Strategy) (b : Bot) : Bot :=
  match r with
  | Throw msg => executeArbitrage_catch msg (remove_task i b)
  | Ok strategy =>
      {| botState := botState b; pnlTracker := pnlTracker b;
         autoExecute := autoExecute b; scanning := scanning b;
         executing := <[i := AwaitingExecution strategy]> (executing b);
         timers := timers b |}
  end.

(** Task [i] resumes with the execution the executor returned, at clock
    reading [now]. *)
Definition executeArbitrage_finish (i : nat) (now : Z) (execution : Execution)
    (b : Bot) : Bot :=
  let b := remove_task i b in
  let b := {| botState := botState b;
              pnlTracker := fst (recordTrade now execution (pnlTracker b));
              autoExecute := autoExecute b; scanning := scanning b;
              executing := executing b; timers := timers b |} in
  match activeTrade (botState b) with
  | None =>
      executeArbitrage_catch
        "Cannot set properties of null (setting 'status')" b
  | Some a =>
      let a := {| at_token := at_token a; at_buyNetwork := at_buyNetwork a;
                  at_sellNetwork := at_sellNetwork a;
                  at_status := exec_status execution;
                  at_profit :=
                    Some (match exec_pnl execution with
                          | Some pnl => if String.eqb (netProfitEth pnl) "" then "0"
                                        else netProfitEth pnl
                          | None => "0"
                          end);
                  at_error := at_error a |} in
      let b := with_state b (set_activeTrade (botState b) (Some a)) in
      if String.eqb (exec_status execution) "success" then
        let b := with_state b (count_trade (botState b) 1 1 0) in
        match exec_pnl execution with
        | Some _ =>
            {| botState := botState b; pnlTracker := pnlTracker b;
               autoExecute := autoExecute b; scanning := scanning b;
               executing := executing b; timers := S (timers b) |}
        | None =>
            executeArbitrage_catch
              "Cannot read properties of undefined (reading 'netProfitEth')" b
        end
      else
        let b := with_state b (count_trade (botState b) 1 0 1) in
        {| botState := botState b; pnlTracker := pnlTracker b;
           autoExecute := autoExecute b; scanning := scanning b;
           executing := executing b; timers := S (timers b) |}
  end.

(** The callback of [setTimeout(..., 5000)]. *)
Definition timer_fires (b : Bot) : Bot :=
  {| botState := set_activeTrade (botState b) None;
     pnlTracker := pnlTracker b; autoExecute := autoExecute b;
     scanning := scanning b; executing := executing b;
     timers := pred (timers b) |}.

(** [scanForOpportunities()], from the call to its first [await]. *)
Definition scanForOpportunities_call (b : Bot) : Bot :=
  match activeTrade (botState b) with
  | Some _ => b
  | None =>
      let st := botState b in
      {| botState :=
           {| running := running st; activeTrade := activeTrade st;
              recentOpportunities := recentOpportunities st;
              totalScans := totalScans st + 1;
              opportunitiesFound := opportunitiesFound st;
              tradesExecuted := tradesExecuted st;
              tradesSuccessful := tradesSuccessful st;
              tradesFailed := tradesFailed st |};
         pnlTracker := pnlTracker b; autoExecute := autoExecute b;
         scanning := S (scanning b); executing := executing b;
         timers := timers b |}
  end.

Definition by_estimated_profit (a b : Opportunity) : bool :=
  JS.gt (JS.sub (JS.parseFloat (estimatedProfitUSD (profitability b)))
                (JS.parseFloat (estimatedProfitUSD (profitability a))))
        (JS.ofZ 0).

(** A suspended scan resumes with the opportunities the finder returned;
    with [AUTO_EXECUTE] it calls [executeArbitrage] on the best one. *)
Definition scanForOpportunities_resume (opportunities : list Opportunity) (b : Bot)
    : Bot :=
  let b := {| botState := botState b; pnlTracker := pnlTracker b;
              autoExecute := autoExecute b; scanning := pred (scanning b);
              executing := executing b; timers := timers b |} in
  match opportunities with
  | [] => b
  | _ :: _ =>
      let st := botState b in
      let st :=
        {| running := running st; activeTrade := activeTrade st;
           recentOpportunities :=
             map (fun o =>
                    {| ro_token := symbol (token o);
                       ro_buyNetwork := buyNetwork o;
                       ro_sellNetwork := sellNetwork o;
                       ro_priceDifference :=
                         JS.Number_toFixed (priceDifference o) 2 +:+ "%";
                       ro_estimatedProfit :=
                         estimatedProfitUSD (profitability o) +:+ " USD" |})
                 opportunities;
           totalScans := totalScans st;
           opportunitiesFound :=
             opportunitiesFound st + Z.of_nat (length opportunities);
           tradesExecuted := tradesExecuted st;
           tradesSuccessful := tradesSuccessful st;
           tradesFailed := tradesFailed st |} in
      let b := with_state b st in
      let sortedOpportunities := stable_sort by_estimated_profit opportunities in
      if autoExecute b then
        match sortedOpportunities with
        | top :: _ => executeArbitrage_call top b
        | [] => b
        end
      else b
  end.

(** The atomic segments the event loop can run next. *)
Inductive bot_step : Bot -> Bot -> Prop :=
| step_scan_call b :
    bot_step b (scanForOpportunities_call b)
| step_scan_resume b opportunities :
    (0 < scanning b)%nat ->
    bot_step b (scanForOpportunities_resume opportunities b)
| step_execute_call b o :
    bot_step b (executeArbitrage_call o b)
| step_execute_strategy b i o r :
    executing b !! i = Some (AwaitingStrategy o) ->
    bot_step b (executeArbitrage_strategy i r b)
| step_execute_finish b i s now execution :
    executing b !! i = Some (AwaitingExecution s) ->
    bot_step b (executeArbitrage_finish i now execution b)
| step_timer b :
    (0 < timers b)%nat ->
    bot_step b (timer_fires b).

Definition initial_bot (auto : bool) : Bot :=
  {| botState :=
       {| running := false; activeTrade := None; recentOpportunities := [];
          totalScans := 0; opportunitiesFound := 0; tradesExecuted := 0;
          tradesSuccessful := 0; tradesFailed := 0 |};
     pnlTracker := PnLTracker_new ∅ (JS.ofZ 10) None None;
     autoExecute := auto; scanning := 0; executing := []; timers := 0 |}.

Inductive reachable (auto : bool) : Bot -> Prop :=
| reachable_initial : reachable auto (initial_bot auto)
| reachable_step b b' : reachable auto b -> bot_step b b' -> reachable auto b'.

(** The Executions in progress: one per task suspended on the executor. *)
Definition executions_in_progress (b : Bot) : nat :=
  length (List.filter
            (fun t => match t with AwaitingExecution _ => true | _ => false end)
            (executing b)).

(** ** Sample collaborators and data *)

Module Sample.

(** A swap adapter that estimates 150000 gas at 30 gwei. *)
Definition estimateSwapGasCost (network fromToken toToken : string) (amount : Z)
    : result GasEstimate :=
  Ok {| gasEstimate := 150000;
        gasCost := 150000 * (30 * 10 ^ 9);
        gasCostEth := JS.formatEther (150000 * (30 * 10 ^ 9)) |}.

(** A swap adapter that estimates the configured gas limit at 30 gwei. *)
Definition estimateGasLimit (network fromToken toToken : string) (amount : Z)
    : result GasEstimate :=
  Ok {| gasEstimate := 500000;
        gasCost := 500000 * (30 * 10 ^ 9);
        gasCostEth := JS.formatEther (500000 * (30 * 10 ^ 9)) |}.

(** A bridge adapter that charges 0.5% of the amount. *)
Definition getBridgeFee (source destination tokenAddr : string) (amount : Z)
    : result Z :=
  Ok (Z.quot (amount * 5) 1000).

(** A bridge adapter that charges a flat 0.001 ETH. *)
Definition getFlatBridgeFee (source destination tokenAddr : string) (amount : Z)
    : result Z :=
  Ok (10 ^ 15).

Definition getBridgingTime (source destination : string) : result JS.number :=
  Ok (JS.ofZ 15).

Definition stETH : Token :=
  {| symbol := "stETH";
     addresses :=
       [ ("ethereum", "0xae7ab96520DE3A18E5e111B5EaAb095312D7fE84");
         ("arbitrum", "0x5979D7b546E38E414F7E9822514be443A4800529");
         ("optimism", "0x1F32b1c2345538c0c6f582fCB022739c4A194Ebb");
         ("polygon", "");
         ("base", "0xc3864f98f2a61A7cAeb95b039D031b4E2f55e0e9") ];
     networks := [] |}.

(** A price of [n / 1000] ETH, at 3000 USD per ETH. *)
Definition price (n : Z) : Price :=
  {| tokenSymbol := "stETH";
     priceInEth := JS.ofRatio n 1000;
     priceInUsd := JS.mul (JS.ofRatio n 1000) (JS.ofZ 3000) |}.

(** A price feed quoting 0.975 ETH on arbitrum and 0.99 ETH elsewhere. *)
Definition getTokenPrice (tokenAddress network : string) : result Price :=
  if String.eqb network "arbitrum" then Ok (price 975) else Ok (price 990).

Definition blank_gas : GasEstimate :=
  {| gasEstimate := 0; gasCost := 0; gasCostEth := "" |}.

Definition blank_analysis : ProfitabilityAnalysis :=
  {| isProfitable := false; priceDiffPercentage := JS.NaN;
     expectedBuyAmountWei := 0; expectedBuyAmountToken := "";
     expectedSellAmountWei := 0; expectedSellAmountToken := "";
     expectedEthFromSellWei := 0; expectedEthFromSellETH := "";
     estimatedGasCostBuy := blank_gas; estimatedGasCostSell := blank_gas;
     bridgeFee := ""; bridgeBackFee := ""; totalCostsWei := 0;
     totalCostsETH := ""; estimatedProfitWei := 0; estimatedProfitETH := "";
     estimatedProfitUSD := ""; estimatedROI := JS.NaN; optimalTradeSize := "";
     reason := "" |}.

Definition blank_opportunity : Opportunity :=
  {| token := stETH; buyNetwork := ""; sellNetwork := "";
     buyPrice := price 0; sellPrice := price 0; priceDifference := JS.NaN;
     profitability := blank_analysis |}.

Definition blank_strategy : Strategy :=
  {| opportunity := blank_opportunity; useFlashLoan := false; tradeSize := 0;
     estimatedGasCostsBuy := blank_gas; estimatedGasCostsSell := blank_gas;
     strategy_bridgeFee := 0; bridgeTime := JS.NaN; strategy_steps := [];
     strategy_estimatedProfitWei := 0; strategy_estimatedProfitETH := "";
     strategy_estimatedProfitUSD := ""; strategy_estimatedROI := JS.NaN;
     estimatedTime := JS.NaN |}.

(** The first opportunity of a scan of stETH with the proportional bridge
    fee: buy on arbitrum at 0.975, sell on ethereum at 0.99. *)
Definition opportunity : Opportunity :=
  Eval vm_compute in
    hd blank_opportunity
       (findArbitrageOpportunities config [stETH] getTokenPrice
          estimateSwapGasCost getBridgeFee).

(** The same scan with the flat bridge fee and the gas-limit estimate; the
    analysis recommends the capped size ["100"]. *)
Definition opportunity100 : Opportunity :=
  Eval vm_compute in
    hd blank_opportunity
       (findArbitrageOpportunities config [stETH] getTokenPrice
          estimateGasLimit getFlatBridgeFee).

Definition strategy_of (r : result Strategy) : Strategy :=
  match r with
  | Ok s => s
  | Throw _ => blank_strategy
  end.

Definition strategy : Strategy :=
  Eval vm_compute in
    strategy_of (getBestArbitrageStrategy config estimateSwapGasCost
                   getBridgeFee getBridgingTime opportunity).

Definition strategy100 : Strategy :=
  Eval vm_compute in
    strategy_of (getBestArbitrageStrategy config estimateGasLimit
                   getFlatBridgeFee getBridgingTime opportunity100).

(** The analysis of the same quotes for a budget of 5 ETH, and the
    opportunity and strategy built on it: the recommended size is "100",
    while the expected proceeds are about 5.05 ETH. *)
Definition analysis5 : ProfitabilityAnalysis :=
  Eval vm_compute in
    match calculateProfitability config estimateGasLimit getFlatBridgeFee
            (token opportunity100) "arbitrum" "ethereum" (price 975) (price 990)
            (ExposureNumber (JS.ofZ 5)) with
    | Analysis a => a
    | Rejected _ => blank_analysis
    end.

Definition opportunity5 : Opportunity :=
  {| token := token opportunity100;
     buyNetwork := "arbitrum"; sellNetwork := "ethereum";
     buyPrice := price 975; sellPrice := price 990;
     priceDifference := priceDifference opportunity100;
     profitability := analysis5 |}.

Definition strategy5 : Strategy :=
  Eval vm_compute in
    strategy_of (getBestArbitrageStrategy config estimateGasLimit
                   getFlatBridgeFee getBridgingTime opportunity5).

(** Collaborators of the executor: a wallet holding 10 ETH on every
    network before the trade and 10.02 ETH after it, a chain on which
    every submitted transaction is confirmed, and one on which the bridge
    transactions are never confirmed. *)
Definition checkWalletBalances (n : nat) : result (JsObject Balance) :=
  match n with
  | O =>
      Ok [ ("ethereum", {| balance_wei := "10000000000000000000"; balance_eth := "10.0" |});
           ("arbitrum", {| balance_wei := "10000000000000000000"; balance_eth := "10.0" |}) ]
  | S _ =>
      Ok [ ("ethereum", {| balance_wei := "10020000000000000000"; balance_eth := "10.02" |});
           ("arbitrum", {| balance_wei := "10020000000000000000"; balance_eth := "10.02" |}) ]
  end.

Definition getSigner (network : string) : result string :=
  Ok "0x70997970C51812dc3A010C7d01b50e0d17dc79C8".

Definition receipt : Receipt :=
  {| receipt_status := 1; gasUsed := 150000; effectiveGasPrice := 30 * 10 ^ 9 |}.

Definition submitSwap (network fromToken toToken : string) (amount : Z)
    (maxSlippage : JS.number) : result string :=
  Ok "0xswap".

Definition submitSocket (source destination tokenAddr : string) (amount : Z)
    (recipient : string) : result string :=
  Ok "0xsocket".

Definition submitAcross (source destination tokenAddr : string) (amount : Z)
    (recipient : string) : result string :=
  Ok "0xacross".

Definition socketDetails (tx : string) : result unit := Ok tt.

Definition confirmed (tx network : string) : result Receipt := Ok receipt.


Definition executeSwap :=
  swapper_executeSwap confirmed submitSwap.

Definition bridgeTokens :=
  bridgeTokens config [stETH] confirmed submitSocket submitAcross socketDetails.

Definition flashLoan (network tokenAddr : string) (amount : Z)
    : result (string * Receipt) :=
  Ok ("0xflashloan", receipt).

End Sample.

(** ** Notions used to state the properties *)

Definition listed_on (t : Token) (network : string) : Prop :=
  truthy (obj_get network (addresses t)) = true.

(** The fiat profit of an analysis: [parseFloat(formatEther(profit)) *
    buyPrice.priceInUsd / buyPrice.priceInEth]. *)
Definition profitUsd_of (a : ProfitabilityAnalysis) (buyPrice : Price) : JS.number :=
  JS.div (JS.mul (JS.parseFloat (JS.formatEther (estimatedProfitWei a)))
                 (priceInUsd buyPrice))
         (priceInEth buyPrice).




(** The profit [recordTrade] reads off an execution. *)
Definition recorded_profit (execution : Execution) : JS.number :=
  match exec_pnl execution with
  | Some pnl => JS.parseFloat (netProfitEth pnl)
  | None => JS.NaN
  end.

(** A sequence of [recordTrade] calls, each with its clock reading. *)
Definition record_all (calls : list (Z * Execution)) (w : Ledger) : Ledger :=
  fold_left (fun w call => fst (recordTrade (fst call) (snd call) w)) calls w.


(** The bounds the first loop of [getSummary] keeps. *)
Definition totals_bounded (t : Totals) : Prop :=
  JS.ge (largestProfit t) (JS.ofZ 0) = true
  /\ JS.le (largestLoss t) (JS.ofZ 0) = true.

(** The net profit [getSummary] reads off a trade that has a [pnl]. *)
Definition trade_profit (trade : Trade) : option JS.number :=
  match trade_pnl trade with
  | Some pnl => Some (JS.parseFloat (netProfitEth pnl))
  | None => None
  end.

(** The single-flight invariant of the bot: calls of [executeArbitrage]
    past the guard and armed timers number at most one together, and
    whenever there is one the active trade is set. *)
Definition single_flight (b : Bot) : Prop :=
  (length (executing b) + timers b <= 1)%nat
  /\ ((0 < length (executing b) + timers b)%nat ->
      is_Some (activeTrade (botState b))).


(** * The modules around the engine

    The wallet and gas utilities, the price feed, the bridge utilities and
    the swap router, which the finder, the calculator and the executor
    call. *)

(** ** config/config.js and config/tokens.js: the settings read here *)

Definition config_enabledNetworks : list string :=
  ["ethereum"; "arbitrum"; "optimism"; "polygon"; "base"].

Definition config_exchanges : JsObject bool :=
  [("uniswap", true); ("sushiswap", true); ("curve", true); ("balancer", true)].

Definition tokens_lsdTokens : list Token :=
  [ {| symbol := "stETH";
       addresses :=
         [ ("ethereum", "0xae7ab96520DE3A18E5e111B5EaAb095312D7fE84");
           ("arbitrum", "0x5979D7b546E38E414F7E9822514be443A4800529");
           ("optimism", "0x1F32b1c2345538c0c6f582fCB022739c4A194Ebb");
           ("polygon", "");
           ("base", "0xc3864f98f2a61A7cAeb95b039D031b4E2f55e0e9") ];
       networks := [] |};
    {| symbol := "rETH";
       addresses :=
         [ ("ethereum", "0xae78736Cd615f374D3085123A210448E74Fc6393");
           ("arbitrum", "0xEC70Dcb4A1EFa46b8F2D97C310C9c4790ba5ffA8");
           ("optimism", "0x9Bcef72be871e61ED4fBbc7630889beE758eb81D");
           ("polygon", "");
           ("base", "0xB6fe221Fe9EeF5aBa221c348bA20A1Bf5e73624c") ];
       networks := [] |};
    {| symbol := "cbETH";
       addresses :=
         [ ("ethereum", "0xBe9895146f7AF43049ca1c1AE358B0541Ea49704");
           ("arbitrum", "0x1DEBd73E752bEaF79865Fd6446b0c970EaE7732f");
           ("optimism", "0xadDb6A0412DE1BA0F936DCaeb8Aaa24578dcF3B2");
           ("polygon", "");
           ("base", "0x2Ae3F1Ec7F1F5012CFEab0185bfc7aa3cf0DEc22") ];
       networks := [] |};
    {| symbol := "frxETH";
       addresses :=
         [ ("ethereum", "0x5E8422345238F34275888049021821E8E08CAa1f");
           ("arbitrum", "0x178412e79c25968a32e89b11f63B33F733D3725F");
           ("optimism", "0x6806411765Af15Bddd26f8f544A34cC40cb9838B");
           ("polygon", "");
           ("base", "") ];
       networks := [] |};
    {| symbol := "sfrxETH";
       addresses :=
         [ ("ethereum", "0xac3e018457b222d93114458476f3e3416abbe38f");
           ("arbitrum", "0x95aB45875cFFdba1E5f451B950bC2E42c0053f39");
           ("optimism", "0x484c2D6e3cDd945a8B2DF735e079178C1036578c");
           ("polygon", "");
           ("base", "") ];
       networks := [] |} ].

(** ** More built-ins *)

(** Truthiness of a number, and [x || d] for a possibly missing number. *)
Definition number_truthy (x : JS.number) : bool :=
  match x with
  | S754_zero _ | S754_nan => false
  | _ => true
  end.

Definition number_or (x : option JS.number) (d : JS.number) : JS.number :=
  match x with
  | Some v => if number_truthy v then v else d
  | None => d
  end.

(** [Number.MAX_VALUE], and [x !== y] on numbers. *)
Definition Number_MAX_VALUE : JS.number := S754_finite false 9007199254740991 971.

Definition number_strict_ne (x y : JS.number) : bool :=
  match SFcompare x y with
  | Some Eq => false
  | _ => true
  end.

(** [Math.floor] *)
Definition Math_floor (x : JS.number) : JS.number :=
  match x with
  | S754_finite s m e =>
      if 0 <=? e then x
      else
        let q := Zpos m / 2 ^ (- e) in
        let whole := Zpos m mod 2 ^ (- e) =? 0 in
        let n := if s then (if whole then - q else - q - 1) else q in
        if n =? 0 then S754_zero s else JS.ofZ n
  | _ => x
  end.

(** The integer a number is, when it is one. *)
Definition Number_toInteger (x : JS.number) : option Z :=
  match x with
  | S754_zero _ => Some 0
  | S754_finite s m e =>
      if 0 <=? e then Some ((if s then -1 else 1) * (Zpos m * 2 ^ e))
      else if Zpos m mod 2 ^ (- e) =? 0
           then Some ((if s then -1 else 1) * (Zpos m / 2 ^ (- e)))
           else None
  | _ => None
  end.

(** [ethers.BigNumber.from(x)] for a number [x], as [mul] converts its
    argument: a fraction underflows, an integer outside the safe range
    overflows. *)
Definition BigNumber_from_number (x : JS.number) : result Z :=
  match Number_toInteger x with
  | Some n =>
      if (2 ^ 53 - 1 <=? n) || (n <=? - (2 ^ 53 - 1)) then Throw "overflow"
      else Ok n
  | None =>
      match x with
      | S754_infinity _ => Throw "overflow"
      | S754_nan => Throw "invalid BigNumber string"
      | _ => Throw "underflow"
      end
  end.

(** ** utils/web3.js *)

(** What [getOptimizedGasPrice] returns: the EIP-1559 fields or [gasPrice],
    and the gas limit. *)
Record GasSettings := {
  gs_maxFeePerGas : option Z;
  gs_maxPriorityFeePerGas : option Z;
  gs_gasPrice : option Z;
  gs_gasLimit : Z
}.

Definition supports_eip1559 (network : string) : bool :=
  String.eqb network "ethereum" || String.eqb network "arbitrum"
  || String.eqb network "optimism" || String.eqb network "base".

Section Web3.

Variable cfg : Config.
(** [config.gas.maxPriorityFeePerGas] and [config.enabledNetworks]. *)
Variable gas_maxPriorityFeePerGas : Z.
Variable enabledNetworks : list string.
(** The module's [wallets] object, as the address of the wallet of each
    network that has one. *)
Variable wallets : JsObject string.
(** External collaborators: [wallet.getBalance()], and the provider of a
    network with its [getFeeData()] (the two fees, either possibly null)
    and [getGasPrice()]; the latter two throw when the network has no
    provider. *)
Variable wallet_getBalance : string -> result Z.
Variable provider_getFeeData : string -> result (option Z * option Z).
Variable provider_getGasPrice : string -> result Z.

(** [getSigner(network).address] *)
Definition getSigner (network : string) : result string :=
  match obj_get network wallets with
  | Some address => Ok address
  | None => Throw ("Wallet not initialized for network: " +:+ network)
  end.

Definition getOptimizedGasPrice (network : string) : GasSettings :=
  if supports_eip1559 network then
    match provider_getFeeData network with
    | Ok (maxFeePerGas, maxPriorityFeePerGas) =>
        {| gs_maxFeePerGas := Some (default (gas_maxFeePerGas cfg) maxFeePerGas);
           gs_maxPriorityFeePerGas :=
             Some (default gas_maxPriorityFeePerGas maxPriorityFeePerGas);
           gs_gasPrice := None;
           gs_gasLimit := gas_gasLimit cfg |}
    | Throw _ =>
        {| gs_maxFeePerGas := Some (gas_maxFeePerGas cfg);
           gs_maxPriorityFeePerGas := Some gas_maxPriorityFeePerGas;
           gs_gasPrice := None;
           gs_gasLimit := gas_gasLimit cfg |}
    end
  else
    match provider_getGasPrice network with
    | Ok gasPrice =>
        {| gs_maxFeePerGas := None; gs_maxPriorityFeePerGas := None;
           gs_gasPrice := Some (Z.quot (gasPrice * 110) 100);
           gs_gasLimit := gas_gasLimit cfg |}
    | Throw _ =>
        {| gs_maxFeePerGas := None; gs_maxPriorityFeePerGas := None;
           gs_gasPrice := Some (gas_maxFeePerGas cfg);
           gs_gasLimit := gas_gasLimit cfg |}
    end.

(** [checkWalletBalances()]: one entry per enabled network that has a
    wallet; a balance that cannot be read is entered as zero. *)
Definition checkWalletBalances : JsObject Balance :=
  fold_left
    (fun balances network =>
       match obj_get network wallets with
       | None => balances
       | Some _ =>
           match wallet_getBalance network with
           | Ok balance =>
               obj_set network
                 {| balance_wei := BN.toString balance;
                    balance_eth := JS.formatEther balance |} balances
           | Throw _ =>
               obj_set network {| balance_wei := "0"; balance_eth := "0" |} balances
           end
       end)
    enabledNetworks [].

End Web3.

(** ** utils/defi.js: the price feed *)

Definition basePrices : JsObject JS.number :=
  [ ("stETH", JS.ofRatio 99 100);
    ("wstETH", JS.ofRatio 112 100);
    ("rETH", JS.ofRatio 104 100);
    ("cbETH", JS.ofRatio 102 100);
    ("frxETH", JS.ofRatio 995 1000);
    ("sfrxETH", JS.ofRatio 103 100) ].

Definition networkVariances : JsObject JS.number :=
  [ ("ethereum", JS.ofZ 0);
    ("arbitrum", JS.ofRatio 5 1000);
    ("optimism", JS.ofRatio (-3) 1000);
    ("polygon", JS.ofRatio 2 1000);
    ("base", JS.ofRatio (-1) 1000) ].

(** The two tables of [getTokenPrice] hold numbers. For a symbol or a
    network that names a property inherited from [Object.prototype] the
    lookup [table[key]] finds a function instead, and the price is no
    longer a number; the numeric fields computed below are those of the
    source for every other key ([inherited key = false]). *)

(** [Object.values(token.addresses).includes(tokenAddress)] *)
Definition lists_address (tokenAddress : string) (t : Token) : bool :=
  existsb (String.eqb tokenAddress) (map snd (addresses t)).

Definition getTokenPrice (lsdTokens : list Token) (tokenAddress network : string)
    : result Price :=
  match List.find (lists_address tokenAddress) lsdTokens with
  | None => Throw ("Token " +:+ tokenAddress +:+ " not found in configuration")
  | Some tokenInfo =>
      let basePrice := number_or (obj_get (symbol tokenInfo) basePrices) (JS.ofZ 1) in
      let variance := number_or (obj_get network networkVariances) (JS.ofZ 0) in
      let price := JS.add basePrice variance in
      let ethUsdPrice := JS.ofZ 3000 in
      let usdPrice := JS.mul price ethUsdPrice in
      Ok {| tokenSymbol := symbol tokenInfo;
            priceInEth := price;
            priceInUsd := usdPrice |}
  end.

(** ** utils/bridges.js: fees and bridging times *)

Section BridgeFees.

Variable cfg : Config.
(** External collaborators: the Socket contract's fee estimate for its
    best route, and the relayer fee (a fraction of [10^18]) that the Across
    API suggests. *)
Variable socket_estimateFees : string -> string -> string -> Z -> result Z.
Variable across_suggestedFees : string -> string -> string -> Z -> result Z.

(** The [feeAmount] of [getAcrossFees]; its other two properties,
    [relayerFeePct] and [quoteTimestamp], are read by no caller. *)
Definition getAcrossFees (sourceNetwork destinationNetwork tokenAddress : string)
    (amount : Z) : Z :=
  match across_suggestedFees sourceNetwork destinationNetwork tokenAddress amount with
  | Ok relayerFeeBps => Z.quot (amount * relayerFeeBps) 1000000000000000000
  | Throw _ =>
      let fallbackFeePct := 5000000000000000 in
      Z.quot (amount * fallbackFeePct) 1000000000000000000
  end.

(** [getBridgeFee]: every exception ends in the outer [catch], which
    answers with the 0.5% fallback. *)
Definition getBridgeFee (sourceNetwork destinationNetwork tokenAddress : string)
    (amount : Z) : Z :=
  let fallbackFee := Z.quot (amount * 5) 1000 in
  if bridges_socket_enabled cfg then
    match socket_estimateFees sourceNetwork destinationNetwork tokenAddress amount with
    | Ok fees => fees
    | Throw _ =>
        if bridges_across_enabled cfg then
          getAcrossFees sourceNetwork destinationNetwork tokenAddress amount
        else fallbackFee
    end
  else if bridges_across_enabled cfg then
    getAcrossFees sourceNetwork destinationNetwork tokenAddress amount
  else fallbackFee.

End BridgeFees.

Definition bridgingTimes_connext : JsObject (JsObject JS.number) :=
  [ ("ethereum", [ ("arbitrum", JS.ofZ 15); ("optimism", JS.ofZ 15);
                   ("polygon", JS.ofZ 20); ("base", JS.ofZ 15) ]);
    ("arbitrum", [ ("ethereum", JS.ofZ 15); ("optimism", JS.ofZ 30);
                   ("polygon", JS.ofZ 30); ("base", JS.ofZ 30) ]);
    ("optimism", [ ("ethereum", JS.ofZ 15); ("arbitrum", JS.ofZ 30);
                   ("polygon", JS.ofZ 30); ("base", JS.ofZ 30) ]);
    ("polygon", [ ("ethereum", JS.ofZ 20); ("arbitrum", JS.ofZ 30);
                  ("optimism", JS.ofZ 30); ("base", JS.ofZ 30) ]);
    ("base", [ ("ethereum", JS.ofZ 15); ("arbitrum", JS.ofZ 30);
               ("optimism", JS.ofZ 30); ("polygon", JS.ofZ 30) ]) ].

Definition bridgingTimes_across : JsObject (JsObject JS.number) :=
  [ ("ethereum", [ ("arbitrum", JS.ofZ 10); ("optimism", JS.ofZ 10);
                   ("polygon", JS.ofZ 15); ("base", JS.ofZ 10) ]);
    ("arbitrum", [ ("ethereum", JS.ofZ 10); ("optimism", JS.ofZ 20);
                   ("polygon", JS.ofZ 20); ("base", JS.ofZ 20) ]);
    ("optimism", [ ("ethereum", JS.ofZ 10); ("arbitrum", JS.ofZ 20);
                   ("polygon", JS.ofZ 20); ("base", JS.ofZ 20) ]);
    ("polygon", [ ("ethereum", JS.ofZ 15); ("arbitrum", JS.ofZ 20);
                  ("optimism", JS.ofZ 20); ("base", JS.ofZ 20) ]);
    ("base", [ ("ethereum", JS.ofZ 10); ("arbitrum", JS.ofZ 20);
               ("optimism", JS.ofZ 20); ("polygon", JS.ofZ 20) ]) ].

(** [table[sourceNetwork]?.[destinationNetwork]] *)
Definition bridgingTime_of (table : JsObject (JsObject JS.number))
    (sourceNetwork destinationNetwork : string) : option JS.number :=
  match obj_get sourceNetwork table with
  | Some row => obj_get destinationNetwork row
  | None => None
  end.

(** One of the two [if] blocks of [getBridgingTime]. *)
Definition faster (enabled : bool) (time : option JS.number) (fastestTime : JS.number)
    : JS.number :=
  if enabled then
    match time with
    | Some t => if number_truthy t then JS.Math_min fastestTime t else fastestTime
    | None => fastestTime
    end
  else fastestTime.

(** [getBridgingTime]; [bridges_connext] is the [enabled] flag of
    [config.bridges.connext], [None] when the configuration has no such
    entry, in which case reading the flag throws a [TypeError]. *)
Definition getBridgingTime (cfg : Config) (bridges_connext : option bool)
    (sourceNetwork destinationNetwork : string) : result JS.number :=
  let fastestTime := Number_MAX_VALUE in
  match bridges_connext with
  | None => Throw "Cannot read properties of undefined (reading 'enabled')"
  | Some connext_enabled =>
      let fastestTime :=
        faster connext_enabled
          (bridgingTime_of bridgingTimes_connext sourceNetwork destinationNetwork)
          fastestTime in
      let fastestTime :=
        faster (bridges_across_enabled cfg)
          (bridgingTime_of bridgingTimes_across sourceNetwork destinationNetwork)
          fastestTime in
      Ok (if number_strict_ne fastestTime Number_MAX_VALUE then fastestTime
          else JS.ofZ 30)
  end.

(** [config.bridges] of config/config.js has the entries [across] and
    [socket] only. *)
Definition config_bridges_connext : option bool := None.

(** ** exchanges/connectors.js and exchanges/swapper.js *)

Record Quote := {
  quote_exchange : string;
  quote_fromToken : string;
  quote_toToken : string;
  quote_inputAmount : Z;
  quote_outputAmount : Z;
  quote_fee : Z
}.

(** One iteration of the fee-tier loop of [UniswapConnector.getQuote]:
    [answer] is what [router.quoteExactInputSingle] gave for [fee]. *)
Definition better_tier (best : Z * Z) (fee : Z) (answer : result Z) : Z * Z :=
  match answer with
  | Ok amountOut => if fst best <? amountOut then (amountOut, fee) else best
  | Throw _ => best
  end.

(** [UniswapConnector.getQuote]; [router_quoteExactInputSingle] is the
    router contract of the connector's network. *)
Definition UniswapConnector_getQuote
    (router_quoteExactInputSingle : string -> string -> Z -> Z -> result Z)
    (fromToken toToken : string) (amount : Z) : result Quote :=
  let feeTiers := [500; 3000; 10000] in
  let '(bestAmountOut, bestFeeTier) :=
    fold_left
      (fun best fee =>
         better_tier best fee
           (router_quoteExactInputSingle fromToken toToken fee amount))
      feeTiers (0, 3000) in
  if bestAmountOut =? 0 then
    Throw "No liquidity found on Uniswap for this token pair"
  else
    Ok {| quote_exchange := "Uniswap";
          quote_fromToken := fromToken;
          quote_toToken := toToken;
          quote_inputAmount := amount;
          quote_outputAmount := bestAmountOut;
          quote_fee := bestFeeTier |}.

Section Swapper.

Variable cfg : Config.
(** [config.exchanges]: the [enabled] flag of each exchange. *)
Variable exchanges : JsObject bool.
(** External collaborators, per exchange and network: the connector's
    quote ([None] when [isSupported()] is false; building the connector
    may throw), what its [executeSwap] does up to the submission of the
    swap, and the gas the provider estimates for its unsigned swap
    transaction. *)
Variable connector_getQuote :
  string -> string -> string -> string -> Z -> result (option Quote).
Variable connector_submitSwap :
  string -> string -> string -> string -> Z -> Z -> Z -> result string.
Variable connector_estimateGas :
  string -> string -> string -> string -> Z -> Z -> Z -> result Z.
Variable web3Utils_getOptimizedGasPrice : string -> GasSettings.

(** [quotes.reduce((best, current) =>
       current.outputAmount.gt(best.outputAmount) ? current : best)] *)
Definition best_of (first : Quote) (others : list Quote) : Quote :=
  fold_left
    (fun best current =>
       if quote_outputAmount best <? quote_outputAmount current then current else best)
    others first.

(** The quotes the loop over the enabled exchanges collects. *)
Definition collect_quotes (network quoteFromToken quoteToToken : string)
    (amount : Z) : list Quote :=
  let enabledExchanges := map fst (List.filter snd exchanges) in
  fold_left
    (fun quotes exchange =>
       match connector_getQuote exchange network quoteFromToken quoteToToken
               amount with
       | Ok (Some quote) => (quotes ++ [quote])%list
       | Ok None => quotes
       | Throw _ => quotes
       end)
    enabledExchanges [].

(** [getBestQuote]. The module does not bind [tokens], which the wrapped
    ETH address is read from when [fromToken] is the zero address:
    evaluating it throws a [ReferenceError]. *)
Definition getBestQuote (network fromToken toToken : string) (amount : Z)
    : result Quote :=
  if String.eqb fromToken AddressZero then Throw "tokens is not defined"
  else
    let wethAddress := fromToken in
    let quoteFromToken := fromToken in
    let quoteToToken :=
      if String.eqb toToken AddressZero then wethAddress else toToken in
    match collect_quotes network quoteFromToken quoteToToken amount with
    | [] => Throw "No quotes available from any exchange"
    | first :: others => Ok (best_of first others)
    end.

(** [swapper.executeSwap] up to the submission of the swap; the
    confirmation that follows is [swapper_executeSwap] above. *)
Definition executeSwap_submit (network fromToken toToken : string) (amount : Z)
    (maxSlippage : JS.number) : result string :=
  bestQuote ← getBestQuote network fromToken toToken amount;
  let slippageBps := Math_floor (JS.mul maxSlippage (JS.ofZ 100)) in
  factor ← BigNumber_from_number (JS.sub (JS.ofZ 10000) slippageBps);
  let minOutputAmount := Z.quot (quote_outputAmount bestQuote * factor) 10000 in
  connector_submitSwap (toLowerCase (quote_exchange bestQuote)) network
    fromToken toToken amount minOutputAmount (quote_fee bestQuote).

(** The default estimate of [estimateSwapGasCost]'s [catch]. *)
Definition default_gas_estimate : GasEstimate :=
  {| gasEstimate := gas_gasLimit cfg;
     gasCost := gas_gasLimit cfg * gas_maxFeePerGas cfg;
     gasCostEth := JS.formatEther (gas_gasLimit cfg * gas_maxFeePerGas cfg) |}.

Definition estimateSwapGasCost (network fromToken toToken : string) (amount : Z)
    : GasEstimate :=
  match
    (bestQuote ← getBestQuote network fromToken toToken amount;
     let minOutputAmount :=
       Z.quot (quote_outputAmount bestQuote * (10000 - 50)) 10000 in
     gasEstimate ← connector_estimateGas (toLowerCase (quote_exchange bestQuote))
                      network fromToken toToken amount minOutputAmount
                      (quote_fee bestQuote);
     let gasSettings := web3Utils_getOptimizedGasPrice network in
     gasCost ← match gs_maxFeePerGas gasSettings with
               | Some maxFeePerGas => Ok (gasEstimate * maxFeePerGas)
               | None =>
                   match gs_gasPrice gasSettings with
                   | Some gasPrice => Ok (gasEstimate * gasPrice)
                   | None => Throw "invalid BigNumber value"
                   end
               end;
     Ok {| gasEstimate := gasEstimate;
           gasCost := gasCost;
           gasCostEth := JS.formatEther gasCost |})
  with
  | Ok estimate => estimate
  | Throw _ => default_gas_estimate
  end.

End Swapper.

(** ** More sample collaborators *)

Module Fixture.

(** A Socket contract and an Across API that cannot be reached. *)
Definition socket_down (source destination tokenAddr : string) (amount : Z)
    : result Z :=
  Throw "call revert exception".

Definition across_down (source destination tokenAddr : string) (amount : Z)
    : result Z :=
  Throw "Request failed with status code 500".

(** A wallet on ethereum and arbitrum only, holding 10 ETH at the first
    balance reading and 10.02 ETH at the later ones. *)
Definition wallets : JsObject string :=
  [ ("ethereum", "0x70997970C51812dc3A010C7d01b50e0d17dc79C8");
    ("arbitrum", "0x70997970C51812dc3A010C7d01b50e0d17dc79C8") ].

Definition getBalance (reading : nat) (network : string) : result Z :=
  match reading with
  | O => Ok 10000000000000000000
  | S _ => Ok 10020000000000000000
  end.

Definition checkWalletBalances (reading : nat) : result (JsObject Balance) :=
  Ok (checkWalletBalances config_enabledNetworks wallets (getBalance reading)).

(** The sample strategy turned around: buy on arbitrum, sell on optimism,
    where the wallet above has no account. *)
Definition strategy_optimism : Strategy :=
  Eval vm_compute in
    Sample.strategy_of
      (getBestArbitrageStrategy config Sample.estimateSwapGasCost
         Sample.getBridgeFee Sample.getBridgingTime
         (nth 1 (findArbitrageOpportunities config [Sample.stETH]
                   Sample.getTokenPrice Sample.estimateSwapGasCost
                   Sample.getBridgeFee) Sample.blank_opportunity)).

End Fixture.

(** ** More notions used to state the properties *)

(** Newest first: no trade is listed before a more recent one. *)
Definition newest_first_sorted (l : list Trade) : Prop :=
  forall (i j : nat) (a b : Trade),
    (i < j)%nat -> l !! i = Some a -> l !! j = Some b ->
    trade_timestamp b <= trade_timestamp a.

(** The trades the per-token breakdown of [getSummary] counts for a token:
    those that carry a [pnl]. *)
Definition counted_for_token (k : string) (t : Trade) : bool :=
  match trade_pnl t with
  | Some _ => String.eqb (trade_token t) k
  | None => false
  end.

(** The balance the constructor restores from a PnL history. *)
Definition last_balance (history : list PnlPoint) (initialBalance : JS.number)
    : JS.number :=
  match last history with
  | Some p => point_balance p
  | None => initialBalance
  end.

(** A list in which every trade is at least as recent as all the trades
    after it. *)
Fixpoint descending (l : list Trade) : Prop :=
  match l with
  | [] => True
  | x :: r => Forall (fun y => trade_timestamp y <= trade_timestamp x) r /\ descending r
  end.

(** The counters of [botState] add up, and the bot counts no more
    successful trades than its ledger holds. *)
Definition counters_consistent (b : Bot) : Prop :=
  let st := botState b in
  tradesExecuted st = tradesSuccessful st + tradesFailed st
  /\ 0 <= tradesSuccessful st
  /\ 0 <= tradesFailed st
  /\ tradesSuccessful st
     <= Z.of_nat (length (List.filter
                            (fun t => String.eqb (trade_status t) "success")
                            (ledger_trades (pnlTracker b)))).
(** * Properties *)

(** ** Facts about the comparison of numbers *)

Lemma SFcompare_refl (x : spec_float) :
  x <> S754_nan -> SFcompare x x = Some Eq.
Proof.
  destruct x as [s | s | | s m e]; simpl; try congruence; intros _.
  - destruct s; reflexivity.
  - destruct s; rewrite Z.compare_refl, Pos.compare_cont_refl; reflexivity.
Qed.

Lemma SFltb_irrefl (x : spec_float) : SFltb x x = false.
Proof.
  unfold SFltb. destruct x as [s | s | | s m e]; try reflexivity.
  - destruct s; reflexivity.
  - rewrite SFcompare_refl by discriminate. reflexivity.
Qed.

Lemma Math_min_not_above (x c : JS.number) : JS.gt (JS.Math_min x c) c = false.
Proof.
  unfold JS.gt, JS.Math_min.
  destruct x as [sx | sx | | sx mx ex] eqn:Hx;
    destruct c as [sc | sc | | sc mc ec] eqn:Hc; try reflexivity;
    try (match goal with
         | |- SFltb ?c (if SFltb ?c ?x then _ else _) = false =>
             destruct (SFltb c x) eqn:Hlt; [apply SFltb_irrefl | exact Hlt]
         end).
Qed.

Lemma SFcompare_antisym (x y : spec_float) :
  SFcompare y x = option_map CompOpp (SFcompare x y).
Proof.
  destruct x as [sx | sx | | sx mx ex], y as [sy | sy | | sy my ey];
    try reflexivity; try (destruct sx; reflexivity); try (destruct sy; reflexivity);
    try (destruct sx, sy; reflexivity).
  destruct sx, sy; simpl; try reflexivity.
  - rewrite (Z.compare_antisym ey ex).
    destruct (ey ?= ex); simpl; try reflexivity.
    rewrite (Pos.compare_cont_antisym mx my Eq). simpl. reflexivity.
  - rewrite (Z.compare_antisym ey ex).
    destruct (ey ?= ex); simpl; try reflexivity.
    rewrite (Pos.compare_cont_antisym mx my Eq). simpl. reflexivity.
Qed.

Lemma SFcompare_Eq_finite s1 m1 e1 s2 m2 e2 :
  SFcompare (S754_finite s1 m1 e1) (S754_finite s2 m2 e2) = Some Eq ->
  s1 = s2 /\ m1 = m2 /\ e1 = e2.
Proof.
  simpl. destruct s1, s2; try discriminate;
    destruct (e1 ?= e2) eqn:He; try discriminate;
    apply Z.compare_eq in He; intros H; injection H as H.
  - destruct (Pos.compare_cont Eq m1 m2) eqn:Hm; try discriminate.
    apply Pos.compare_eq in Hm. auto.
  - apply Pos.compare_eq in H. auto.
Qed.

Lemma sub_diag_finite s m e :
  JS.sub (S754_finite s m e) (S754_finite s m e) = S754_zero false.
Proof. unfold JS.sub, SFsub. rewrite Z.sub_diag. reflexivity. Qed.

Lemma ofZ_100 : JS.ofZ 100 = S754_finite false 7036874417766400 (-46).
Proof. vm_compute. reflexivity. Qed.

Lemma le_positive_zero thr b :
  JS.gt thr (JS.ofZ 0) = true -> JS.ge (S754_zero b) thr = false.
Proof.
  unfold JS.gt, JS.ge, SFltb, SFleb.
  destruct thr as [s | s | | s m e]; simpl; try discriminate; destruct s; simpl;
    try discriminate; reflexivity.
Qed.

Lemma ge_nan thr : JS.ge S754_nan thr = false.
Proof. unfold JS.ge, SFleb. destruct thr; reflexivity. Qed.

(** A relative spread that reaches a positive threshold separates the two
    prices: one is strictly below the other. *)
Lemma spread_separates (s t thr : JS.number) :
  JS.gt thr (JS.ofZ 0) = true ->
  JS.ge (JS.Math_abs (JS.mul (JS.div (JS.sub t s) s) (JS.ofZ 100))) thr = true ->
  JS.lt s t = false -> JS.lt t s = true.
Proof.
  intros Hthr Hge Hst.
  destruct (JS.lt t s) eqn:Hts; [reflexivity | exfalso].
  unfold JS.lt, SFltb in Hst, Hts.
  rewrite (SFcompare_antisym s t) in Hts.
  destruct (SFcompare s t) as [[]|] eqn:Hc; simpl in Hts; try discriminate.
  - (* equal prices *)
    rewrite ofZ_100 in Hge.
    destruct s as [ss | ss | | ss ms es], t as [st | st | | st mt et];
      try (destruct ss; discriminate Hc); try (destruct st; discriminate Hc);
      try discriminate Hc.
    + destruct ss, st; cbn in Hge; rewrite ge_nan in Hge; discriminate.
    + destruct ss, st; try discriminate Hc; cbn in Hge; rewrite ge_nan in Hge;
        discriminate.
    + apply SFcompare_Eq_finite in Hc as (-> & -> & ->).
      rewrite sub_diag_finite in Hge. cbn in Hge.
      rewrite le_positive_zero in Hge by assumption. discriminate.
  - (* a price is NaN *)
    assert (s = S754_nan \/ t = S754_nan) as [-> | ->].
    { destruct s as [ss | ss | | ss ms es], t as [st | st | | st mt et]; auto;
        simpl in Hc; try discriminate; destruct ss; try discriminate;
        try destruct st; discriminate. }
    + replace (JS.sub t S754_nan) with S754_nan in Hge by (destruct t; reflexivity).
      cbn in Hge. rewrite ge_nan in Hge. discriminate.
    + cbn in Hge. rewrite ge_nan in Hge. discriminate.
Qed.

(** ** The recommended trade size *)

(** With a 1.54% spread, 0.00001 ETH of gas per swap and no bridge fees,
    the recommended size is about 0.065, under the 0.1 floor. *)
Lemma calculateOptimalTradeSize_below_floor :
  calculateOptimalTradeSize (JS.ofRatio 975 1000) (JS.ofRatio 990 1000)
    (10 ^ 13) (10 ^ 13) 0 0 = "0.06500000000000024"
  /\ JS.ge (JS.StringToNumber "0.06500000000000024") (JS.StringToNumber "0.1")
     = false.
Proof. split; vm_compute; reflexivity. Qed.

(** C6, as the code has it: [calculateOptimalTradeSize] is total (nothing
    reaches its [catch]); when the price-spread ratio is at most the
    bridge-fee ratio it returns the floor ["0.1"]; otherwise it returns the
    decimal form of [min(fixedCosts / (spread - feeRatio) * 50, 100)], a
    number that never exceeds the ceiling 100 and has no lower clamp. *)
Theorem calculateOptimalTradeSize_floor_and_cap
    (buyPrice sellPrice : JS.number)
    (gasCostBuy gasCostSell bridgeFee bridgeBackFee : Z) :
  let buyPriceEth := parseFloat_number buyPrice in
  let sellPriceEth := parseFloat_number sellPrice in
  let eth := fun wei => JS.parseFloat (JS.formatEther wei) in
  let fixedCosts := JS.add (JS.add (eth gasCostBuy) (eth gasCostSell)) (eth bridgeBackFee) in
  let bridgeFeeRatio := JS.div (eth bridgeFee) buyPriceEth in
  let priceDiffRatio := JS.sub (JS.div sellPriceEth buyPriceEth) (JS.ofZ 1) in
  let size := calculateOptimalTradeSize buyPrice sellPrice gasCostBuy gasCostSell
                bridgeFee bridgeBackFee in
  if JS.le priceDiffRatio bridgeFeeRatio then size = "0.1"
  else
    exists capped : JS.number,
      capped = JS.Math_min
                 (JS.mul (JS.div fixedCosts (JS.sub priceDiffRatio bridgeFeeRatio))
                         (JS.ofZ 50))
                 (JS.ofZ 100)
      /\ size = JS.Number_toString capped
      /\ JS.gt capped (JS.ofZ 100) = false.
Proof.
  intros buyPriceEth sellPriceEth eth fixedCosts bridgeFeeRatio priceDiffRatio size.
  subst size. unfold calculateOptimalTradeSize.
  fold buyPriceEth sellPriceEth. 
  change (JS.parseFloat (JS.formatEther gasCostBuy)) with (eth gasCostBuy).
  change (JS.parseFloat (JS.formatEther gasCostSell)) with (eth gasCostSell).
  change (JS.parseFloat (JS.formatEther bridgeFee)) with (eth bridgeFee).
  change (JS.parseFloat (JS.formatEther bridgeBackFee)) with (eth bridgeBackFee).
  fold fixedCosts bridgeFeeRatio priceDiffRatio.
  destruct (JS.le priceDiffRatio bridgeFeeRatio); [reflexivity|].
  eexists; split; [reflexivity|]. split; [reflexivity|].
  apply Math_min_not_above.
Qed.

(** ** Profitability analysis *)

Ltac bind_inv H :=
  repeat match type of H with
         | context [mbind _ ?r] =>
             let E := fresh "E" in
             destruct r eqn:E; cbn [mbind result_bind] in H; [| discriminate H]
         end.

Lemma calculateProfitability_body_net_profit cfg gas fee t buyNetwork sellNetwork
    buyPrice sellPrice budget addrBuy addrSell a :
  calculateProfitability_body cfg gas fee t buyNetwork sellNetwork buyPrice
    sellPrice budget addrBuy addrSell = Ok a ->
  exists maxExposureWei bridgeBack,
    JS.parseEther (Exposure_toString budget) = Ok maxExposureWei
    /\ fee sellNetwork buyNetwork AddressZero (expectedEthFromSellWei a) = Ok bridgeBack
    /\ totalCostsWei a
       = gasCost (estimatedGasCostBuy a) + gasCost (estimatedGasCostSell a) + bridgeBack
    /\ estimatedProfitWei a
       = expectedEthFromSellWei a - maxExposureWei
         - (gasCost (estimatedGasCostBuy a) + gasCost (estimatedGasCostSell a)
            + bridgeBack)
    /\ isProfitable a
       = (0 <? estimatedProfitWei a)
         && JS.ge (profitUsd_of a buyPrice) (minProfitThresholdUSD cfg).
Proof.
  intros H. unfold calculateProfitability_body in H.
  unfold mbind at 1 in H. unfold result_bind at 1 in H.
  destruct (JS.parseEther (Exposure_toString budget)) as [w|] eqn:Ew;
    [| discriminate H].
  bind_inv H.
  injection H as <-. cbn.
  exists w. eexists. repeat split; try eassumption; try reflexivity.
Qed.

Lemma BN_div_nonzero (a b : Z) : b <> 0 -> BN.div a b = Ok (Z.quot a b).
Proof. intros H. unfold BN.div. destruct (b =? 0) eqn:E; [lia | reflexivity]. Qed.

(** C1, as the code has it: for a token listed on both networks,
    [calculateProfitability] returns the full analysis whenever the two
    bridge-fee queries succeed and, besides, the budget, the slippage
    multiplier and the two prices convert to wei, the budget and the buy
    price are not zero and the ROI in basis points is a safe integer (a
    failing gas query is replaced by the default estimate). The budget in
    wei is [parseEther(String(maxExposureEth))]. The net profit of the
    analysis is exactly the expected proceeds minus that budget minus
    (buy gas + sell gas + return bridge fee), and the analysis is
    profitable iff that profit is positive and the fiat profit reaches
    [minProfitThresholdUSD]. *)
Theorem calculateProfitability_net_profit cfg gas fee t buyNetwork sellNetwork
    buyPrice sellPrice budget w slip pb ps fee1 fee2 :
  listed_on t buyNetwork -> listed_on t sellNetwork ->
  JS.parseEther (Exposure_toString budget) = Ok w ->
  JS.parseEther
    (JS.Number_toString
       (JS.div (JS.sub (JS.ofZ 100) (maxSlippagePercent cfg)) (JS.ofZ 100))) = Ok slip ->
  JS.parseEther (JS.Number_toString (priceInEth buyPrice)) = Ok pb ->
  JS.parseEther (JS.Number_toString (priceInEth sellPrice)) = Ok ps ->
  pb <> 0 -> w <> 0 ->
  let addrBuy := default "" (obj_get buyNetwork (addresses t)) in
  let addrSell := default "" (obj_get sellNetwork (addresses t)) in
  let bought := Z.quot (w * slip) pb in
  fee buyNetwork sellNetwork addrBuy bought = Ok fee1 ->
  let proceeds := Z.quot ((bought - fee1) * ps) JS.ether in
  fee sellNetwork buyNetwork AddressZero proceeds = Ok fee2 ->
  let gasBuy := estimateGasCost cfg gas buyNetwork AddressZero addrBuy w in
  let gasSell :=
    estimateGasCost cfg gas sellNetwork addrSell AddressZero (bought - fee1) in
  Z.abs (Z.quot ((proceeds - w - (gasCost gasBuy + gasCost gasSell + fee2)) * 10000) w)
  < 2 ^ 53 ->
  exists a,
    calculateProfitability cfg gas fee t buyNetwork sellNetwork buyPrice sellPrice
      budget = Analysis a
    /\ expectedEthFromSellWei a = proceeds
    /\ estimatedGasCostBuy a = gasBuy
    /\ estimatedGasCostSell a = gasSell
    /\ estimatedProfitWei a
       = expectedEthFromSellWei a - w
         - (gasCost (estimatedGasCostBuy a) + gasCost (estimatedGasCostSell a)
            + fee2)
    /\ (isProfitable a = true <->
        0 < estimatedProfitWei a
        /\ JS.ge (profitUsd_of a buyPrice) (minProfitThresholdUSD cfg) = true).
Proof.
  intros H1 H2 Hw Hslip Hpb Hps Hpb0 Hw0 addrBuy addrSell bought Hfee1 proceeds
    Hfee2 gasBuy gasSell Hroi.
  assert (Hbody : exists a,
            calculateProfitability_body cfg gas fee t buyNetwork sellNetwork
              buyPrice sellPrice budget addrBuy addrSell = Ok a
            /\ expectedEthFromSellWei a = proceeds
            /\ estimatedGasCostBuy a = gasBuy
            /\ estimatedGasCostSell a = gasSell).
  { unfold calculateProfitability_body.
    rewrite Hw. cbn [mbind result_bind]. rewrite Hslip. cbn [mbind result_bind].
    rewrite Hpb. cbn [mbind result_bind].
    rewrite (BN_div_nonzero (w * slip) pb Hpb0). cbn [mbind result_bind].
    fold bought. rewrite Hfee1. cbn [mbind result_bind].
    rewrite Hps. cbn [mbind result_bind].
    change (JS.parseEther "1") with (Ok JS.ether). cbn [mbind result_bind].
    rewrite (BN_div_nonzero _ JS.ether) by discriminate. cbn [mbind result_bind].
    fold proceeds. rewrite Hfee2. cbn [mbind result_bind].
    rewrite (BN_div_nonzero _ w Hw0). cbn [mbind result_bind].
    fold gasBuy gasSell. unfold BN.toNumber.
    replace (Z.abs (Z.quot ((proceeds - w
                             - (gasCost gasBuy + gasCost gasSell + fee2)) * 10000) w)
             <? 2 ^ 53) with true
      by (symmetry; apply Z.ltb_lt; exact Hroi).
    cbn [mbind result_bind]. eexists. split; [reflexivity |].
    cbn [expectedEthFromSellWei estimatedGasCostBuy estimatedGasCostSell].
    repeat split. }
  destruct Hbody as (a & Hbody & Hproceeds & Hg1 & Hg2).
  exists a. split.
  { unfold listed_on in H1, H2. unfold calculateProfitability. rewrite H1, H2.
    cbn [negb orb]. fold addrBuy addrSell. now rewrite Hbody. }
  destruct (calculateProfitability_body_net_profit _ _ _ _ _ _ _ _ _ _ _ _ Hbody)
    as (w' & back & Hw' & Hback & _ & Hprofit & Hflag).
  rewrite Hw in Hw'. injection Hw' as <-.
  rewrite Hproceeds, Hfee2 in Hback. injection Hback as <-.
  split; [exact Hproceeds |]. split; [exact Hg1 |]. split; [exact Hg2 |].
  split; [exact Hprofit |]. rewrite Hflag. split.
  - intros H. apply andb_prop in H as [Hpos Hge]. split; [lia | exact Hge].
  - intros [Hpos Hge]. rewrite Hge.
    replace (0 <? estimatedProfitWei a) with true by (symmetry; lia).
    reflexivity.
Qed.

Lemma calculateProfitability_net_profit_witness :
  listed_on Sample.stETH "arbitrum" /\ listed_on Sample.stETH "ethereum"
  /\ JS.parseEther (Exposure_toString (ExposureNumber (JS.ofZ 5)))
     = Ok 5000000000000000000
  /\ exists a,
       calculateProfitability config Sample.estimateSwapGasCost Sample.getBridgeFee
         Sample.stETH "arbitrum" "ethereum" (Sample.price 975) (Sample.price 990)
         (ExposureNumber (JS.ofZ 5)) = Analysis a
       /\ expectedEthFromSellWei a = 5026280769230769231
       /\ estimatedProfitWei a
          = expectedEthFromSellWei a - 5000000000000000000
            - (gasCost (estimatedGasCostBuy a) + gasCost (estimatedGasCostSell a)
               + 25131403846153846)
       /\ (isProfitable a = true <->
           0 < estimatedProfitWei a
           /\ JS.ge (profitUsd_of a (Sample.price 975))
                    (minProfitThresholdUSD config) = true).
Proof.
  split; [reflexivity | split; [reflexivity | split; [reflexivity |]]].
  destruct (calculateProfitability_net_profit config Sample.estimateSwapGasCost
              Sample.getBridgeFee Sample.stETH "arbitrum" "ethereum"
              (Sample.price 975) (Sample.price 990) (ExposureNumber (JS.ofZ 5))
              5000000000000000000 995000000000000000 975000000000000000
              990000000000000000 25512820512820512 25131403846153846)
    as (a & Hrun & Hproceeds & _ & _ & Hprofit & Hflag);
    [ reflexivity | reflexivity | vm_compute; reflexivity | vm_compute; reflexivity
    | vm_compute; reflexivity | vm_compute; reflexivity | discriminate | discriminate
    | vm_compute; reflexivity | vm_compute; reflexivity | vm_compute; reflexivity | ].
  exists a. split; [exact Hrun |]. split; [exact Hproceeds |].
  split; [exact Hprofit | exact Hflag].
Defined.

(** The premises on the conversions are needed: with adapters that answer
    every query, a buy price of zero makes the division by the buy price
    throw, and what is returned is the caught-exception object, not
    profitable and without any profit figure. *)
Lemma calculateProfitability_zero_buy_price :
  (forall network fromToken toToken amount,
      exists g, Sample.estimateSwapGasCost network fromToken toToken amount = Ok g)
  /\ (forall source destination tokenAddr amount,
         exists f, Sample.getBridgeFee source destination tokenAddr amount = Ok f)
  /\ listed_on Sample.stETH "arbitrum" /\ listed_on Sample.stETH "ethereum"
  /\ priceInEth (Sample.price 0) = JS.ofZ 0
  /\ exists msg,
       calculateProfitability config Sample.estimateSwapGasCost Sample.getBridgeFee
         Sample.stETH "arbitrum" "ethereum" (Sample.price 0) (Sample.price 990)
         (ExposureNumber (JS.ofZ 5)) = Rejected ("Error: " +:+ msg).
Proof.
  split; [intros; eexists; reflexivity |].
  split; [intros; eexists; reflexivity |].
  split; [reflexivity |]. split; [reflexivity |]. split; [reflexivity |].
  exists "division by zero". vm_compute. reflexivity.
Qed.

(** On the sample quotes the analysis is produced, and with the
    5 ETH budget it is the loss of 0.0078... ETH computed by hand. *)
Lemma calculateProfitability_sample :
  exists a,
    calculateProfitability config Sample.estimateSwapGasCost Sample.getBridgeFee
      Sample.stETH "arbitrum" "ethereum" (Sample.price 975) (Sample.price 990)
      (ExposureNumber (JS.ofZ 5)) = Analysis a
    /\ expectedEthFromSellWei a = 5026280769230769231
    /\ estimatedProfitWei a = -7850634615384615
    /\ isProfitable a = false.
Proof. eexists. split; [vm_compute; reflexivity | repeat split]. Qed.



(** ** Objects as maps *)

Lemma obj_set_keys {V} (k : string) (v : V) (o : JsObject V) :
  NoDup (obj_keys o) -> NoDup (obj_keys (obj_set k v o))
  /\ (forall k', In k' (obj_keys (obj_set k v o)) -> k' = k \/ In k' (obj_keys o)).
Proof.
  unfold obj_keys. induction o as [| [k0 v0] o IH]; simpl; intros Hnd.
  - split; [repeat constructor; apply not_elem_of_nil || auto | intros k' [<- | []]; auto].
  - apply NoDup_cons in Hnd as [Hk0 Hnd].
    destruct (String.eqb k k0) eqn:E; simpl.
    + split; [apply NoDup_cons; auto | intros k' [<- | H]; auto].
    + destruct (IH Hnd) as [IH1 IH2]. split.
      * apply NoDup_cons. split; [| exact IH1].
        rewrite list_elem_of_In. intros H. apply IH2 in H as [-> | H].
        -- rewrite String.eqb_refl in E. discriminate.
        -- apply Hk0. rewrite list_elem_of_In. exact H.
      * intros k' [<- | H]; auto. apply IH2 in H as [-> | H]; auto.
Qed.

Lemma obj_get_In {V} (k : string) (v : V) (o : JsObject V) :
  NoDup (obj_keys o) -> In (k, v) o -> obj_get k o = Some v.
Proof.
  unfold obj_keys. induction o as [| [k0 v0] o IH]; simpl; intros Hnd Hin; [easy |].
  apply NoDup_cons in Hnd as [Hk0 Hnd].
  destruct Hin as [[= -> ->] | Hin].
  - rewrite String.eqb_refl. reflexivity.
  - destruct (String.eqb k k0) eqn:E; [| auto].
    apply String.eqb_eq in E as ->. exfalso. apply Hk0.
    rewrite list_elem_of_In. apply (in_map fst _ _ Hin).
Qed.

Lemma index_pairs_In {A} (l : list A) (x y : A) :
  In (x, y) (index_pairs l) -> In x l /\ In y l.
Proof.
  induction l as [| a r IH]; simpl; [easy |].
  rewrite in_app_iff, in_map_iff. intros [(z & [= <- <-] & Hz) | H]; auto.
  apply IH in H as []; auto.
Qed.

Lemma index_pairs_distinct_keys {V} (o : JsObject V) (x y : string * V) :
  NoDup (obj_keys o) -> In (x, y) (index_pairs o) -> fst x <> fst y.
Proof.
  unfold obj_keys. induction o as [| a r IH]; simpl; [easy |].
  intros Hnd. apply NoDup_cons in Hnd as [Ha Hnd].
  rewrite in_app_iff, in_map_iff. intros [(z & [= <- <-] & Hz) | H]; [| auto].
  intros Heq. apply Ha. rewrite list_elem_of_In, Heq. apply (in_map fst _ _ Hz).
Qed.

Lemma getPricesAcrossChains_NoDup priceO (t : Token) :
  NoDup (obj_keys (getPricesAcrossChains priceO t)).
Proof.
  unfold getPricesAcrossChains.
  assert (forall ns acc, NoDup (obj_keys acc) ->
            NoDup (obj_keys (fold_left
              (fun prices network =>
                 if truthy (obj_get network (addresses t)) then
                   match priceO (default "" (obj_get network (addresses t))) network with
                   | Ok price => obj_set network price prices
                   | Throw _ => prices
                   end
                 else prices) ns acc))) as H.
  { induction ns as [| n ns IH]; simpl; intros acc Hacc; [exact Hacc |].
    apply IH. destruct (truthy _); [| exact Hacc].
    destruct (priceO _ _); [| exact Hacc]. apply obj_set_keys, Hacc. }
  apply H. constructor.
Qed.

(** ** The opportunity finder *)

Lemma examine_pair_sound cfg gasO feeO (t : Token) (prices : JsObject Price)
    (source target : string * Price) (o : Opportunity) :
  JS.gt (priceDeviationThreshold cfg) (JS.ofZ 0) = true ->
  NoDup (obj_keys prices) -> In source prices -> In target prices ->
  fst source <> fst target ->
  examine_pair cfg gasO feeO t prices source target = Some o ->
  token o = t
  /\ JS.ge (JS.Math_abs (priceDifference o)) (priceDeviationThreshold cfg) = true
  /\ isProfitable (profitability o) = true
  /\ ((buyNetwork o, buyPrice o) = source /\ (sellNetwork o, sellPrice o) = target
      \/ (buyNetwork o, buyPrice o) = target /\ (sellNetwork o, sellPrice o) = source)
  /\ JS.lt (priceInEth (buyPrice o)) (priceInEth (sellPrice o)) = true.
Proof.
  intros Hthr Hnd Hs Ht Hne. destruct source as [sn sp], target as [tn tp].
  simpl in Hne. unfold examine_pair.
  destruct (JS.ge _ (priceDeviationThreshold cfg)) eqn:Hge; [| discriminate].
  pose proof (obj_get_In sn sp prices Hnd Hs) as Hgs.
  pose proof (obj_get_In tn tp prices Hnd Ht) as Hgt.
  destruct (JS.lt (priceInEth sp) (priceInEth tp)) eqn:Hlt.
  - rewrite String.eqb_refl, Hgs, Hgt.
    destruct (calculateProfitability _ _ _ _ _ _ _ _ _) as [| a]; [discriminate |].
    destruct (isProfitable a) eqn:Hp; [| discriminate].
    intros [= <-]. simpl. repeat split; auto.
  - assert (String.eqb tn sn = false) as ->
        by (apply String.eqb_neq; congruence).
    rewrite Hgs, Hgt.
    destruct (calculateProfitability _ _ _ _ _ _ _ _ _) as [| a]; [discriminate |].
    destruct (isProfitable a) eqn:Hp; [| discriminate].
    intros [= <-]. simpl. repeat split; auto.
    eapply spread_separates; eassumption.
Qed.

(** C2: with a positive price-deviation threshold (0.5 as configured),
    every opportunity the finder returns has [|priceDifference|] at least
    the threshold and a profitable analysis; its buy and sell networks are
    two distinct networks quoted for its token, carrying their quotes, and
    the buy-side reference price is strictly below the sell-side one. *)
Theorem findArbitrageOpportunities_sound cfg lsdTokens priceO gasO feeO
    (o : Opportunity) :
  JS.gt (priceDeviationThreshold cfg) (JS.ofZ 0) = true ->
  In o (findArbitrageOpportunities cfg lsdTokens priceO gasO feeO) ->
  let prices := getPricesAcrossChains priceO (token o) in
  JS.ge (JS.Math_abs (priceDifference o)) (priceDeviationThreshold cfg) = true
  /\ isProfitable (profitability o) = true
  /\ buyNetwork o <> sellNetwork o
  /\ obj_get (buyNetwork o) prices = Some (buyPrice o)
  /\ obj_get (sellNetwork o) prices = Some (sellPrice o)
  /\ JS.lt (priceInEth (buyPrice o)) (priceInEth (sellPrice o)) = true.
Proof.
  intros Hthr Hin. unfold findArbitrageOpportunities in Hin.
  apply in_flat_map in Hin as (t & _ & Hin).
  unfold opportunities_of_token in Hin.
  apply list_elem_of_In, list_elem_of_omap in Hin as ([source target] & Hpair & Hex).
  apply list_elem_of_In in Hpair. simpl in Hex.
  pose proof (getPricesAcrossChains_NoDup priceO t) as Hnd.
  pose proof (index_pairs_In _ _ _ Hpair) as [Hs Ht].
  pose proof (index_pairs_distinct_keys _ _ _ Hnd Hpair) as Hne.
  destruct (examine_pair_sound _ _ _ _ _ _ _ _ Hthr Hnd Hs Ht Hne Hex)
    as (Htok & Hge & Hp & Hdir & Hlt).
  rewrite Htok. cbv zeta.
  repeat split; try assumption.
  - destruct Hdir as [[H1 H2] | [H1 H2]]; subst source target; simpl in Hne; congruence.
  - destruct Hdir as [[H1 H2] | [H1 H2]]; rewrite <- ?H1, <- ?H2 in *;
      apply obj_get_In; assumption.
  - destruct Hdir as [[H1 H2] | [H1 H2]]; rewrite <- ?H1, <- ?H2 in *;
      apply obj_get_In; assumption.
Qed.

Lemma findArbitrageOpportunities_sample :
  map (fun o => (buyNetwork o, sellNetwork o))
    (findArbitrageOpportunities config [Sample.stETH] Sample.getTokenPrice
       Sample.estimateSwapGasCost Sample.getBridgeFee)
  = [("arbitrum", "ethereum"); ("arbitrum", "optimism"); ("arbitrum", "base")].
Proof. vm_compute. reflexivity. Qed.

Lemma findArbitrageOpportunities_sound_witness :
  JS.gt (priceDeviationThreshold config) (JS.ofZ 0) = true
  /\ In Sample.opportunity
        (findArbitrageOpportunities config [Sample.stETH] Sample.getTokenPrice
           Sample.estimateSwapGasCost Sample.getBridgeFee)
  /\ buyNetwork Sample.opportunity <> sellNetwork Sample.opportunity
  /\ JS.lt (priceInEth (buyPrice Sample.opportunity))
           (priceInEth (sellPrice Sample.opportunity)) = true.
Proof.
  assert (H1 : JS.gt (priceDeviationThreshold config) (JS.ofZ 0) = true)
    by reflexivity.
  assert (H2 : In Sample.opportunity
                 (findArbitrageOpportunities config [Sample.stETH]
                    Sample.getTokenPrice Sample.estimateSwapGasCost
                    Sample.getBridgeFee))
    by (vm_compute; left; reflexivity).
  split; [exact H1 | split; [exact H2 |]].
  destruct (findArbitrageOpportunities_sound config [Sample.stETH]
              Sample.getTokenPrice Sample.estimateSwapGasCost Sample.getBridgeFee
              Sample.opportunity H1 H2) as (_ & _ & Hne & _ & _ & Hlt).
  split; assumption.
Defined.

(** ** The strategy builder *)

(** What [getBestArbitrageStrategy] commits: the trade size is the wei
    value of [min(maxExposurePerTrade, optimalTradeSize)] taken on numbers,
    and the flash-loan flag compares the two decimal strings as strings. *)
Lemma getBestArbitrageStrategy_commits cfg gasO feeO timeO (o : Opportunity)
    (s : Strategy) :
  getBestArbitrageStrategy cfg gasO feeO timeO o = Ok s ->
  JS.parseEther
    (JS.Number_toString
       (JS.Math_min (JS.StringToNumber (JS.formatEther (maxExposurePerTrade cfg)))
                    (JS.StringToNumber (optimalTradeSize (profitability o)))))
  = Ok (tradeSize s)
  /\ useFlashLoan s
     = flashLoanEnabled cfg
       && String.ltb (JS.formatEther (maxExposurePerTrade cfg))
                     (optimalTradeSize (profitability o)).
Proof.
  unfold getBestArbitrageStrategy. intros H.
  unfold mbind at 1 in H. unfold result_bind at 1 in H.
  destruct (JS.parseEther _) as [size |] eqn:Esize; [| discriminate H].
  bind_inv H. injection H as <-. split; reflexivity.
Qed.

(** C7 on the opportunity whose analysis recommends "100" (ETH), with
    flash loans enabled and a 5 ETH exposure cap: the recommended size
    exceeds the cap and the committed size is the cap, yet [useFlashLoan]
    is false, because "100" > "5.0" is decided on the strings. *)
Theorem getBestArbitrageStrategy_flash_loan_flag :
  getBestArbitrageStrategy config Sample.estimateGasLimit Sample.getFlatBridgeFee
    Sample.getBridgingTime Sample.opportunity100 = Ok Sample.strategy100
  /\ optimalTradeSize (profitability Sample.opportunity100) = "100"
  /\ flashLoanEnabled config = true
  /\ JS.gt (JS.StringToNumber "100")
           (JS.StringToNumber (JS.formatEther (maxExposurePerTrade config))) = true
  /\ tradeSize Sample.strategy100 = maxExposurePerTrade config
  /\ useFlashLoan Sample.strategy100 = false.
Proof. repeat split; vm_compute; reflexivity. Qed.

(** ** The execution engine: standard path *)



Section StandardPath.

Variable cfg : Config.
Variable checkWalletBalances : nat -> result (JsObject Balance).
Variable getSigner : string -> result string.
Variable executeSwap : string -> string -> string -> Z -> JS.number -> result SwapResult.
Variable bridgeTokens : string -> string -> string -> Z -> string -> result BridgeResult.
Variable strategy : Strategy.
Variable simulate : bool.

Hypothesis swap_reports_success :
  forall network fromToken toToken amount slippage r,
    executeSwap network fromToken toToken amount slippage = Ok r ->
    swap_status r = "success".
Hypothesis bridge_reports_success :
  forall source destination tokenAddr amount recipient r,
    bridgeTokens source destination tokenAddr amount recipient = Ok r ->
    bridge_status r = "success".




Lemma try_bridge_back_status r g :
  try_bridge_back getSigner bridgeTokens strategy simulate = Ok (r, g) ->
  bridge_status r = "success".
Proof.
  unfold try_bridge_back. intros H.
  unfold mbind at 1 in H. unfold result_bind at 1 in H.
  destruct (getSigner _) as [recipient |]; [| discriminate H].
  destruct simulate.
  - cbn in H. injection H as <- <-. reflexivity.
  - unfold mbind at 1 in H. unfold result_bind at 1 in H.
    destruct (bridgeTokens _ _ _ _ _) as [r' |] eqn:E; [| discriminate H].
    bind_inv H. injection H as <- <-. eapply bridge_reports_success, E.
Qed.


End StandardPath.






(** A simulated run completes its four steps; with the sample balances
    the net profit is 0.02 ETH. *)
Lemma executeArbitrageStrategy_simulated :
  let e := executeArbitrageStrategy config Sample.checkWalletBalances
             Sample.getSigner Sample.executeSwap Sample.bridgeTokens
             Sample.strategy true in
  exec_status e = "success"
  /\ option_map (map step_status) (exec_steps e)
     = Some ["success"; "success"; "success"; "success"]
  /\ option_map netProfitEth (exec_pnl e) = Some "0.02".
Proof. vm_compute. repeat split. Qed.

(** In live mode the last step asks [bridgeTokens] to bridge ETH, the zero
    address, which is no configured token: the check that opens
    [bridgeTokens] throws, and the run halts at step 4 after three
    confirmed steps. *)
Lemma executeArbitrageStrategy_live_bridge_back :
  let e := executeArbitrageStrategy config Sample.checkWalletBalances
             Sample.getSigner Sample.executeSwap Sample.bridgeTokens
             Sample.strategy false in
  exec_status e = "failed"
  /\ exec_error e
     = Some ("Failed at step 4: Token " +:+ AddressZero +:+ " not supported on arbitrum")
  /\ option_map (map step_status) (exec_steps e)
     = Some ["success"; "success"; "success"; "failed"].
Proof. vm_compute. repeat split. Qed.

(** ** The execution engine: flash-loan path *)

Lemma canRepayFlashLoan_spec (principal proceeds : Z) :
  canRepayFlashLoan principal proceeds = true
  <-> principal + calculateFlashLoanFee principal <= proceeds.
Proof. unfold canRepayFlashLoan, calculateFlashLoanFee. lia. Qed.

Lemma flashLoanCallback_steps cfg executeSwap strategy simulate addr tokenAddress
    amount (s : Step) :
  In s (fst (flashLoanCallback cfg executeSwap strategy simulate addr tokenAddress
               amount [])) ->
  step_action s = "Buy LSD with flash loan" \/ step_action s = "Atomic Swap".
Proof.
  unfold flashLoanCallback.
  destruct (if simulate then _ else _) as [r | msg]; cbn.
  - destruct (canRepayFlashLoan _ _); cbn; intros [<- | [<- | []]]; auto.
  - intros [<- | []]. auto.
Qed.

Lemma flashLoanCallback_success cfg executeSwap strategy simulate addr tokenAddress
    amount steps :
  cb_success (snd (flashLoanCallback cfg executeSwap strategy simulate addr
                     tokenAddress amount steps)) = true ->
  canRepayFlashLoan amount
    (expectedEthFromSellWei (profitability (opportunity strategy))) = true.
Proof.
  unfold flashLoanCallback.
  destruct (if simulate then _ else _) as [r | msg]; cbn; [| discriminate].
  destruct (canRepayFlashLoan _ _); cbn; [reflexivity | discriminate].
Qed.

(** With the 5 ETH analysis the proceeds (about 5.05 ETH) do not cover the
    100 ETH principal and its fee, yet a simulated run, which never calls
    the callback, reports success. *)
Lemma executeFlashLoanArbitrage_simulated_success :
  JS.parseEther (optimalTradeSize (profitability (opportunity Sample.strategy5)))
  = Ok (100 * JS.ether)
  /\ expectedEthFromSellWei (profitability (opportunity Sample.strategy5))
     < 100 * JS.ether + calculateFlashLoanFee (100 * JS.ether)
  /\ exec_status (snd (executeFlashLoanArbitrage config Sample.executeSwap
                         Sample.flashLoan INACTIVE Sample.strategy5 true))
     = "success".
Proof. repeat split; vm_compute; reflexivity. Qed.

(** C5, as the code has it: the fee is [principal * 9 / 10000] in integer
    arithmetic; the callback reports success only if the expected proceeds
    cover principal plus fee; and in live mode, when they do not, the
    execution returned is failed and every step it records is the buy or
    the atomic swap (no repay step exists). *)
Theorem executeFlashLoanArbitrage_insufficient_repayment cfg executeSwap flashLoan
    (st : FlashLoanState) (strategy : Strategy) (principal : Z) :
  let p := profitability (opportunity strategy) in
  JS.parseEther (optimalTradeSize p) = Ok principal ->
  expectedEthFromSellWei p < principal + calculateFlashLoanFee principal ->
  let e := snd (executeFlashLoanArbitrage cfg executeSwap flashLoan st strategy false) in
  calculateFlashLoanFee principal = Z.quot (principal * 9) 10000
  /\ (forall simulate addr tokenAddress steps,
        cb_success (snd (flashLoanCallback cfg executeSwap strategy simulate addr
                           tokenAddress principal steps)) = false)
  /\ exec_status e = "failed"
  /\ (forall steps s, exec_steps e = Some steps -> In s steps ->
        step_action s = "Buy LSD with flash loan" \/ step_action s = "Atomic Swap").
Proof.
  intros p Hparse Hlow e.
  assert (Hcb : forall simulate addr tokenAddress steps,
             cb_success (snd (flashLoanCallback cfg executeSwap strategy simulate
                                addr tokenAddress principal steps)) = false).
  { intros simulate addr tokenAddress steps.
    destruct (cb_success _) eqn:E; [| reflexivity].
    apply flashLoanCallback_success, canRepayFlashLoan_spec in E. fold p in E. lia. }
  split; [reflexivity |]. split; [exact Hcb |].
  subst e. unfold executeFlashLoanArbitrage. fold p.
  destruct (flashLoanEnabled cfg) eqn:Hen; cbn [negb];
    [| split; [reflexivity | intros steps s [=]]].
  rewrite Hparse. unfold executeFlashLoan. rewrite Hen. cbn [negb].
  destruct (FlashLoanState_eqb st INACTIVE); cbn [negb];
    [| split; [reflexivity | intros steps s [=]]].
  destruct (flashLoan _ _ _) as [[hash receipt] |];
    [| split; [reflexivity | intros steps s [=]]].
  destruct (flashLoanCallback cfg executeSwap strategy false _ _ principal [])
    as [steps cb] eqn:Ecb.
  pose proof (Hcb false
                (default "" (obj_get (buyNetwork (opportunity strategy))
                               (addresses (token (opportunity strategy)))))
                AddressZero []) as Hfalse.
  rewrite Ecb in Hfalse. cbn in Hfalse.
  cbn. rewrite Hfalse. split; [reflexivity |].
  intros steps' s [= <-] Hin.
  eapply flashLoanCallback_steps. rewrite Ecb. exact Hin.
Qed.

Lemma executeFlashLoanArbitrage_insufficient_repayment_witness :
  let e := snd (executeFlashLoanArbitrage config Sample.executeSwap
                  Sample.flashLoan INACTIVE Sample.strategy5 false) in
  calculateFlashLoanFee (100 * JS.ether) = Z.quot (100 * JS.ether * 9) 10000
  /\ (forall simulate addr tokenAddress steps,
        cb_success (snd (flashLoanCallback config Sample.executeSwap
                           Sample.strategy5 simulate addr tokenAddress
                           (100 * JS.ether) steps)) = false)
  /\ exec_status e = "failed"
  /\ (forall steps s, exec_steps e = Some steps -> In s steps ->
        step_action s = "Buy LSD with flash loan" \/ step_action s = "Atomic Swap").
Proof.
  apply (executeFlashLoanArbitrage_insufficient_repayment config Sample.executeSwap
           Sample.flashLoan INACTIVE Sample.strategy5 (100 * JS.ether)).
  - vm_compute. reflexivity.
  - vm_compute. reflexivity.
Defined.

Lemma executeFlashLoanArbitrage_scenario_E :
  let e := snd (executeFlashLoanArbitrage config Sample.executeSwap
                  Sample.flashLoan INACTIVE Sample.strategy5 false) in
  exec_status e = "failed"
  /\ exec_error e = Some "Cannot repay flash loan - arbitrage not profitable enough"
  /\ option_map (map step_action) (exec_steps e)
     = Some ["Buy LSD with flash loan"; "Atomic Swap"].
Proof. vm_compute. repeat split. Qed.

(** ** The PnL ledger *)

Lemma Array_read_insert_eq (h : heap) (l : loc) (x : list Trade) :
  Array_read (<[l := x]> h) l = x.
Proof. unfold Array_read. rewrite lookup_insert_eq. reflexivity. Qed.

Lemma Array_read_insert_ne (h : heap) (l l' : loc) (x : list Trade) :
  l <> l' -> Array_read (<[l := x]> h) l' = Array_read h l'.
Proof. intros H. unfold Array_read. rewrite lookup_insert_ne by exact H. reflexivity. Qed.

Lemma fresh_not_allocated (h : heap) (l : loc) :
  is_Some (h !! l) -> fresh (dom h) <> l.
Proof.
  intros Hl Heq. apply elem_of_dom in Hl. rewrite <- Heq in Hl.
  exact (is_fresh (dom h) Hl).
Qed.

(** One call of [recordTrade]: the trade list grows by exactly the record
    returned, which carries the execution's status; the balance and the
    PnL history move only for a successful execution that has a [pnl]. *)
Lemma recordTrade_step (now : Z) (execution : Execution) (w : Ledger) :
  let w' := fst (recordTrade now execution w) in
  let trade := snd (recordTrade now execution w) in
  ledger_trades w' = (ledger_trades w ++ [trade])%list
  /\ trade_status trade = exec_status execution
  /\ trades (tracker w') = trades (tracker w)
  /\ initialBalanceETH (tracker w') = initialBalanceETH (tracker w)
  /\ (if advances_balance execution then
        currentBalanceETH (tracker w')
        = JS.add (currentBalanceETH (tracker w)) (recorded_profit execution)
        /\ exists point,
             pnlHistory (tracker w') = (pnlHistory (tracker w) ++ [point])%list
             /\ point_profit point = recorded_profit execution
             /\ point_balance point = currentBalanceETH (tracker w')
      else
        currentBalanceETH (tracker w') = currentBalanceETH (tracker w)
        /\ pnlHistory (tracker w') = pnlHistory (tracker w)).
Proof.
  unfold recordTrade, advances_balance, recorded_profit, ledger_trades, Array_push.
  destruct (String.eqb (exec_status execution) "success");
    destruct (exec_pnl execution) as [pnl |]; cbn;
    rewrite Array_read_insert_eq; repeat split; eauto.
Qed.

(** A successful flash-loan execution carries a profit but no [pnl]:
    recording it appends a trade and leaves the balance and the PnL
    history as they were. *)
Lemma recordTrade_flash_loan_success :
  let execution := snd (executeFlashLoanArbitrage config Sample.executeSwap
                          Sample.flashLoan INACTIVE Sample.strategy100 false) in
  let w := PnLTracker_new ∅ (JS.ofZ 10) None None in
  let w' := fst (recordTrade 1700000000000 execution w) in
  exec_status execution = "success"
  /\ exec_profit execution = Some "5051538461538461438.370548461538461538"
  /\ length (ledger_trades w') = 1%nat
  /\ currentBalanceETH (tracker w') = currentBalanceETH (tracker w)
  /\ pnlHistory (tracker w') = pnlHistory (tracker w).
Proof. vm_compute. repeat split. Qed.

Lemma record_all_snoc (calls : list (Z * Execution)) (call : Z * Execution)
    (w : Ledger) :
  record_all (calls ++ [call]) w
  = fst (recordTrade (fst call) (snd call) (record_all calls w)).
Proof. unfold record_all. rewrite fold_left_app. reflexivity. Qed.

(** C4, as the code has it: on a ledger as the constructor builds it, fresh
    or loaded from saved data, after any sequence of [recordTrade] calls
    the trade list is the loaded trades followed by one record per call,
    in call order, numbered on from the loaded count and with the status
    of each execution, whatever that status is; the balance is the balance
    the constructor started from (that of the last loaded PnL-history
    point, the initial balance when there is none) plus, in call order,
    the net profit of every execution that is successful and carries a
    [pnl]; and the PnL history is the loaded history followed by one point
    per such execution. Every other execution, a successful one without
    [pnl] included, leaves both unchanged. *)
Theorem recordTrade_ledger (h : heap) (initialBalance : JS.number)
    (pnlData : option (list PnlPoint)) (tradesData : option (list Trade))
    (calls : list (Z * Execution)) :
  let loadedTrades := default [] tradesData in
  let loadedHistory := default [] pnlData in
  let w := record_all calls (PnLTracker_new h initialBalance pnlData tradesData) in
  (exists added,
      ledger_trades w = (loadedTrades ++ added)%list
      /\ map trade_status added = map (fun call => exec_status (snd call)) calls
      /\ map trade_id added
         = map (fun k => Z.of_nat (length loadedTrades + k)) (seq 1 (length calls)))
  /\ currentBalanceETH (tracker w)
     = fold_left
         (fun balance call =>
            if advances_balance (snd call)
            then JS.add balance (recorded_profit (snd call)) else balance)
         calls (last_balance loadedHistory initialBalance)
  /\ (exists points,
        pnlHistory (tracker w) = (loadedHistory ++ points)%list
        /\ map point_profit points
           = map (fun call => recorded_profit (snd call))
               (List.filter (fun call => advances_balance (snd call)) calls)).
Proof.
  intros loadedTrades loadedHistory.
  induction calls as [| call calls IH] using rev_ind.
  - cbv zeta. unfold record_all. cbn [fold_left List.filter map length seq].
    split; [| split].
    + exists []. rewrite app_nil_r. split; [| split; reflexivity].
      unfold PnLTracker_new, ledger_trades, Array_alloc, loadedTrades.
      destruct tradesData as [ts |]; cbn; now rewrite Array_read_insert_eq.
    + unfold PnLTracker_new, Array_alloc, last_balance, loadedHistory.
      destruct tradesData; reflexivity.
    + exists []. rewrite app_nil_r. split; [| reflexivity].
      unfold PnLTracker_new, Array_alloc, loadedHistory.
      destruct tradesData; reflexivity.
  - cbv zeta in IH |- *.
    destruct IH as ((added & Htrades & Hstatus & Hid) & Hbal & points & Hhist & Hprofit).
    rewrite record_all_snoc.
    set (w := record_all calls (PnLTracker_new h initialBalance pnlData tradesData))
      in *.
    destruct (recordTrade_step (fst call) (snd call) w)
      as (Hgrow & Hst & _ & _ & Hadv).
    cbv zeta in Hgrow, Hst, Hadv.
    split; [| split].
    + exists (added ++ [snd (recordTrade (fst call) (snd call) w)])%list.
      split; [rewrite Hgrow, Htrades; now rewrite <- app_assoc |].
      rewrite !map_app, Hstatus, Hid, length_app, seq_app, map_app.
      cbn [map length seq Nat.add]. rewrite Hst. split; [reflexivity |].
      f_equal. f_equal. unfold recordTrade.
      assert (Hlen : length (ledger_trades w)
                     = (length loadedTrades + length calls)%nat).
      { rewrite Htrades, length_app. f_equal.
        apply (f_equal length) in Hid. now rewrite !length_map, length_seq in Hid. }
      destruct (String.eqb _ _); [destruct (exec_pnl _) |]; cbn [snd trade_id];
        rewrite Hlen; lia.
    + rewrite fold_left_app. cbn [fold_left].
      destruct (advances_balance (snd call)).
      * destruct Hadv as [-> _]. now rewrite Hbal.
      * destruct Hadv as [-> _]. exact Hbal.
    + rewrite List.filter_app, map_app. cbn [List.filter].
      destruct (advances_balance (snd call)).
      * destruct Hadv as (_ & point & -> & Hp & _).
        exists (points ++ [point])%list. rewrite Hhist, <- app_assoc.
        split; [reflexivity |]. rewrite map_app, Hprofit. cbn [map].
        now rewrite Hp.
      * destruct Hadv as [_ ->]. exists points.
        split; [exact Hhist |]. cbn [map]. now rewrite app_nil_r.
Qed.

Lemma gt_keeps_nonnegative (acc x : JS.number) :
  JS.ge acc (JS.ofZ 0) = true -> JS.gt x acc = true -> JS.ge x (JS.ofZ 0) = true.
Proof.
  unfold JS.ge, JS.gt, SFleb, SFltb.
  destruct acc as [sa | sa | | sa ma ea], x as [sx | sx | | sx mx ex];
    cbn; try discriminate; try reflexivity;
    try destruct sa; try destruct sx; cbn; try discriminate; reflexivity.
Qed.

Lemma lt_keeps_nonpositive (acc x : JS.number) :
  JS.le acc (JS.ofZ 0) = true -> JS.lt x acc = true -> JS.le x (JS.ofZ 0) = true.
Proof.
  unfold JS.le, JS.lt, SFleb, SFltb.
  destruct acc as [sa | sa | | sa ma ea], x as [sx | sx | | sx mx ex];
    cbn; try discriminate; try reflexivity;
    try destruct sa; try destruct sx; cbn; try discriminate; reflexivity.
Qed.

Lemma totals_step_bounded (acc : Totals) (trade : Trade) :
  totals_bounded acc -> totals_bounded (totals_step acc trade).
Proof.
  intros [Hp Hl]. unfold totals_step, totals_bounded.
  destruct (trade_pnl trade) as [pnl |]; [| split; assumption]. cbn. split.
  - destruct (JS.gt _ (largestProfit acc)) eqn:E; [| exact Hp].
    eapply gt_keeps_nonnegative; eassumption.
  - destruct (JS.lt _ (largestLoss acc)) eqn:E; [| exact Hl].
    eapply lt_keeps_nonpositive; eassumption.
Qed.

Lemma fold_totals_bounded (ts : list Trade) (acc : Totals) :
  totals_bounded acc -> totals_bounded (fold_left totals_step ts acc).
Proof.
  revert acc. induction ts as [| t ts IH]; cbn; intros acc H; [exact H |].
  apply IH, totals_step_bounded, H.
Qed.

Lemma fold_totals_no_gain (ts : list Trade) (acc : Totals) :
  largestProfit acc = JS.ofZ 0 ->
  (forall t x, In t ts -> trade_profit t = Some x -> JS.gt x (JS.ofZ 0) = false) ->
  largestProfit (fold_left totals_step ts acc) = JS.ofZ 0.
Proof.
  revert acc. induction ts as [| t ts IH]; cbn; intros acc Hacc Hall; [exact Hacc |].
  apply IH; [| intros t' x Hin; apply Hall; right; exact Hin].
  unfold totals_step.
  pose proof (Hall t) as Ht. unfold trade_profit in Ht.
  destruct (trade_pnl t) as [pnl |]; [| exact Hacc]. cbn.
  rewrite Hacc, (Ht _ (or_introl eq_refl) eq_refl). reflexivity.
Qed.

Lemma fold_totals_no_loss (ts : list Trade) (acc : Totals) :
  largestLoss acc = JS.ofZ 0 ->
  (forall t x, In t ts -> trade_profit t = Some x -> JS.lt x (JS.ofZ 0) = false) ->
  largestLoss (fold_left totals_step ts acc) = JS.ofZ 0.
Proof.
  revert acc. induction ts as [| t ts IH]; cbn; intros acc Hacc Hall; [exact Hacc |].
  apply IH; [| intros t' x Hin; apply Hall; right; exact Hin].
  unfold totals_step.
  pose proof (Hall t) as Ht. unfold trade_profit in Ht.
  destruct (trade_pnl t) as [pnl |]; [| exact Hacc]. cbn.
  rewrite Hacc, (Ht _ (or_introl eq_refl) eq_refl). reflexivity.
Qed.

(** C9: [getSummary] reports the four-decimal rendering of a largest
    profit that is at least 0 and of a largest loss that is at most 0;
    when no recorded trade has a positive net profit the largest profit is
    reported as "0.0000", and when none has a negative one the largest
    loss is reported as "0.0000". *)
Theorem getSummary_largest_bounds (w : Ledger) :
  let t := summary_totals (ledger_trades w) in
  sum_largestProfit (getSummary w) = JS.Number_toFixed (largestProfit t) 4
  /\ sum_largestLoss (getSummary w) = JS.Number_toFixed (largestLoss t) 4
  /\ JS.ge (largestProfit t) (JS.ofZ 0) = true
  /\ JS.le (largestLoss t) (JS.ofZ 0) = true
  /\ ((forall trade x, In trade (ledger_trades w) -> trade_profit trade = Some x ->
         JS.gt x (JS.ofZ 0) = false) ->
      sum_largestProfit (getSummary w) = "0.0000")
  /\ ((forall trade x, In trade (ledger_trades w) -> trade_profit trade = Some x ->
         JS.lt x (JS.ofZ 0) = false) ->
      sum_largestLoss (getSummary w) = "0.0000").
Proof.
  intros t. subst t.
  assert (Hb : totals_bounded (summary_totals (ledger_trades w))).
  { apply fold_totals_bounded. split; reflexivity. }
  destruct Hb as [Hp Hl].
  split; [reflexivity |]. split; [reflexivity |].
  split; [exact Hp |]. split; [exact Hl |]. split.
  - intros Hall. cbn. unfold summary_totals.
    rewrite fold_totals_no_gain; [reflexivity | reflexivity | exact Hall].
  - intros Hall. cbn. unfold summary_totals.
    rewrite fold_totals_no_loss; [reflexivity | reflexivity | exact Hall].
Qed.

(** C10: on a ledger whose trade array is allocated, [getTradeHistory]
    leaves the tracker (balances, PnL history, the reference to the trade
    array) and the stored trade list as they were: it sorts and slices
    fresh arrays. Hence a second call with the same arguments returns a
    page with the same total, limit, offset and trades. *)
Theorem getTradeHistory_read_only (limit offset : Z) (w : Ledger) :
  is_Some (store w !! trades (tracker w)) ->
  let w1 := fst (getTradeHistory limit offset w) in
  let page1 := snd (getTradeHistory limit offset w) in
  let w2 := fst (getTradeHistory limit offset w1) in
  let page2 := snd (getTradeHistory limit offset w1) in
  tracker w1 = tracker w
  /\ ledger_trades w1 = ledger_trades w
  /\ is_Some (store w1 !! trades (tracker w1))
  /\ page_total page2 = page_total page1
  /\ page_limit page2 = page_limit page1
  /\ page_offset page2 = page_offset page1
  /\ Array_read (store w2) (page_trades page2)
     = Array_read (store w1) (page_trades page1)
  /\ Array_read (store w1) (page_trades page1)
     = list_slice offset (offset + limit)
         (stable_sort newer_first (ledger_trades w)).
Proof.
  intros Halloc.
  assert (Hcall : forall w0 : Ledger,
            is_Some (store w0 !! trades (tracker w0)) ->
            let w' := fst (getTradeHistory limit offset w0) in
            let page := snd (getTradeHistory limit offset w0) in
            tracker w' = tracker w0
            /\ ledger_trades w' = ledger_trades w0
            /\ is_Some (store w' !! trades (tracker w'))
            /\ page_total page
               = Z.of_nat (length (stable_sort newer_first (ledger_trades w0)))
            /\ page_limit page = limit /\ page_offset page = offset
            /\ Array_read (store w') (page_trades page)
               = list_slice offset (offset + limit)
                   (stable_sort newer_first (ledger_trades w0))).
  { intros w0 H0. unfold getTradeHistory, Array_spread, Array_sort, Array_slice,
      Array_alloc, ledger_trades. cbn.
    set (h := store w0) in *. set (l := trades (tracker w0)) in *.
    set (copy := fresh (dom h)).
    assert (Hcopy : copy <> l) by (apply fresh_not_allocated; exact H0).
    rewrite !Array_read_insert_eq.
    set (h2 := <[copy := stable_sort newer_first (Array_read h l)]>
                 (<[copy := Array_read h l]> h)).
    assert (H2 : is_Some (h2 !! l)).
    { unfold h2. rewrite !lookup_insert_ne by exact Hcopy. exact H0. }
    set (page := fresh (dom h2)).
    assert (Hpage : page <> l) by (apply fresh_not_allocated; exact H2).
    repeat split.
    - rewrite Array_read_insert_ne by exact Hpage. unfold h2.
      rewrite !Array_read_insert_ne by exact Hcopy. reflexivity.
    - rewrite lookup_insert_ne by exact Hpage. exact H2. }
  destruct (Hcall w Halloc) as (Ht1 & Hl1 & Ha1 & Htot1 & Hlim1 & Hoff1 & Hp1).
  destruct (Hcall _ Ha1) as (Ht2 & Hl2 & Ha2 & Htot2 & Hlim2 & Hoff2 & Hp2).
  cbv zeta in *.
  repeat split; try assumption; try congruence.
Qed.

Lemma getTradeHistory_read_only_witness :
  let w := record_all
             [ (1700000000000,
                executeArbitrageStrategy config Sample.checkWalletBalances
                  Sample.getSigner Sample.executeSwap Sample.bridgeTokens
                  Sample.strategy true);
               (1700000060000,
                executeArbitrageStrategy config Sample.checkWalletBalances
                  Sample.getSigner Sample.executeSwap Sample.bridgeTokens
                  Sample.strategy false) ]
             (PnLTracker_new ∅ (JS.ofZ 10) None None) in
  is_Some (store w !! trades (tracker w))
  /\ ledger_trades (fst (getTradeHistory 10 0 w)) = ledger_trades w
  /\ map trade_id (ledger_trades w) = [1; 2]
  /\ map trade_id (Array_read (store (fst (getTradeHistory 10 0 w)))
                     (page_trades (snd (getTradeHistory 10 0 w)))) = [2; 1].
Proof.
  intros w.
  assert (Halloc : is_Some (store w !! trades (tracker w)))
    by (vm_compute; eexists; reflexivity).
  split; [exact Halloc |].
  destruct (getTradeHistory_read_only 10 0 w Halloc)
    as (_ & Htrades & _ & _ & _ & _ & _ & _).
  split; [exact Htrades |].
  split; vm_compute; reflexivity.
Defined.

(** Every ledger the constructor and the methods produce keeps its trade
    array allocated. *)
Lemma PnLTracker_new_allocated (h : heap) (initialBalance : JS.number)
    (pnlData : option (list PnlPoint)) (tradesData : option (list Trade)) :
  let w := PnLTracker_new h initialBalance pnlData tradesData in
  is_Some (store w !! trades (tracker w)).
Proof.
  unfold PnLTracker_new, Array_alloc. destruct tradesData as [ts |]; cbn;
    rewrite lookup_insert_eq; eexists; reflexivity.
Qed.

Lemma recordTrade_allocated (now : Z) (execution : Execution) (w : Ledger) :
  let w' := fst (recordTrade now execution w) in
  is_Some (store w' !! trades (tracker w')).
Proof.
  unfold recordTrade, Array_push.
  destruct (String.eqb _ _); [destruct (exec_pnl execution) |]; cbn;
    rewrite lookup_insert_eq; eexists; reflexivity.
Qed.

Lemma reset_ledger (w : Ledger) :
  let w' := reset w in
  is_Some (store w' !! trades (tracker w'))
  /\ ledger_trades w' = []
  /\ pnlHistory (tracker w') = []
  /\ currentBalanceETH (tracker w') = initialBalanceETH (tracker w).
Proof.
  unfold reset, ledger_trades, Array_alloc. cbn.
  rewrite Array_read_insert_eq, lookup_insert_eq. repeat split. eexists; reflexivity.
Qed.

(** The summary of a ledger holding one winning simulated trade and one
    failed live trade. *)
Lemma getSummary_sample :
  let w := record_all
             [ (1700000000000,
                executeArbitrageStrategy config Sample.checkWalletBalances
                  Sample.getSigner Sample.executeSwap Sample.bridgeTokens
                  Sample.strategy true);
               (1700000060000,
                executeArbitrageStrategy config Sample.checkWalletBalances
                  Sample.getSigner Sample.executeSwap Sample.bridgeTokens
                  Sample.strategy false) ]
             (PnLTracker_new ∅ (JS.ofZ 10) None None) in
  let s := getSummary w in
  sum_totalTrades s = 2 /\ sum_successfulTrades s = 1 /\ sum_failedTrades s = 1
  /\ JS.Number_toString (sum_currentBalance s) = "10.02"
  /\ sum_winRate s = "50.00%"
  /\ sum_largestProfit s = "0.0200" /\ sum_largestLoss s = "0.0000".
Proof. vm_compute. repeat split. Qed.

(** ** The bot: one trade at a time *)

Lemma executeArbitrage_call_refused (o : Opportunity) (b : Bot) :
  is_Some (activeTrade (botState b)) -> executeArbitrage_call o b = b.
Proof. intros [a Ha]. unfold executeArbitrage_call. rewrite Ha. reflexivity. Qed.

Lemma scanForOpportunities_call_skipped (b : Bot) :
  is_Some (activeTrade (botState b)) -> scanForOpportunities_call b = b.
Proof. intros [a Ha]. unfold scanForOpportunities_call. rewrite Ha. reflexivity. Qed.

Lemma executeArbitrage_call_single_flight (o : Opportunity) (b : Bot) :
  single_flight b -> single_flight (executeArbitrage_call o b).
Proof.
  intros Hinv. unfold executeArbitrage_call.
  destruct (activeTrade (botState b)) as [a |] eqn:Ha; [exact Hinv |].
  destruct Hinv as [Hle Hact].
  assert (Hzero : (length (executing b) + timers b = 0)%nat).
  { destruct (length (executing b) + timers b)%nat eqn:E; [reflexivity |].
    destruct Hact as [x Hx]; [lia | rewrite Ha in Hx; discriminate]. }
  unfold single_flight. cbn. rewrite length_app. cbn.
  split; [lia | intros _; eexists; reflexivity].
Qed.

Lemma executeArbitrage_catch_single_flight (msg : string) (b : Bot) :
  (length (executing b) + timers b = 0)%nat ->
  single_flight (executeArbitrage_catch msg b).
Proof.
  intros Hzero. unfold executeArbitrage_catch, single_flight.
  destruct (activeTrade (botState b)) as [a |] eqn:Ha; cbn.
  - split; [lia | intros _; eexists; reflexivity].
  - split; [lia | intros H; lia].
Qed.

Lemma bot_step_single_flight (b b' : Bot) :
  single_flight b -> bot_step b b' -> single_flight b'.
Proof.
  intros Hinv Hstep. destruct Hstep as
    [b | b opportunities Hscan | b o | b i o r Htask | b i s now execution Htask
     | b Htimer].
  - (* scanForOpportunities called *)
    unfold scanForOpportunities_call.
    destruct (activeTrade (botState b)) eqn:Ha; [exact Hinv |].
    destruct Hinv as [Hle Hact].
    rewrite Ha in Hact. unfold single_flight. cbn. split; assumption.
  - (* a scan resumes *)
    unfold scanForOpportunities_resume.
    destruct opportunities as [| o rest]; [exact Hinv |].
    destruct (autoExecute _); [| exact Hinv].
    destruct (stable_sort _ _) as [| top sorted]; [exact Hinv |].
    apply executeArbitrage_call_single_flight. exact Hinv.
  - apply executeArbitrage_call_single_flight. exact Hinv.
  - (* getBestArbitrageStrategy settles *)
    destruct Hinv as [Hle Hact].
    assert (Hlen : (0 < length (executing b))%nat)
      by (apply lookup_lt_Some in Htask; lia).
    unfold executeArbitrage_strategy. destruct r as [strategy | msg].
    + unfold single_flight. cbn. rewrite length_insert. split; assumption.
    + apply executeArbitrage_catch_single_flight. unfold remove_task. cbn.
      rewrite length_delete by (eexists; exact Htask). lia.
  - (* the executor returns *)
    destruct Hinv as [Hle Hact].
    assert (Hlen : (0 < length (executing b))%nat)
      by (apply lookup_lt_Some in Htask; lia).
    assert (Hzero : (length (delete i (executing b)) + timers b = 0)%nat)
      by (rewrite length_delete by (eexists; exact Htask); lia).
    unfold executeArbitrage_finish, executeArbitrage_catch, remove_task. cbn.
    destruct (activeTrade (botState b)) as [a |] eqn:Ha; cbn;
      [destruct (String.eqb (exec_status execution) "success"); cbn;
       [destruct (exec_pnl execution) as [pnl |]; cbn |] |];
      unfold single_flight; cbn; rewrite ?Ha; cbn;
      (split; [lia | first [intros _; eexists; reflexivity | intros H; lia]]).
  - (* the timer fires *)
    destruct Hinv as [Hle Hact]. unfold timer_fires, single_flight. cbn.
    split; [lia | intros H; lia].
Qed.

Lemma reachable_single_flight (auto : bool) (b : Bot) :
  reachable auto b -> single_flight b.
Proof.
  induction 1 as [| b b' _ IH Hstep].
  - unfold single_flight. cbn. split; [lia | intros H; lia].
  - eapply bot_step_single_flight; eassumption.
Qed.

(** C8: in every state the bot can reach, at most one call of
    [executeArbitrage] is past the guard, so at most one Execution is in
    progress; and while [activeTrade] is set, a call of [executeArbitrage]
    returns at once, leaving the state as it was (no strategy is built, no
    task or Execution is created), and a call of [scanForOpportunities] is
    skipped the same way. *)
Theorem bot_single_flight (auto : bool) (b : Bot) :
  reachable auto b ->
  (length (executing b) <= 1)%nat
  /\ (executions_in_progress b <= 1)%nat
  /\ (is_Some (activeTrade (botState b)) ->
      (forall o, executeArbitrage_call o b = b)
      /\ scanForOpportunities_call b = b).
Proof.
  intros Hreach. apply reachable_single_flight in Hreach as [Hle _].
  split; [lia |]. split.
  - unfold executions_in_progress.
    pose proof (List.filter_length_le
                  (fun t => match t with AwaitingExecution _ => true | _ => false end)
                  (executing b)). lia.
  - intros Hact. split.
    + intros o. apply executeArbitrage_call_refused, Hact.
    + apply scanForOpportunities_call_skipped, Hact.
Qed.

(** After [executeArbitrage] is called on the fresh bot, a second call
    and a scan change nothing. *)
Lemma bot_single_flight_witness :
  let b := executeArbitrage_call Sample.opportunity (initial_bot true) in
  reachable true b
  /\ length (executing b) = 1%nat
  /\ executeArbitrage_call Sample.opportunity100 b = b
  /\ scanForOpportunities_call b = b.
Proof.
  intros b.
  assert (Hreach : reachable true b).
  { eapply reachable_step; [apply reachable_initial | apply step_execute_call]. }
  assert (Hact : is_Some (activeTrade (botState b))) by (eexists; reflexivity).
  destruct (bot_single_flight true b Hreach) as (_ & _ & Hguard).
  destruct (Hguard Hact) as [Hexec Hscan].
  split; [exact Hreach |]. split; [reflexivity |].
  split; [apply Hexec | exact Hscan].
Defined.

(** * Further properties

    Properties of the modules around the engine, and of the engine beyond
    what the specification states. *)


(** ** Decimal digit strings *)

Lemma app_nil_l (s : string) : "" +:+ s = s.
Proof. reflexivity. Qed.

Lemma app_cons (c : ascii) (s t : string) : String c s +:+ t = String c (s +:+ t).
Proof. reflexivity. Qed.

Lemma app_empty_r (s : string) : s +:+ "" = s.
Proof. induction s as [|c s IH]; [reflexivity | now rewrite app_cons, IH]. Qed.

Lemma app_assoc_string (a b c : string) : (a +:+ b) +:+ c = a +:+ (b +:+ c).
Proof. induction a as [|x a IH]; [reflexivity | now rewrite !app_cons, IH]. Qed.

Lemma slen_app (s t : string) : JS.slen (s +:+ t) = JS.slen s + JS.slen t.
Proof.
  unfold JS.slen. induction s as [|c s IH].
  - rewrite app_nil_l. cbn. lia.
  - rewrite app_cons. cbn [String.length]. lia.
Qed.

Lemma slen_nonneg (s : string) : 0 <= JS.slen s.
Proof. unfold JS.slen. lia. Qed.

Lemma slen_zero (s : string) : JS.slen s = 0 -> s = "".
Proof. destruct s; [reflexivity | unfold JS.slen; cbn; lia]. Qed.

Lemma all_digits_app (s t : string) :
  JS.all_digits (s +:+ t) = JS.all_digits s && JS.all_digits t.
Proof.
  induction s as [|c s IH]; [reflexivity |].
  rewrite app_cons. cbn [JS.all_digits]. rewrite IH. now rewrite andb_assoc.
Qed.

Lemma digits_value_from_app (acc : Z) (s t : string) :
  JS.digits_value_from acc (s +:+ t)
  = JS.digits_value_from (JS.digits_value_from acc s) t.
Proof.
  revert acc. induction s as [|c s IH]; intros acc; [reflexivity |].
  rewrite app_cons. cbn [JS.digits_value_from]. apply IH.
Qed.

Lemma repeat_char_app (c : ascii) (n m : nat) :
  JS.repeat_char c n +:+ JS.repeat_char c m = JS.repeat_char c (n + m).
Proof.
  induction n as [|n IH]; [reflexivity |].
  cbn [JS.repeat_char Nat.add]. now rewrite app_cons, IH.
Qed.

Lemma repeat_char_snoc (c : ascii) (n : nat) (s : string) :
  JS.repeat_char c n +:+ String c s = String c (JS.repeat_char c n +:+ s).
Proof.
  induction n as [|n IH]; [reflexivity |].
  cbn [JS.repeat_char]. now rewrite !app_cons, IH.
Qed.

Lemma slen_repeat_char (c : ascii) (n : nat) : JS.slen (JS.repeat_char c n) = Z.of_nat n.
Proof.
  unfold JS.slen. induction n as [|n IH]; cbn [JS.repeat_char String.length];
    [reflexivity | lia].
Qed.

Lemma all_digits_zeros (n : nat) : JS.all_digits (JS.repeat_char "0" n) = true.
Proof. induction n as [|n IH]; cbn; [reflexivity | exact IH]. Qed.

Lemma digits_value_from_zeros (acc : Z) (n : nat) :
  JS.digits_value_from acc (JS.repeat_char "0" n) = acc * 10 ^ Z.of_nat n.
Proof.
  revert acc. induction n as [|n IH]; intros acc.
  - cbn. lia.
  - cbn [JS.repeat_char JS.digits_value_from]. rewrite IH.
    change (JS.digit_val "0") with 0. rewrite Nat2Z.inj_succ, Z.pow_succ_r by lia. lia.
Qed.

Lemma digits_value_from_linear (acc : Z) (s : string) :
  JS.digits_value_from acc s
  = acc * 10 ^ JS.slen s + JS.digits_value_from 0 s.
Proof.
  revert acc. induction s as [|c s IH]; intros acc.
  - cbn. change (JS.slen "") with 0. lia.
  - cbn [JS.digits_value_from]. rewrite IH. rewrite (IH (0 * 10 + _)).
    replace (JS.slen (String c s)) with (Z.succ (JS.slen s))
      by (unfold JS.slen; cbn [String.length]; lia).
    rewrite Z.pow_succ_r by apply slen_nonneg. lia.
Qed.

Lemma digit_val_range (c : ascii) : JS.is_digit c = true -> 0 <= JS.digit_val c <= 9.
Proof.
  unfold JS.is_digit, JS.digit_val. intros H. apply andb_prop in H as [H1 H2].
  apply N.leb_le in H1, H2. lia.
Qed.

Lemma digits_value_from_bounds (s : string) :
  JS.all_digits s = true ->
  0 <= JS.digits_value_from 0 s < 10 ^ JS.slen s.
Proof.
  induction s as [|c s IH]; intros H.
  - cbn. change (JS.slen "") with 0. lia.
  - cbn in H. apply andb_prop in H as [Hc Hs]. specialize (IH Hs).
    cbn [JS.digits_value_from]. rewrite digits_value_from_linear.
    replace (JS.slen (String c s)) with (Z.succ (JS.slen s))
      by (unfold JS.slen; cbn [String.length]; lia).
    rewrite Z.pow_succ_r by apply slen_nonneg.
    pose proof (digit_val_range c Hc). nia.
Qed.

(** The digits of a [Decimal.uint]. *)
Lemma all_digits_uint (d : Decimal.uint) :
  JS.all_digits (NilEmpty.string_of_uint d) = true.
Proof. induction d; cbn; auto. Qed.

Lemma digits_value_uint_acc (d : Decimal.uint) (acc : positive) :
  JS.digits_value_from (Zpos acc) (NilEmpty.string_of_uint d)
  = Zpos (Pos.of_uint_acc d acc).
Proof.
  revert acc.
  induction d as [|d IH|d IH|d IH|d IH|d IH|d IH|d IH|d IH|d IH|d IH]; intros acc;
    cbn [NilEmpty.string_of_uint JS.digits_value_from Pos.of_uint_acc];
    [reflexivity | ..]; rewrite <- IH; f_equal;
    match goal with |- context [JS.digit_val ?c] =>
      let v := eval vm_compute in (JS.digit_val c) in change (JS.digit_val c) with v
    end; lia.
Qed.

Lemma digits_value_uint (d : Decimal.uint) :
  JS.digits_value (NilEmpty.string_of_uint d) = Z.of_N (Pos.of_uint d).
Proof.
  unfold JS.digits_value.
  induction d as [|d IH|d IH|d IH|d IH|d IH|d IH|d IH|d IH|d IH|d IH];
    cbn [NilEmpty.string_of_uint JS.digits_value_from Pos.of_uint];
    [reflexivity | exact IH | ..];
    match goal with |- context [JS.digit_val ?c] =>
      let v := eval vm_compute in (0 * 10 + JS.digit_val c) in
      change (0 * 10 + JS.digit_val c) with v
    end; apply digits_value_uint_acc.
Qed.

Lemma string_of_N_uint (n : N) :
  JS.string_of_N n = NilEmpty.string_of_uint (N.to_uint n).
Proof.
  unfold JS.string_of_N, NilZero.string_of_uint.
  destruct (N.to_uint n) eqn:E; try reflexivity.
  destruct n; [discriminate E | now apply DecimalPos.Unsigned.to_uint_nonnil in E].
Qed.

Lemma all_digits_string_of_N (n : N) : JS.all_digits (JS.string_of_N n) = true.
Proof. rewrite string_of_N_uint. apply all_digits_uint. Qed.

Lemma digits_value_string_of_N (n : N) : JS.digits_value (JS.string_of_N n) = Z.of_N n.
Proof.
  rewrite string_of_N_uint, digits_value_uint.
  change (Pos.of_uint (N.to_uint n)) with (N.of_uint (N.to_uint n)).
  now rewrite DecimalN.Unsigned.of_to.
Qed.

Lemma string_of_N_nonempty (n : N) :
  exists c s, JS.string_of_N n = String c s /\ JS.is_digit c = true.
Proof.
  pose proof (all_digits_string_of_N n) as H.
  rewrite string_of_N_uint in *.
  destruct (N.to_uint n) eqn:E;
    try (cbn in *; eexists _, _; split; [reflexivity | reflexivity]).
  destruct n; [discriminate E | now apply DecimalPos.Unsigned.to_uint_nonnil in E].
Qed.

(** A number below [10^k] prints with at most [k] digits. *)
Lemma unorm_fixed_head (d : Decimal.uint) :
  Decimal.unorm d = d ->
  d = Decimal.D0 Decimal.Nil
  \/ exists c s, NilEmpty.string_of_uint d = String c s /\ 1 <= JS.digit_val c.
Proof.
  intros H. destruct d; try (right; cbn; eexists _, _; split; [reflexivity |];
                             vm_compute; discriminate).
  - discriminate H.
  - left.
    change (Decimal.unorm (Decimal.D0 d))
      with (match Decimal.nzhead d with
            | Decimal.Nil => Decimal.D0 Decimal.Nil
            | u => u
            end) in H.
    pose proof (DecimalFacts.nb_digits_nzhead d) as Hn.
    destruct (Decimal.nzhead d) eqn:E; [congruence | ..];
      exfalso; rewrite H in Hn; cbn in Hn; lia.
Qed.

Lemma slen_string_of_N (n : N) (k : Z) :
  0 < k -> Z.of_N n < 10 ^ k -> JS.slen (JS.string_of_N n) <= k.
Proof.
  intros Hk Hn.
  pose proof (digits_value_string_of_N n) as Hv.
  pose proof (all_digits_string_of_N n) as Hd.
  rewrite string_of_N_uint in *.
  assert (Hnorm : Decimal.unorm (N.to_uint n) = N.to_uint n).
  { rewrite <- (DecimalN.Unsigned.to_of (N.to_uint n)).
    now rewrite DecimalN.Unsigned.of_to. }
  destruct (unorm_fixed_head _ Hnorm) as [-> | (c & s & E & Hc)].
  - cbn. unfold JS.slen. cbn. lia.
  - rewrite E in *. cbn in Hd. apply andb_prop in Hd as [_ Hs].
    unfold JS.digits_value in Hv. cbn [JS.digits_value_from] in Hv.
    rewrite digits_value_from_linear in Hv.
    pose proof (digits_value_from_bounds s Hs) as Hb.
    replace (JS.slen (String c s)) with (Z.succ (JS.slen s))
      by (unfold JS.slen; cbn [String.length]; lia).
    destruct (Z_lt_le_dec (JS.slen s) k) as [|Hge]; [lia |].
    exfalso.
    assert (10 ^ k <= 10 ^ JS.slen s) by (apply Z.pow_le_mono_r; lia).
    nia.
Qed.

(** ** Reversal and trailing zeros *)

Lemma rev_string_onto_app (a b acc : string) :
  JS.rev_string_onto (a +:+ b) acc = JS.rev_string_onto b (JS.rev_string_onto a acc).
Proof.
  revert acc. induction a as [|c a IH]; intros acc; [reflexivity |].
  rewrite app_cons. cbn [JS.rev_string_onto]. apply IH.
Qed.

Lemma rev_string_onto_spec (s acc : string) :
  JS.rev_string_onto s acc = JS.rev_string s +:+ acc.
Proof.
  unfold JS.rev_string. revert acc.
  induction s as [|c s IH]; intros acc; [reflexivity |].
  cbn [JS.rev_string_onto]. rewrite (IH (String c acc)), (IH (String c "")).
  now rewrite app_assoc_string.
Qed.

Lemma rev_string_app (a b : string) :
  JS.rev_string (a +:+ b) = JS.rev_string b +:+ JS.rev_string a.
Proof.
  unfold JS.rev_string at 1. rewrite rev_string_onto_app.
  now rewrite rev_string_onto_spec.
Qed.

Lemma rev_string_involutive (s : string) : JS.rev_string (JS.rev_string s) = s.
Proof.
  induction s as [|c s IH]; [reflexivity |].
  change (String c s) with (String c "" +:+ s) at 1.
  rewrite rev_string_app, rev_string_app, IH. reflexivity.
Qed.

Lemma rev_string_repeat (c : ascii) (n : nat) :
  JS.rev_string (JS.repeat_char c n) = JS.repeat_char c n.
Proof.
  induction n as [|n IH]; [reflexivity |].
  cbn [JS.repeat_char].
  change (String c (JS.repeat_char c n)) with (String c "" +:+ JS.repeat_char c n) at 1.
  rewrite rev_string_app, IH.
  change (JS.rev_string (String c "")) with (String c "").
  rewrite repeat_char_snoc. now rewrite app_empty_r.
Qed.

Lemma slen_rev_string (s : string) : JS.slen (JS.rev_string s) = JS.slen s.
Proof.
  induction s as [|c s IH]; [reflexivity |].
  change (String c s) with (String c "" +:+ s) at 1.
  rewrite rev_string_app, !slen_app, IH.
  change (JS.rev_string (String c "")) with (String c "").
  replace (JS.slen (String c s)) with (Z.succ (JS.slen s))
    by (unfold JS.slen; cbn [String.length]; lia).
  unfold JS.slen at 2. cbn. lia.
Qed.

Lemma all_digits_rev_string (s : string) :
  JS.all_digits (JS.rev_string s) = JS.all_digits s.
Proof.
  induction s as [|c s IH]; [reflexivity |].
  change (String c s) with (String c "" +:+ s) at 1.
  rewrite rev_string_app, all_digits_app, IH.
  change (JS.rev_string (String c "")) with (String c "").
  cbn [JS.all_digits]. now rewrite andb_true_r, andb_comm.
Qed.

Lemma drop_leading_split (c : ascii) (r : string) :
  exists k, r = JS.repeat_char c k +:+ JS.drop_leading c r.
Proof.
  induction r as [|x r [k IH]].
  - now exists 0%nat.
  - cbn [JS.drop_leading]. destruct (Ascii.eqb_spec x c) as [-> | Hne].
    + exists (S k). cbn [JS.repeat_char]. rewrite app_cons. now rewrite <- IH.
    + now exists 0%nat.
Qed.

Lemma drop_leading_idem (c : ascii) (r : string) :
  JS.drop_leading c (JS.drop_leading c r) = JS.drop_leading c r.
Proof.
  induction r as [|x r IH]; [reflexivity |].
  cbn [JS.drop_leading]. destruct (Ascii.eqb x c) eqn:E; [exact IH |].
  cbn [JS.drop_leading]. now rewrite E.
Qed.

Lemma strip_trailing_zeros_split (s : string) :
  exists k, s = JS.strip_trailing_zeros s +:+ JS.repeat_char "0" k.
Proof.
  unfold JS.strip_trailing_zeros.
  destruct (drop_leading_split "0" (JS.rev_string s)) as [k E].
  exists k. rewrite <- (rev_string_involutive s) at 1. rewrite E at 1.
  now rewrite rev_string_app, rev_string_repeat.
Qed.

Lemma strip_trailing_zeros_idem (s : string) :
  JS.strip_trailing_zeros (JS.strip_trailing_zeros s) = JS.strip_trailing_zeros s.
Proof.
  unfold JS.strip_trailing_zeros.
  now rewrite rev_string_involutive, drop_leading_idem.
Qed.

Lemma all_digits_strip (s : string) :
  JS.all_digits s = true -> JS.all_digits (JS.strip_trailing_zeros s) = true.
Proof.
  intros H. destruct (strip_trailing_zeros_split s) as [k E].
  rewrite E, all_digits_app in H. now apply andb_prop in H as [H _].
Qed.

(** ** [split(".")] on a decimal numeral *)

Lemma all_digits_or_dots_digits (s : string) :
  JS.all_digits s = true -> JS.all_digits_or_dots s = true.
Proof.
  induction s as [|c s IH]; [reflexivity |].
  cbn. intros H. apply andb_prop in H as [-> H]. now rewrite IH.
Qed.

Lemma all_digits_or_dots_app (s t : string) :
  JS.all_digits_or_dots (s +:+ t)
  = JS.all_digits_or_dots s && JS.all_digits_or_dots t.
Proof.
  induction s as [|c s IH]; [reflexivity |].
  rewrite app_cons. cbn [JS.all_digits_or_dots]. rewrite IH. now rewrite andb_assoc.
Qed.

Lemma digit_not_dot (c : ascii) : JS.is_digit c = true -> Ascii.eqb c "." = false.
Proof.
  intros H. destruct (Ascii.eqb_spec c "."); [subst; discriminate H | reflexivity].
Qed.

Lemma split_dots_digits (w rest cur : string) :
  JS.all_digits w = true ->
  JS.split_dots (w +:+ rest) cur = JS.split_dots rest (JS.rev_string_onto w cur).
Proof.
  revert cur. induction w as [|c w IH]; intros cur H; [reflexivity |].
  cbn in H. apply andb_prop in H as [Hc Hw].
  rewrite app_cons. cbn [JS.split_dots JS.rev_string_onto].
  rewrite (digit_not_dot c Hc). now apply IH.
Qed.

Lemma split_dots_numeral (w f : string) :
  JS.all_digits w = true -> JS.all_digits f = true ->
  JS.split_dots (w +:+ "." +:+ f) "" = [w; f].
Proof.
  intros Hw Hf. rewrite split_dots_digits by exact Hw.
  rewrite app_cons, app_nil_l. cbn [JS.split_dots].
  change (Ascii.eqb "." ".") with true. cbv iota.
  rewrite <- (app_empty_r f) at 1. rewrite split_dots_digits by exact Hf.
  cbn [JS.split_dots]. fold (JS.rev_string w). fold (JS.rev_string f).
  now rewrite !rev_string_involutive.
Qed.

Lemma split_dots_integer (w : string) :
  JS.all_digits w = true -> JS.split_dots w "" = [w].
Proof.
  intros Hw. rewrite <- (app_empty_r w) at 1. rewrite split_dots_digits by exact Hw.
  cbn [JS.split_dots]. fold (JS.rev_string w).
  now rewrite rev_string_involutive.
Qed.

(** A numeral that starts with a digit carries no sign. *)
Lemma digit_not_minus (c : ascii) (r : string) :
  JS.is_digit c = true ->
  match String c r with String "-" _ => true | _ => false end = false
  /\ match String c r with String "-" r' => r' | _ => String c r end = String c r.
Proof.
  destruct c as [[] [] [] [] [] [] [] []]; intros H; try discriminate H;
    split; reflexivity.
Qed.

(** ** [parseEther] on the numerals the program produces *)

Lemma String_eqb_dot (c : ascii) (r : string) :
  JS.is_digit c = true -> String.eqb (String c r) "." = false.
Proof.
  intros H. cbn [String.eqb]. now rewrite (digit_not_dot c H).
Qed.

Lemma digits_value_pad (f : string) (k : nat) :
  JS.digits_value (f +:+ JS.repeat_char "0" k) = JS.digits_value f * 10 ^ Z.of_nat k.
Proof.
  unfold JS.digits_value. now rewrite digits_value_from_app, digits_value_from_zeros.
Qed.

(** The body of [parseEther] once the sign has been split off. *)
Lemma parseEther_body (negative : bool) (w : string) (rest : list string)
    (fraction : string) :
  JS.all_digits w = true -> w <> "" ->
  (rest = [] /\ fraction = "0" \/ exists f, rest = [f] /\ f <> "" /\ fraction = f) ->
  JS.slen (JS.strip_trailing_zeros fraction) <= 18 ->
  match rest with
  | _ :: _ :: _ => Throw "too many decimal points"
  | _ =>
      let whole := if JS.slen w =? 0 then "0" else w in
      let fraction := match rest with
                      | f :: _ => if JS.slen f =? 0 then "0" else f
                      | [] => "0"
                      end in
      let fraction := JS.strip_trailing_zeros fraction in
      if 18 <? JS.slen fraction then Throw "fractional component exceeds decimals"
      else
        let fraction := fraction +:+ JS.zeros (18 - JS.slen fraction) in
        let wei := JS.digits_value whole * JS.ether + JS.digits_value fraction in
        Ok (if negative then - wei else wei)
  end
  = Ok (let wei := JS.digits_value w * JS.ether
                   + JS.digits_value (JS.strip_trailing_zeros fraction)
                     * 10 ^ (18 - JS.slen (JS.strip_trailing_zeros fraction)) in
        if negative then - wei else wei).
Proof.
  intros Hw Hne Hrest Hlen.
  assert (Ew : (JS.slen w =? 0) = false).
  { apply Z.eqb_neq. intros E. now apply slen_zero in E. }
  destruct Hrest as [[-> ->] | (f & -> & Hf & ->)]; cbv beta iota zeta; rewrite Ew.
  - replace (18 <? JS.slen (JS.strip_trailing_zeros "0")) with false
      by (symmetry; apply Z.ltb_ge; exact Hlen).
    unfold JS.zeros. rewrite digits_value_pad.
    rewrite Z2Nat.id by lia. reflexivity.
  - replace (JS.slen f =? 0) with false
      by (symmetry; apply Z.eqb_neq; intros E; now apply slen_zero in E).
    replace (18 <? JS.slen (JS.strip_trailing_zeros f)) with false
      by (symmetry; apply Z.ltb_ge; exact Hlen).
    unfold JS.zeros. rewrite digits_value_pad.
    rewrite Z2Nat.id by lia. reflexivity.
Qed.

Lemma minus_sign (r : string) :
  match String "-" r with String "-" _ => true | _ => false end = true
  /\ match String "-" r with String "-" r' => r' | _ => String "-" r end = r.
Proof. split; reflexivity. Qed.

Lemma parseEther_signed (negative : bool) (body : string) (c : ascii) (r : string)
    (rest : list string) (fraction w : string) :
  body = String c r -> JS.is_digit c = true ->
  JS.all_digits_or_dots body = true ->
  JS.split_dots body "" = w :: rest ->
  JS.all_digits w = true -> w <> "" ->
  (rest = [] /\ fraction = "0" \/ exists f, rest = [f] /\ f <> "" /\ fraction = f) ->
  JS.slen (JS.strip_trailing_zeros fraction) <= 18 ->
  JS.parseEther ((if negative then "-" else "") +:+ body)
  = Ok (let wei := JS.digits_value w * JS.ether
                   + JS.digits_value (JS.strip_trailing_zeros fraction)
                     * 10 ^ (18 - JS.slen (JS.strip_trailing_zeros fraction)) in
        if negative then - wei else wei).
Proof.
  intros Hbody Hc Hdots Hsplit Hw Hne Hrest Hlen.
  unfold JS.parseEther.
  assert (Hsign :
    match (if negative then "-" else "") +:+ body with
    | String "-" _ => true | _ => false end = negative
    /\ match (if negative then "-" else "") +:+ body with
       | String "-" r' => r'
       | _ => (if negative then "-" else "") +:+ body
       end = body).
  { destruct negative.
    - rewrite app_cons, app_nil_l. apply minus_sign.
    - rewrite app_nil_l, Hbody. apply (digit_not_minus c r Hc). }
  destruct Hsign as [-> ->].
  rewrite Hdots. cbn [negb orb].
  replace (JS.slen body =? 0) with false
    by (symmetry; apply Z.eqb_neq; rewrite Hbody; unfold JS.slen;
        cbn [String.length]; lia).
  replace (String.eqb body ".") with false
    by (symmetry; rewrite Hbody; now apply String_eqb_dot).
  rewrite Hsplit.
  now apply parseEther_body.
Qed.

(** [parseEther] of a decimal integer: the integer, in ether. *)
Lemma parseEther_BN_toString (z : Z) : JS.parseEther (BN.toString z) = Ok (z * JS.ether).
Proof.
  unfold BN.toString.
  destruct (string_of_N_nonempty (Z.to_N (Z.abs z))) as (c & r & E & Hc).
  pose proof (all_digits_string_of_N (Z.to_N (Z.abs z))) as Hd.
  rewrite (parseEther_signed (z <? 0) _ c r [] "0" (JS.string_of_N (Z.to_N (Z.abs z))));
    try assumption.
  - rewrite digits_value_string_of_N, Z2N.id by lia.
    change (JS.strip_trailing_zeros "0") with "".
    change (JS.digits_value "") with 0.
    cbv zeta. f_equal. destruct (z <? 0) eqn:Hz; lia.
  - now apply all_digits_or_dots_digits.
  - now apply split_dots_integer.
  - rewrite E. discriminate.
  - now left.
  - change (JS.strip_trailing_zeros "0") with "". change (JS.slen "") with 0. lia.
Qed.

(** [parseEther] reads back what [formatEther] prints. *)
Lemma parseEther_formatEther (z : Z) : JS.parseEther (JS.formatEther z) = Ok z.
Proof.
  unfold JS.formatEther. cbv zeta.
  set (v := Z.abs z).
  set (F := JS.pad_left_zeros 18 (JS.string_of_N (Z.to_N (v mod JS.ether)))).
  set (whole := JS.string_of_N (Z.to_N (v / JS.ether))).
  assert (Hether : JS.ether = 10 ^ 18) by reflexivity.
  assert (Hmod : 0 <= v mod JS.ether < 10 ^ 18).
  { rewrite <- Hether. apply Z.mod_pos_bound. reflexivity. }
  assert (Hdiv : 0 <= v / JS.ether) by (apply Z.div_pos; [lia | reflexivity]).
  (* the padded fraction *)
  pose proof (all_digits_string_of_N (Z.to_N (v mod JS.ether))) as Hfd.
  pose proof (slen_string_of_N (Z.to_N (v mod JS.ether)) 18 ltac:(lia)) as Hfl.
  rewrite Z2N.id in Hfl by lia. specialize (Hfl (proj2 Hmod)).
  assert (HF : JS.all_digits F = true /\ JS.slen F = 18
               /\ JS.digits_value F = v mod JS.ether) .
  { unfold F, JS.pad_left_zeros, JS.zeros. split; [|split].
    - rewrite all_digits_app, all_digits_zeros. exact Hfd.
    - rewrite slen_app, slen_repeat_char, Z2Nat.id; lia.
    - unfold JS.digits_value. rewrite digits_value_from_app, digits_value_from_zeros.
      rewrite Z.mul_0_l. fold (JS.digits_value (JS.string_of_N (Z.to_N (v mod JS.ether)))).
      rewrite digits_value_string_of_N, Z2N.id; lia. }
  destruct HF as (HFd & HFl & HFv).
  destruct (strip_trailing_zeros_split F) as [k HFk].
  pose proof (all_digits_strip F HFd) as Hsd.
  assert (Hk : JS.slen (JS.strip_trailing_zeros F) + Z.of_nat k = 18).
  { transitivity (JS.slen (JS.strip_trailing_zeros F +:+ JS.repeat_char "0" k));
      [now rewrite slen_app, slen_repeat_char | now rewrite <- HFk]. }
  pose proof (slen_nonneg (JS.strip_trailing_zeros F)) as Hs0.
  (* the whole part *)
  destruct (string_of_N_nonempty (Z.to_N (v / JS.ether))) as (c & r & Ew & Hc).
  fold whole in Ew.
  pose proof (all_digits_string_of_N (Z.to_N (v / JS.ether))) as Hwd. fold whole in Hwd.
  set (frac := match JS.strip_trailing_zeros F with "" => "0" | f => f end).
  assert (Hfrac : JS.all_digits frac = true /\ frac <> ""
                  /\ JS.strip_trailing_zeros frac = JS.strip_trailing_zeros F).
  { pose proof (strip_trailing_zeros_idem F) as Hid.
    unfold frac. destruct (JS.strip_trailing_zeros F) eqn:E.
    - split; [reflexivity | split; [discriminate | reflexivity]].
    - split; [exact Hsd | split; [discriminate | exact Hid]]. }
  destruct Hfrac as (Hfrd & Hfrne & Hfrs).
  replace ((if z <? 0 then "-" else "") +:+ whole +:+ "." +:+ frac)
    with ((if z <? 0 then "-" else "") +:+ (whole +:+ "." +:+ frac)) by reflexivity.
  rewrite (parseEther_signed (z <? 0) _ c (r +:+ "." +:+ frac) [frac] frac whole).
  - rewrite Hfrs. unfold whole. rewrite digits_value_string_of_N, Z2N.id by lia.
    replace (18 - JS.slen (JS.strip_trailing_zeros F)) with (Z.of_nat k) by lia.
    rewrite <- digits_value_pad, <- HFk, HFv.
    cbv zeta. f_equal.
    assert (v / JS.ether * JS.ether + v mod JS.ether = v).
    { rewrite Z.mul_comm. symmetry. apply Z.div_mod. discriminate. }
    unfold v in *. destruct (z <? 0) eqn:Hz; lia.
  - now rewrite Ew, app_cons.
  - exact Hc.
  - rewrite !all_digits_or_dots_app.
    rewrite (all_digits_or_dots_digits _ Hwd), (all_digits_or_dots_digits _ Hfrd).
    reflexivity.
  - now apply split_dots_numeral.
  - exact Hwd.
  - rewrite Ew. discriminate.
  - right. exists frac. split; [reflexivity | split; [exact Hfrne | reflexivity]].
  - rewrite Hfrs. lia.
Qed.

(** ** The profitability calculator *)


(** X1: [calculateProfitability] answers with the full analysis, not a
    rejection, whenever the token is listed on both networks, the budget,
    the slippage multiplier and the two prices convert to wei, the budget
    and the buy price are not zero, the two bridge-fee queries succeed and
    the ROI in basis points is a safe integer. The analysis then buys
    [budget * slippage / buyPrice], sells that less the bridge fee, and
    expects [sold * sellPrice / 10^18] wei. *)
Theorem calculateProfitability_complete cfg gas fee t buyNetwork sellNetwork
    buyPrice sellPrice budget w slip pb ps fee1 fee2 :
  listed_on t buyNetwork -> listed_on t sellNetwork ->
  JS.parseEther (Exposure_toString budget) = Ok w ->
  JS.parseEther
    (JS.Number_toString
       (JS.div (JS.sub (JS.ofZ 100) (maxSlippagePercent cfg)) (JS.ofZ 100))) = Ok slip ->
  JS.parseEther (JS.Number_toString (priceInEth buyPrice)) = Ok pb ->
  JS.parseEther (JS.Number_toString (priceInEth sellPrice)) = Ok ps ->
  pb <> 0 -> w <> 0 ->
  let addrBuy := default "" (obj_get buyNetwork (addresses t)) in
  let addrSell := default "" (obj_get sellNetwork (addresses t)) in
  let bought := Z.quot (w * slip) pb in
  fee buyNetwork sellNetwork addrBuy bought = Ok fee1 ->
  let proceeds := Z.quot ((bought - fee1) * ps) JS.ether in
  fee sellNetwork buyNetwork AddressZero proceeds = Ok fee2 ->
  let costs :=
    gasCost (estimateGasCost cfg gas buyNetwork AddressZero addrBuy w)
    + gasCost (estimateGasCost cfg gas sellNetwork addrSell AddressZero (bought - fee1))
    + fee2 in
  Z.abs (Z.quot ((proceeds - w - costs) * 10000) w) < 2 ^ 53 ->
  exists a,
    calculateProfitability cfg gas fee t buyNetwork sellNetwork buyPrice sellPrice
      budget = Analysis a
    /\ expectedBuyAmountWei a = bought
    /\ expectedSellAmountWei a = bought - fee1
    /\ expectedEthFromSellWei a = proceeds
    /\ estimatedProfitWei a = proceeds - w - costs.
Proof.
  intros H1 H2 Hw Hslip Hpb Hps Hpb0 Hw0 addrBuy addrSell bought Hfee1 proceeds
    Hfee2 costs Hroi.
  unfold listed_on in H1, H2. unfold calculateProfitability. rewrite H1, H2.
  cbn [negb orb]. unfold calculateProfitability_body.
  rewrite Hw. cbn [mbind result_bind]. rewrite Hslip. cbn [mbind result_bind].
  rewrite Hpb. cbn [mbind result_bind].
  rewrite (BN_div_nonzero (w * slip) pb Hpb0). cbn [mbind result_bind].
  fold addrBuy addrSell bought. rewrite Hfee1. cbn [mbind result_bind].
  rewrite Hps. cbn [mbind result_bind].
  change (JS.parseEther "1") with (Ok JS.ether). cbn [mbind result_bind].
  rewrite (BN_div_nonzero _ JS.ether) by discriminate. cbn [mbind result_bind].
  fold proceeds. rewrite Hfee2. cbn [mbind result_bind].
  rewrite (BN_div_nonzero _ w Hw0). cbn [mbind result_bind].
  fold costs. unfold BN.toNumber.
  replace (Z.abs (Z.quot ((proceeds - w - costs) * 10000) w) <? 2 ^ 53) with true
    by (symmetry; apply Z.ltb_lt; exact Hroi).
  cbn [mbind result_bind]. eexists. split; [reflexivity |].
  cbn. repeat split.
Qed.

Lemma calculateProfitability_complete_witness :
  listed_on Sample.stETH "arbitrum" /\ listed_on Sample.stETH "ethereum"
  /\ exists a,
    calculateProfitability config Sample.estimateSwapGasCost Sample.getBridgeFee
      Sample.stETH "arbitrum" "ethereum" (Sample.price 975) (Sample.price 990)
      (ExposureNumber (JS.ofZ 5)) = Analysis a
    /\ expectedBuyAmountWei a = 5102564102564102564
    /\ expectedSellAmountWei a = 5102564102564102564 - 25512820512820512
    /\ expectedEthFromSellWei a = 5026280769230769231
    /\ estimatedProfitWei a
       = 5026280769230769231 - 5000000000000000000
         - (4500000000000000 + 4500000000000000 + 25131403846153846).
Proof.
  split; [reflexivity | split; [reflexivity |]].
  apply (calculateProfitability_complete config Sample.estimateSwapGasCost
           Sample.getBridgeFee Sample.stETH "arbitrum" "ethereum"
           (Sample.price 975) (Sample.price 990) (ExposureNumber (JS.ofZ 5))
           5000000000000000000 995000000000000000 975000000000000000
           990000000000000000 25512820512820512 25131403846153846);
    try reflexivity; try discriminate.
Defined.

(** X2: [calculatePnL] throws exactly when the starting balance is
    positive and the ROI in basis points is not a safe integer. Otherwise
    the gross profit is the balance difference, the net profit is the
    gross profit less the gas, [isProfit] says whether the net profit is
    positive, [netProfitEth] reads back as the net profit, and with no
    positive starting balance the ROI is reported as "0%". *)
Theorem calculatePnL_outcome (starting ending gas : Z) :
  let net := ending - starting - gas in
  match calculatePnL starting ending gas with
  | Ok pnl =>
      (starting <= 0 \/ Z.abs (Z.quot (net * 10000) starting) < 2 ^ 53)
      /\ grossProfitWei pnl = ending - starting
      /\ netProfitWei pnl = net
      /\ isProfit pnl = (0 <? net)
      /\ JS.parseEther (netProfitEth pnl) = Ok net
      /\ (starting <= 0 -> roi pnl = "0%")
  | Throw _ => 0 < starting /\ 2 ^ 53 <= Z.abs (Z.quot (net * 10000) starting)
  end.
Proof.
  intros net. unfold calculatePnL.
  destruct (0 <? starting) eqn:Hs.
  - apply Z.ltb_lt in Hs.
    rewrite BN_div_nonzero by lia. cbn [mbind result_bind].
    fold net. unfold BN.toNumber.
    destruct (Z.abs (Z.quot (net * 10000) starting) <? 2 ^ 53) eqn:Hroi;
      cbn [mbind result_bind].
    + apply Z.ltb_lt in Hroi. cbn [grossProfitWei netProfitWei isProfit netProfitEth roi].
      split; [right; exact Hroi |].
      split; [reflexivity |]. split; [reflexivity |]. split; [reflexivity |].
      split; [apply parseEther_formatEther | lia].
    + apply Z.ltb_ge in Hroi. split; assumption.
  - apply Z.ltb_ge in Hs. cbn [mbind result_bind].
    cbn [grossProfitWei netProfitWei isProfit netProfitEth roi]. fold net.
    split; [left; exact Hs |].
    split; [reflexivity |]. split; [reflexivity |]. split; [reflexivity |].
    split; [apply parseEther_formatEther | reflexivity].
Qed.

(** ** Objects as maps: lookup after update *)

Lemma obj_get_set_eq {V} (k : string) (v : V) (o : JsObject V) :
  obj_get k (obj_set k v o) = Some v.
Proof.
  induction o as [| [k0 v0] o IH]; cbn [obj_set obj_get].
  - now rewrite String.eqb_refl.
  - destruct (String.eqb k k0) eqn:E; cbn [obj_get]; rewrite E; [reflexivity | exact IH].
Qed.

Lemma obj_get_set_ne {V} (k k' : string) (v : V) (o : JsObject V) :
  k' <> k -> obj_get k' (obj_set k v o) = obj_get k' o.
Proof.
  intros Hne. induction o as [| [k0 v0] o IH]; cbn [obj_set obj_get].
  - now apply String.eqb_neq in Hne as ->.
  - destruct (String.eqb k k0) eqn:E; cbn [obj_get].
    + apply String.eqb_eq in E as <-. now apply String.eqb_neq in Hne as ->.
    + now rewrite IH.
Qed.

(** ** The opportunity finder *)

(** X3: every token [findCrosschainLSDTokens] returns is a configured
    token with its [networks] filled in: they are exactly the networks for
    which the token has a non-empty address, and there are at least two. *)
Theorem findCrosschainLSDTokens_networks (lsdTokens : list Token) (t : Token) :
  In t (findCrosschainLSDTokens lsdTokens) ->
  (exists t0, In t0 lsdTokens /\ symbol t = symbol t0 /\ addresses t = addresses t0)
  /\ (2 <= length (networks t))%nat
  /\ (forall n, In n (networks t) <->
                exists a, In (n, a) (addresses t) /\ a <> "").
Proof.
  unfold findCrosschainLSDTokens. intros Hin.
  apply in_flat_map in Hin as (t0 & Ht0 & Hin).
  destruct (1 <? Z.of_nat (length (listed_networks t0))) eqn:Hlen; [| destruct Hin].
  destruct Hin as [<- | []]. cbn [symbol addresses networks].
  split; [now exists t0 |]. split; [apply Z.ltb_lt in Hlen; lia |].
  intros n. unfold listed_networks. rewrite in_map_iff. split.
  - intros ([n' a] & <- & Hf). apply filter_In in Hf as [Hf Ha].
    exists a. split; [exact Hf |]. cbn in Ha. intros ->. discriminate Ha.
  - intros (a & Hf & Ha). exists (n, a). split; [reflexivity |].
    apply filter_In. split; [exact Hf |]. cbn.
    destruct (String.eqb_spec a ""); [contradiction | reflexivity].
Qed.

Lemma findCrosschainLSDTokens_networks_witness :
  In (token Sample.opportunity) (findCrosschainLSDTokens [Sample.stETH])
  /\ (2 <= length (networks (token Sample.opportunity)))%nat
  /\ (In "polygon" (networks (token Sample.opportunity)) <->
      exists a, In ("polygon", a) (addresses (token Sample.opportunity)) /\ a <> "").
Proof.
  assert (H : In (token Sample.opportunity) (findCrosschainLSDTokens [Sample.stETH]))
    by (left; reflexivity).
  split; [exact H |].
  destruct (findCrosschainLSDTokens_networks [Sample.stETH] _ H) as (_ & Hlen & Hn).
  split; [exact Hlen | apply Hn].
Defined.

(** The price the loop of [getPricesAcrossChains] enters for a network. *)
Lemma getPricesAcrossChains_fold priceO (t : Token) (n : string)
    (ns : list string) (acc : JsObject Price) :
  obj_get n
    (fold_left
       (fun prices network =>
          if truthy (obj_get network (addresses t)) then
            match priceO (default "" (obj_get network (addresses t))) network with
            | Ok price => obj_set network price prices
            | Throw _ => prices
            end
          else prices) ns acc)
  = match (if existsb (String.eqb n) ns && truthy (obj_get n (addresses t)) then
             match priceO (default "" (obj_get n (addresses t))) n with
             | Ok price => Some price
             | Throw _ => None
             end
           else None) with
    | Some price => Some price
    | None => obj_get n acc
    end.
Proof.
  revert acc. induction ns as [| m ns IH]; intros acc; [reflexivity |].
  cbn [fold_left existsb]. rewrite IH. clear IH.
  destruct (String.eqb_spec n m) as [<- | Hne]; cbn [orb].
  - destruct (truthy (obj_get n (addresses t))) eqn:Ht;
      [| now rewrite andb_false_r].
    rewrite andb_true_r.
    destruct (priceO _ n) as [p |] eqn:Ep.
    + rewrite obj_get_set_eq. now destruct (existsb _ ns).
    + now destruct (existsb _ ns).
  - destruct (existsb (String.eqb n) ns && truthy (obj_get n (addresses t)));
      [destruct (priceO _ n); [reflexivity |] |];
      (destruct (truthy (obj_get m (addresses t))); [| reflexivity];
       destruct (priceO _ m); [| reflexivity];
       now rewrite obj_get_set_ne).
Qed.

(** X4: [getPricesAcrossChains] has a price for a network exactly when
    the network is one of the token's [networks], the token has an address
    there and the price query for that address succeeded; the price is the
    one the query returned. A network whose query throws is left out. *)
Theorem getPricesAcrossChains_entries priceO (t : Token) (n : string) (p : Price) :
  obj_get n (getPricesAcrossChains priceO t) = Some p <->
  In n (networks t) /\ listed_on t n
  /\ priceO (default "" (obj_get n (addresses t))) n = Ok p.
Proof.
  unfold getPricesAcrossChains, listed_on. rewrite getPricesAcrossChains_fold.
  cbn [obj_get]. split.
  - destruct (existsb (String.eqb n) (networks t)) eqn:Hex; cbn [andb];
      [| discriminate].
    destruct (truthy (obj_get n (addresses t))) eqn:Ht; [| discriminate].
    destruct (priceO _ n) as [p' |] eqn:Ep; [| discriminate].
    intros [= <-]. apply existsb_exists in Hex as (m & Hm & E).
    apply String.eqb_eq in E as <-. repeat split; assumption.
  - intros (Hin & Ht & Ep).
    assert (existsb (String.eqb n) (networks t) = true) as ->.
    { apply existsb_exists. exists n. split; [exact Hin | apply String.eqb_refl]. }
    now rewrite Ht, Ep.
Qed.

(** X5: the finder hands the exposure cap to the calculator as the
    BigNumber it is configured as, and the calculator converts its decimal
    rendering to wei once more: the analysis of every opportunity found is
    made for a budget of [maxExposurePerTrade * 10^18] wei. *)
Theorem findArbitrageOpportunities_budget cfg lsdTokens priceO gasO feeO
    (o : Opportunity) :
  In o (findArbitrageOpportunities cfg lsdTokens priceO gasO feeO) ->
  let a := profitability o in
  exists bridgeBack,
    feeO (sellNetwork o) (buyNetwork o) AddressZero (expectedEthFromSellWei a)
      = Ok bridgeBack
    /\ estimatedProfitWei a
       = expectedEthFromSellWei a - maxExposurePerTrade cfg * 10 ^ 18
         - (gasCost (estimatedGasCostBuy a) + gasCost (estimatedGasCostSell a)
            + bridgeBack).
Proof.
  intros Hin a. unfold findArbitrageOpportunities in Hin.
  apply in_flat_map in Hin as (t & _ & Hin).
  unfold opportunities_of_token in Hin.
  apply list_elem_of_In, list_elem_of_omap in Hin as ([[sn sp] [tn tp]] & _ & Hex).
  cbn [fst snd] in Hex. unfold examine_pair in Hex.
  destruct (JS.ge _ (priceDeviationThreshold cfg)); [| discriminate Hex].
  set (buy := if JS.lt (priceInEth sp) (priceInEth tp) then sn else tn) in Hex.
  set (sell := if String.eqb buy sn then tn else sn) in Hex.
  destruct (obj_get buy _) as [bp |]; [| discriminate Hex].
  destruct (obj_get sell _) as [sp' |]; [| discriminate Hex].
  destruct (calculateProfitability _ _ _ _ _ _ _ _ _) as [| a'] eqn:Ecalc;
    [discriminate Hex |].
  destruct (isProfitable a'); [| discriminate Hex].
  injection Hex as <-. subst a. cbn [profitability sellNetwork buyNetwork].
  unfold calculateProfitability in Ecalc.
  destruct (negb _ || negb _); [discriminate Ecalc |].
  destruct (calculateProfitability_body _ _ _ _ _ _ _ _ _ _ _) as [a'' |] eqn:Ebody;
    [| discriminate Ecalc].
  injection Ecalc as ->.
  apply calculateProfitability_body_net_profit in Ebody
    as (w & back & Hw & Hback & _ & Hprofit & _).
  cbn [Exposure_toString] in Hw. rewrite parseEther_BN_toString in Hw.
  injection Hw as <-. exists back. split; [exact Hback |].
  rewrite Hprofit. reflexivity.
Qed.

Lemma findArbitrageOpportunities_budget_witness :
  In Sample.opportunity
     (findArbitrageOpportunities config [Sample.stETH] Sample.getTokenPrice
        Sample.estimateSwapGasCost Sample.getBridgeFee)
  /\ exists bridgeBack,
       estimatedProfitWei (profitability Sample.opportunity)
       = expectedEthFromSellWei (profitability Sample.opportunity)
         - 5000000000000000000 * 10 ^ 18
         - (gasCost (estimatedGasCostBuy (profitability Sample.opportunity))
            + gasCost (estimatedGasCostSell (profitability Sample.opportunity))
            + bridgeBack).
Proof.
  assert (H : In Sample.opportunity
                (findArbitrageOpportunities config [Sample.stETH]
                   Sample.getTokenPrice Sample.estimateSwapGasCost
                   Sample.getBridgeFee))
    by (vm_compute; left; reflexivity).
  split; [exact H |].
  destruct (findArbitrageOpportunities_budget config [Sample.stETH]
              Sample.getTokenPrice Sample.estimateSwapGasCost Sample.getBridgeFee
              Sample.opportunity H) as (back & _ & Hprofit).
  exists back. exact Hprofit.
Defined.

(** ** Bridge fees and bridging times *)

(** X6: the 0.5% fallback of [getBridgeFee] is the same on every path:
    whenever each enabled provider fails to answer (or none is enabled),
    the fee is [amount * 5 / 1000], whichever providers are enabled; for a
    non-negative amount it lies between zero and the amount. *)
Theorem getBridgeFee_fallback cfg socket across source destination tokenAddress
    (amount : Z) :
  (bridges_socket_enabled cfg = true ->
   exists msg, socket source destination tokenAddress amount = Throw msg) ->
  (bridges_across_enabled cfg = true ->
   exists msg, across source destination tokenAddress amount = Throw msg) ->
  getBridgeFee cfg socket across source destination tokenAddress amount
  = Z.quot (amount * 5) 1000
  /\ (0 <= amount ->
      0 <= getBridgeFee cfg socket across source destination tokenAddress amount
        <= amount).
Proof.
  intros Hsocket Hacross.
  assert (Hfee : getBridgeFee cfg socket across source destination tokenAddress amount
                 = Z.quot (amount * 5) 1000).
  { assert (Hpct : Z.quot (amount * 5000000000000000) 1000000000000000000
                   = Z.quot (amount * 5) 1000).
    { replace (amount * 5000000000000000) with (amount * 5 * 1000000000000000) by lia.
      replace 1000000000000000000 with (1000 * 1000000000000000) by lia.
      apply Z.quot_mul_cancel_r; lia. }
    unfold getBridgeFee, getAcrossFees.
    destruct (bridges_socket_enabled cfg) eqn:Es.
    - destruct (Hsocket eq_refl) as [m ->].
      destruct (bridges_across_enabled cfg) eqn:Ea; [| reflexivity].
      destruct (Hacross eq_refl) as [m' ->]. exact Hpct.
    - destruct (bridges_across_enabled cfg) eqn:Ea; [| reflexivity].
      destruct (Hacross eq_refl) as [m' ->]. exact Hpct. }
  split; [exact Hfee |]. intros Hpos. rewrite Hfee. split.
  - apply Z.quot_pos; lia.
  - apply Z.quot_le_upper_bound; lia.
Qed.

Lemma getBridgeFee_fallback_witness :
  getBridgeFee config Fixture.socket_down Fixture.across_down "arbitrum" "ethereum"
    AddressZero 5000000000000000000 = 25000000000000000.
Proof.
  apply (getBridgeFee_fallback config Fixture.socket_down Fixture.across_down
           "arbitrum" "ethereum" AddressZero 5000000000000000000);
    intros _; eexists; reflexivity.
Defined.

(** X7: between any two of the configured networks, [getBridgingTime]
    (with a [connext] entry in the configuration) is the same in both
    directions and lies between 10 and 30 minutes, whichever bridges are
    enabled. *)
Theorem getBridgingTime_symmetric cfg (connext : bool) (a b : string) :
  In a config_enabledNetworks -> In b config_enabledNetworks ->
  getBridgingTime cfg (Some connext) a b = getBridgingTime cfg (Some connext) b a
  /\ exists t, getBridgingTime cfg (Some connext) a b = Ok t
               /\ JS.le (JS.ofZ 10) t = true /\ JS.le t (JS.ofZ 30) = true.
Proof.
  unfold config_enabledNetworks. cbn [In].
  intros Ha Hb. unfold getBridgingTime.
  destruct (bridges_across_enabled cfg), connext;
    repeat (destruct Ha as [<- | Ha]; [| try contradiction]);
    repeat (destruct Hb as [<- | Hb]; [| try contradiction]);
    (split; [vm_compute; reflexivity
            | eexists; split; [vm_compute; reflexivity | split; vm_compute; reflexivity]]).
Qed.

Lemma getBridgingTime_symmetric_witness :
  getBridgingTime config (Some true) "arbitrum" "polygon"
  = getBridgingTime config (Some true) "polygon" "arbitrum"
  /\ getBridgingTime config (Some true) "arbitrum" "polygon" = Ok (JS.ofZ 20).
Proof.
  destruct (getBridgingTime_symmetric config true "arbitrum" "polygon") as [H _];
    [cbn; tauto | cbn; tauto |].
  split; [exact H | reflexivity].
Defined.

(** X8: [config.bridges] has no [connext] entry, so [getBridgingTime]
    throws on reading its [enabled] flag, and [getBestArbitrageStrategy],
    which rethrows what it catches, returns no strategy for any
    opportunity, whatever the swap and bridge adapters answer. *)
Theorem getBestArbitrageStrategy_without_connext cfg gas fee (o : Opportunity) :
  exists msg,
    getBestArbitrageStrategy cfg gas fee (getBridgingTime cfg config_bridges_connext) o
    = Throw msg.
Proof.
  unfold getBestArbitrageStrategy.
  destruct (JS.parseEther _) as [size |]; cbn [mbind result_bind];
    [| eexists; reflexivity].
  destruct (gas (buyNetwork o) _ _ _) as [g1 |]; cbn [mbind result_bind];
    [| eexists; reflexivity].
  destruct (gas (sellNetwork o) _ _ _) as [g2 |]; cbn [mbind result_bind];
    [| eexists; reflexivity].
  destruct (fee _ _ _ _) as [f |]; cbn [mbind result_bind];
    [| eexists; reflexivity].
  eexists. reflexivity.
Qed.

(** ** Wallet balances *)

Lemma formatEther_nonempty (z : Z) : String.eqb (JS.formatEther z) "" = false.
Proof.
  unfold JS.formatEther. cbv zeta.
  destruct (string_of_N_nonempty (Z.to_N (Z.abs z / JS.ether))) as (c & r & -> & _).
  destruct (z <? 0); reflexivity.
Qed.

(** The entry [checkWalletBalances] has for a network. *)
Lemma checkWalletBalances_fold (wallets : JsObject string)
    (getBalance : string -> result Z) (n : string) (ns : list string)
    (acc : JsObject Balance) :
  obj_get n
    (fold_left
       (fun balances network =>
          match obj_get network wallets with
          | None => balances
          | Some _ =>
              match getBalance network with
              | Ok balance =>
                  obj_set network
                    {| balance_wei := BN.toString balance;
                       balance_eth := JS.formatEther balance |} balances
              | Throw _ =>
                  obj_set network {| balance_wei := "0"; balance_eth := "0" |} balances
              end
          end) ns acc)
  = if existsb (String.eqb n) ns
       && match obj_get n wallets with Some _ => true | None => false end
    then Some match getBalance n with
              | Ok balance => {| balance_wei := BN.toString balance;
                                 balance_eth := JS.formatEther balance |}
              | Throw _ => {| balance_wei := "0"; balance_eth := "0" |}
              end
    else obj_get n acc.
Proof.
  revert acc. induction ns as [| m ns IH]; intros acc; [reflexivity |].
  cbn [fold_left existsb]. rewrite IH. clear IH.
  destruct (String.eqb_spec n m) as [<- | Hne]; cbn [orb].
  - destruct (obj_get n wallets) as [a |]; [| now rewrite !andb_false_r].
    rewrite andb_true_r.
    destruct (existsb (String.eqb n) ns); [reflexivity |].
    destruct (getBalance n); now rewrite obj_get_set_eq.
  - destruct (existsb (String.eqb n) ns
              && match obj_get n wallets with Some _ => true | None => false end);
      [reflexivity |].
    destruct (obj_get m wallets); [| reflexivity].
    destruct (getBalance m); now rewrite obj_get_set_ne.
Qed.

Lemma checkWalletBalances_entry enabledNetworks (wallets : JsObject string)
    (getBalance : string -> result Z) (n : string) :
  obj_get n (checkWalletBalances enabledNetworks wallets getBalance)
  = if existsb (String.eqb n) enabledNetworks
       && match obj_get n wallets with Some _ => true | None => false end
    then Some match getBalance n with
              | Ok balance => {| balance_wei := BN.toString balance;
                                 balance_eth := JS.formatEther balance |}
              | Throw _ => {| balance_wei := "0"; balance_eth := "0" |}
              end
    else None.
Proof. unfold checkWalletBalances. now rewrite checkWalletBalances_fold. Qed.

Lemma balance_read_back enabledNetworks (wallets : JsObject string)
    (getBalance : string -> result Z) (n : string) :
  JS.parseEther
    (balance_eth_or_zero (checkWalletBalances enabledNetworks wallets getBalance) n)
  = Ok (if existsb (String.eqb n) enabledNetworks
           && match obj_get n wallets with Some _ => true | None => false end
        then match getBalance n with Ok balance => balance | Throw _ => 0 end
        else 0).
Proof.
  unfold balance_eth_or_zero. rewrite checkWalletBalances_entry.
  destruct (existsb (String.eqb n) enabledNetworks
            && match obj_get n wallets with Some _ => true | None => false end);
    [| reflexivity].
  destruct (getBalance n) as [b |]; cbn [balance_eth]; [| reflexivity].
  rewrite formatEther_nonempty. apply parseEther_formatEther.
Qed.

(** X9: [checkWalletBalances] has an entry exactly for the enabled
    networks that have a wallet, and the executor reads back from it, in
    wei, the balance the wallet reported: zero when the network has no
    entry or its balance could not be read. *)
Theorem checkWalletBalances_read_back enabledNetworks (wallets : JsObject string)
    (getBalance : string -> result Z) (n : string) :
  let balances := checkWalletBalances enabledNetworks wallets getBalance in
  (is_Some (obj_get n balances) <->
   In n enabledNetworks /\ is_Some (obj_get n wallets))
  /\ JS.parseEther (balance_eth_or_zero balances n)
     = Ok (if existsb (String.eqb n) enabledNetworks
              && match obj_get n wallets with Some _ => true | None => false end
           then match getBalance n with Ok balance => balance | Throw _ => 0 end
           else 0).
Proof.
  intros balances. subst balances. split; [| apply balance_read_back].
  rewrite checkWalletBalances_entry. split.
  - destruct (existsb (String.eqb n) enabledNetworks) eqn:Hex; cbn [andb];
      [| intros [x [=]]].
    apply existsb_exists in Hex as (m & Hm & E). apply String.eqb_eq in E as <-.
    destruct (obj_get n wallets); [eauto | intros [x [=]]].
  - intros [Hin [a ->]].
    assert (existsb (String.eqb n) enabledNetworks = true) as ->; [| eauto].
    apply existsb_exists. exists n. split; [exact Hin | apply String.eqb_refl].
Qed.

(** ** The execution engine: simulated and live runs *)




(** X11: even a simulated run asks for the signer of the sell network
    before it bridges: without a wallet there it halts at step 2, after a
    buy step reported successful, and no trade is simulated further. *)
Theorem executeArbitrageStrategy_simulated_needs_wallet cfg balances wallets swap
    bridge (strategy : Strategy) (startBalances : JsObject Balance) :
  let o := opportunity strategy in
  let e := executeArbitrageStrategy cfg balances (getSigner wallets) swap bridge
             strategy true in
  balances 0%nat = Ok startBalances ->
  obj_get (sellNetwork o) wallets = None ->
  exec_status e = "failed"
  /\ exec_error e
     = Some ("Failed at step 2: Wallet not initialized for network: "
             +:+ sellNetwork o)
  /\ option_map (map step_status) (exec_steps e) = Some ["success"; "failed"]
  /\ exec_pnl e = None.
Proof.
  intros o e Hbal Hnone. subst e. unfold executeArbitrageStrategy.
  rewrite Hbal. fold o. unfold try_buy, try_bridge. fold o.
  cbn [mbind result_bind]. unfold getSigner. rewrite Hnone.
  cbn [mbind result_bind]. repeat split.
Qed.

Lemma executeArbitrageStrategy_simulated_needs_wallet_witness :
  let e := executeArbitrageStrategy config Fixture.checkWalletBalances
             (getSigner Fixture.wallets) Sample.executeSwap Sample.bridgeTokens
             Fixture.strategy_optimism true in
  obj_get "optimism" Fixture.wallets = None
  /\ exec_status e = "failed"
  /\ option_map (map step_status) (exec_steps e) = Some ["success"; "failed"].
Proof.
  destruct (executeArbitrageStrategy_simulated_needs_wallet config
              Fixture.checkWalletBalances Fixture.wallets Sample.executeSwap
              Sample.bridgeTokens Fixture.strategy_optimism
              (checkWalletBalances config_enabledNetworks Fixture.wallets
                 (Fixture.getBalance 0%nat)))
    as (Hs & _ & Hsteps & _); [reflexivity | reflexivity |].
  cbv zeta. split; [reflexivity | split; assumption].
Defined.

(** The token check of [bridgeTokens] never passes the zero address when
    no configured token is deployed at it. *)
Lemma bridge_supported_zero_address lsdTokens (source destination : string) :
  (forall t n a, In t lsdTokens -> In (n, a) (addresses t) ->
                 toLowerCase a <> AddressZero) ->
  bridge_supported lsdTokens source destination AddressZero = false.
Proof.
  intros Hzero. unfold bridge_supported.
  destruct (List.find _ lsdTokens) as [t |] eqn:Efind; [| reflexivity].
  apply find_some in Efind as [Hin Hmatch].
  destruct (obj_get source (addresses t)) as [a |] eqn:Ea; [| discriminate Hmatch].
  apply String.eqb_eq in Hmatch. exfalso.
  apply (Hzero t source a Hin); [| exact Hmatch].
  clear -Ea. induction (addresses t) as [| [k v] l IH]; [discriminate Ea |].
  cbn [obj_get] in Ea. destruct (String.eqb_spec source k) as [-> | Hne].
  - injection Ea as ->. now left.
  - right. now apply IH.
Qed.

(** X12: a live run of the standard path never ends in success. Its last
    step asks [bridgeTokens] to bridge ETH, the zero address, and the token
    check that opens [bridgeTokens] refuses an address that no configured
    token has: whatever the chain and the adapters do, the execution
    returned is failed and carries no PnL. *)
Theorem executeArbitrageStrategy_live_never_succeeds cfg lsdTokens provider socket
    across details balances signer swap (strategy : Strategy) :
  (forall t n a, In t lsdTokens -> In (n, a) (addresses t) ->
                 toLowerCase a <> AddressZero) ->
  let e := executeArbitrageStrategy cfg balances signer swap
             (bridgeTokens cfg lsdTokens provider socket across details)
             strategy false in
  exec_status e = "failed" /\ is_Some (exec_error e) /\ exec_pnl e = None.
Proof.
  intros Hzero e. subst e. unfold executeArbitrageStrategy.
  destruct (balances 0%nat) as [startBalances |]; [| repeat split; eauto].
  destruct (try_buy _ _ _ _ _) as [[r1 g1] |]; [| repeat split; eauto].
  destruct (try_bridge _ _ _ _ _) as [[r2 g2] |]; [| repeat split; eauto].
  destruct (try_sell _ _ _ _ _) as [[r3 g3] |]; [| repeat split; eauto].
  assert (Hback : exists msg,
            try_bridge_back signer
              (bridgeTokens cfg lsdTokens provider socket across details)
              strategy false = Throw msg).
  { unfold try_bridge_back.
    destruct (signer _) as [recipient |]; cbn [mbind result_bind]; [| eauto].
    unfold bridgeTokens. rewrite bridge_supported_zero_address by exact Hzero.
    cbn [negb mbind result_bind]. eauto. }
  destruct Hback as [msg ->]. repeat split; eauto.
Qed.

Lemma tokens_lsdTokens_no_zero_address (t : Token) (n a : string) :
  In t tokens_lsdTokens -> In (n, a) (addresses t) -> toLowerCase a <> AddressZero.
Proof.
  unfold tokens_lsdTokens. cbn [In]. intros Ht Ha.
  repeat (destruct Ht as [<- | Ht]; [
    cbn [addresses In] in Ha;
    repeat (destruct Ha as [[= <- <-] | Ha]; [vm_compute; discriminate |]);
    contradiction |]).
  contradiction.
Qed.

Lemma executeArbitrageStrategy_live_never_succeeds_witness :
  exec_status
    (executeArbitrageStrategy config Sample.checkWalletBalances Sample.getSigner
       Sample.executeSwap
       (bridgeTokens config tokens_lsdTokens Sample.confirmed Sample.submitSocket
          Sample.submitAcross Sample.socketDetails)
       Sample.strategy false) = "failed".
Proof.
  apply (executeArbitrageStrategy_live_never_succeeds config tokens_lsdTokens
           Sample.confirmed Sample.submitSocket Sample.submitAcross
           Sample.socketDetails Sample.checkWalletBalances Sample.getSigner
           Sample.executeSwap Sample.strategy tokens_lsdTokens_no_zero_address).
Defined.

(** ** Flash loans *)

(** X13: the flash-loan module is single-use. With flash loans enabled,
    a call of [executeFlashLoan] leaves the module state [COMPLETED] or
    [FAILED], never [INACTIVE], and nothing resets it: every later call
    throws "Another flash loan is already in progress" without reaching
    the lending pool or running its callback. *)
Theorem executeFlashLoan_single_use {S : Type} cfg pool (st st1 : FlashLoanState)
    network tokenAddr (amount : Z) callback (s s1 : S) r1
    network' tokenAddr' (amount' : Z) callback' :
  flashLoanEnabled cfg = true ->
  executeFlashLoan cfg pool st network tokenAddr amount callback s = (st1, s1, r1) ->
  st1 <> INACTIVE
  /\ executeFlashLoan cfg pool st1 network' tokenAddr' amount' callback' s1
     = (FAILED, s1, Throw "Another flash loan is already in progress").
Proof.
  intros Hen Hfirst.
  assert (Hst : st1 = COMPLETED \/ st1 = FAILED).
  { unfold executeFlashLoan in Hfirst. rewrite Hen in Hfirst. cbn [negb] in Hfirst.
    destruct (negb (FlashLoanState_eqb st INACTIVE)); [injection Hfirst; auto |].
    destruct (pool network tokenAddr amount) as [[hash receipt] |];
      [| injection Hfirst; auto].
    destruct (callback tokenAddr amount s). injection Hfirst; auto. }
  unfold executeFlashLoan. rewrite Hen. cbn [negb].
  destruct Hst as [-> | ->]; split; (discriminate || reflexivity).
Qed.

Lemma executeFlashLoan_single_use_witness :
  executeFlashLoan config Sample.flashLoan COMPLETED "arbitrum" AddressZero
    (100 * JS.ether)
    (flashLoanCallback config Sample.executeSwap Sample.strategy5 false "")
    (fst (flashLoanCallback config Sample.executeSwap Sample.strategy5 false ""
            AddressZero (100 * JS.ether) []))
  = (FAILED,
     fst (flashLoanCallback config Sample.executeSwap Sample.strategy5 false ""
            AddressZero (100 * JS.ether) []),
     Throw "Another flash loan is already in progress").
Proof.
  refine (proj2 (executeFlashLoan_single_use config Sample.flashLoan INACTIVE
                   COMPLETED "arbitrum" AddressZero (100 * JS.ether)
                   (flashLoanCallback config Sample.executeSwap Sample.strategy5
                      false "")
                   [] _ _ "arbitrum" AddressZero (100 * JS.ether)
                   (flashLoanCallback config Sample.executeSwap Sample.strategy5
                      false "")
                   eq_refl _)).
  reflexivity.
Defined.

(** X14: a live flash-loan run is reported successful only if the
    flash-loan module was still [INACTIVE] (no loan ran before it), the
    recommended trade size converts to wei, and the expected proceeds
    cover that principal plus the 0.09% fee. The module is then left
    [COMPLETED], and the execution carries the non-negative
    [proceeds - principal - fee] as [profit] and no [pnl]. *)
Theorem executeFlashLoanArbitrage_live_success cfg swap pool (st st' : FlashLoanState)
    (strategy : Strategy) (e : Execution) :
  let p := profitability (opportunity strategy) in
  executeFlashLoanArbitrage cfg swap pool st strategy false = (st', e) ->
  exec_status e = "success" ->
  st = INACTIVE /\ st' = COMPLETED
  /\ exists principal,
       JS.parseEther (optimalTradeSize p) = Ok principal
       /\ principal + calculateFlashLoanFee principal <= expectedEthFromSellWei p
       /\ exec_profit e
          = Some (JS.formatEther (expectedEthFromSellWei p - principal
                                  - calculateFlashLoanFee principal))
       /\ exec_pnl e = None.
Proof.
  intros p Hrun Hok. unfold executeFlashLoanArbitrage in Hrun. fold p in Hrun.
  destruct (flashLoanEnabled cfg) eqn:Hen; cbn [negb] in Hrun;
    [| injection Hrun as <- <-; discriminate Hok].
  destruct (JS.parseEther (optimalTradeSize p)) as [principal |] eqn:Hparse;
    [| injection Hrun as <- <-; discriminate Hok].
  unfold executeFlashLoan in Hrun. rewrite Hen in Hrun. cbn [negb] in Hrun.
  destruct (FlashLoanState_eqb st INACTIVE) eqn:Hst; cbn [negb] in Hrun;
    [| injection Hrun as <- <-; discriminate Hok].
  destruct (pool _ _ _) as [[hash receipt] |];
    [| injection Hrun as <- <-; discriminate Hok].
  destruct (flashLoanCallback cfg swap strategy false _ AddressZero principal [])
    as [steps cb] eqn:Ecb.
  injection Hrun as <- <-. cbn [exec_status fl_callbackResult] in Hok.
  destruct (cb_success cb) eqn:Hcb; [| discriminate Hok].
  split; [destruct st; (reflexivity || discriminate Hst) |]. split; [reflexivity |].
  exists principal. split; [reflexivity |].
  unfold flashLoanCallback in Ecb. fold p in Ecb.
  destruct (swap _ _ _ _ _) as [buyResult |];
    [| injection Ecb as <- <-; discriminate Hcb].
  destruct (canRepayFlashLoan principal (expectedEthFromSellWei p)) eqn:Hrepay;
    cbn [negb] in Ecb; [| injection Ecb as <- <-; discriminate Hcb].
  injection Ecb as <- <-. apply canRepayFlashLoan_spec in Hrepay.
  split; [exact Hrepay |]. cbn.
  split; [do 2 f_equal; lia | reflexivity].
Qed.

Lemma executeFlashLoanArbitrage_live_success_witness :
  let run := executeFlashLoanArbitrage config Sample.executeSwap Sample.flashLoan
               INACTIVE Sample.strategy100 false in
  exec_status (snd run) = "success"
  /\ fst run = COMPLETED
  /\ exec_pnl (snd run) = None.
Proof.
  intros run.
  assert (Hok : exec_status (snd run) = "success") by (vm_compute; reflexivity).
  destruct (executeFlashLoanArbitrage_live_success config Sample.executeSwap
              Sample.flashLoan INACTIVE (fst run) Sample.strategy100 (snd run)
              (surjective_pairing run) Hok)
    as (_ & Hst & principal & _ & _ & _ & Hpnl).
  split; [exact Hok |]. split; [exact Hst | exact Hpnl].
Defined.

(** ** The PnL ledger: history pages, breakdowns, reloading *)

Lemma descending_lookup (l : list Trade) : descending l -> newest_first_sorted l.
Proof.
  induction l as [| x r IH]; intros Hd i j a b Hij Ha Hb.
  - discriminate Ha.
  - destruct Hd as [Hx Hr]. destruct j as [| j]; [lia |]. cbn in Hb.
    destruct i as [| i].
    + injection Ha as <-. rewrite Forall_forall in Hx. apply Hx.
      eapply list_elem_of_lookup_2. exact Hb.
    + cbn in Ha. apply (IH Hr i j); [lia | assumption | assumption].
Qed.

Lemma descending_sublist (l1 l2 : list Trade) :
  sublist l1 l2 -> descending l2 -> descending l1.
Proof.
  induction 1 as [| x l1 l2 Hsub IH | x l1 l2 Hsub IH]; intros Hd.
  - exact I.
  - destruct Hd as [Hx Hr]. split; [| now apply IH].
    rewrite Forall_forall in *. intros y Hy. apply Hx.
    eapply elem_of_sublist; eassumption.
  - destruct Hd as [_ Hr]. now apply IH.
Qed.

Lemma insert_sorted_perm {A} (after : A -> A -> bool) (x : A) (l : list A) :
  insert_sorted after x l ≡ₚ x :: l.
Proof.
  induction l as [| y l IH]; [reflexivity |].
  cbn [insert_sorted]. destruct (after x y); [| reflexivity].
  rewrite IH. apply Permutation_swap.
Qed.

Lemma stable_sort_perm {A} (after : A -> A -> bool) (l : list A) :
  stable_sort after l ≡ₚ l.
Proof.
  unfold stable_sort. induction l as [| x l IH]; [reflexivity |].
  cbn [foldr]. rewrite insert_sorted_perm. now rewrite IH.
Qed.

Lemma insert_sorted_descending (x : Trade) (l : list Trade) :
  descending l -> descending (insert_sorted newer_first x l).
Proof.
  induction l as [| y l IH]; intros Hd; [repeat constructor |].
  destruct Hd as [Hy Hl]. cbn [insert_sorted]. unfold newer_first at 1.
  destruct (0 <? trade_timestamp y - trade_timestamp x) eqn:E.
  - apply Z.ltb_lt in E. split; [| now apply IH].
    rewrite Forall_forall in *. intros z Hz.
    rewrite insert_sorted_perm in Hz.
    apply elem_of_cons in Hz as [-> | Hz]; [lia |].
    now apply Hy.
  - apply Z.ltb_ge in E. split; [| split; assumption].
    constructor; [lia |]. rewrite Forall_forall in *. intros z Hz.
    specialize (Hy z Hz). cbn beta in Hy. lia.
Qed.

Lemma stable_sort_descending (l : list Trade) : descending (stable_sort newer_first l).
Proof.
  unfold stable_sort. induction l as [| x l IH]; [exact I |].
  cbn [foldr]. now apply insert_sorted_descending.
Qed.

Lemma list_slice_sublist {A} (start stop : Z) (l : list A) :
  sublist (list_slice start stop l) l.
Proof.
  unfold list_slice. etransitivity; [apply sublist_take | apply sublist_drop].
Qed.

(** What a call of [getTradeHistory] leaves in the store. *)
Lemma getTradeHistory_content (limit offset : Z) (w : Ledger) :
  is_Some (store w !! trades (tracker w)) ->
  let w' := fst (getTradeHistory limit offset w) in
  let page := snd (getTradeHistory limit offset w) in
  page_total page = Z.of_nat (length (stable_sort newer_first (ledger_trades w)))
  /\ Array_read (store w') (page_trades page)
     = list_slice offset (offset + limit) (stable_sort newer_first (ledger_trades w)).
Proof.
  intros H0. unfold getTradeHistory, Array_spread, Array_sort, Array_slice,
    Array_alloc, ledger_trades. cbn.
  rewrite !Array_read_insert_eq. split; reflexivity.
Qed.

(** X15: the page [getTradeHistory] returns is a window of the recorded
    trades sorted newest first: its total is the number of recorded
    trades, no trade is shown before a more recent one, every trade shown
    is a recorded one (as often as it was recorded), at most [limit]
    trades are shown, and the first page of a large enough limit shows
    them all. *)
Theorem getTradeHistory_page (limit offset : Z) (w : Ledger) :
  is_Some (store w !! trades (tracker w)) ->
  let w' := fst (getTradeHistory limit offset w) in
  let page := snd (getTradeHistory limit offset w) in
  let shown := Array_read (store w') (page_trades page) in
  page_total page = Z.of_nat (length (ledger_trades w))
  /\ newest_first_sorted shown
  /\ shown ⊆+ ledger_trades w
  /\ (0 <= offset -> 0 <= limit -> Z.of_nat (length shown) <= limit)
  /\ (offset = 0 -> Z.of_nat (length (ledger_trades w)) <= limit ->
      shown ≡ₚ ledger_trades w).
Proof.
  intros Halloc w' page shown.
  destruct (getTradeHistory_content limit offset w Halloc) as [Htotal Hshown].
  fold w' page in Htotal, Hshown. fold shown in Hshown.
  pose proof (stable_sort_perm newer_first (ledger_trades w)) as Hperm.
  split; [rewrite Htotal; now rewrite Hperm |].
  split.
  { rewrite Hshown. apply descending_lookup.
    eapply descending_sublist; [apply list_slice_sublist | apply stable_sort_descending]. }
  split.
  { rewrite Hshown. etransitivity; [apply sublist_submseteq, list_slice_sublist |].
    now rewrite Hperm. }
  split.
  - intros Hoff Hlim. rewrite Hshown. unfold list_slice, slice_index.
    replace (offset <? 0) with false by (symmetry; apply Z.ltb_ge; lia).
    replace (offset + limit <? 0) with false by (symmetry; apply Z.ltb_ge; lia).
    etransitivity; [apply inj_le, firstn_le_length |]. lia.
  - intros -> Hlen. rewrite Hshown. etransitivity; [| exact Hperm].
    rewrite <- (Permutation_length Hperm) in Hlen.
    unfold list_slice, slice_index. rewrite Z.add_0_l.
    replace (0 <? 0) with false by reflexivity.
    replace (limit <? 0) with false by (symmetry; apply Z.ltb_ge; lia).
    set (sorted := stable_sort newer_first (ledger_trades w)) in *.
    replace (Z.min 0 (Z.of_nat (length sorted))) with 0 by lia.
    replace (Z.min limit (Z.of_nat (length sorted)))
      with (Z.of_nat (length sorted)) by lia.
    rewrite Z.sub_0_r, Z.max_l by lia.
    rewrite Nat2Z.id. change (Z.to_nat 0) with 0%nat.
    cbn [skipn]. now rewrite firstn_all.
Qed.

Lemma getTradeHistory_page_witness :
  let w := record_all
             [ (1700000000000,
                executeArbitrageStrategy config Sample.checkWalletBalances
                  Sample.getSigner Sample.executeSwap Sample.bridgeTokens
                  Sample.strategy true);
               (1700000060000,
                executeArbitrageStrategy config Sample.checkWalletBalances
                  Sample.getSigner Sample.executeSwap Sample.bridgeTokens
                  Sample.strategy false) ]
             (PnLTracker_new ∅ (JS.ofZ 10) None None) in
  let shown := Array_read (store (fst (getTradeHistory 1 0 w)))
                 (page_trades (snd (getTradeHistory 1 0 w))) in
  is_Some (store w !! trades (tracker w))
  /\ page_total (snd (getTradeHistory 1 0 w)) = Z.of_nat (length (ledger_trades w))
  /\ shown ⊆+ ledger_trades w
  /\ map trade_id shown = [2].
Proof.
  intros w shown.
  assert (Halloc : is_Some (store w !! trades (tracker w)))
    by (vm_compute; eexists; reflexivity).
  split; [exact Halloc |].
  destruct (getTradeHistory_page 1 0 w Halloc) as (Htotal & _ & Hsub & _).
  split; [exact Htotal |]. split; [exact Hsub |].
  vm_compute. reflexivity.
Defined.

Lemma performance_step_other (key k : string) (trade : Trade) (pnl : PnL)
    (table : JsObject Performance) :
  k <> key -> obj_get k (performance_step key trade pnl table) = obj_get k table.
Proof.
  intros Hne. unfold performance_step.
  destruct (obj_get key table) as [entry |];
    [| destruct (inherited key); [reflexivity |]];
    now apply obj_get_set_ne.
Qed.

(** The own entry of a token in the per-token breakdown, after the loop
    has run over [ts]. *)
Lemma tokenPerformance_fold (k : string) (ts : list Trade) :
  k <> "" ->
  let n := length (List.filter (counted_for_token k) ts) in
  let s := length (List.filter
                     (fun t => counted_for_token k t
                               && String.eqb (trade_status t) "success") ts) in
  match obj_get k (tokenPerformance_of ts) with
  | Some perf =>
      inherited k = false
      /\ (0 < n)%nat /\ perf_trades perf = Z.of_nat n
      /\ perf_successfulTrades perf = Z.of_nat s
  | None => inherited k = true \/ n = 0%nat
  end.
Proof.
  intros Hk. induction ts as [| t ts IH] using rev_ind; [now right |].
  unfold tokenPerformance_of in *. rewrite fold_left_app. cbn [fold_left].
  rewrite !List.filter_app, !length_app. cbn [List.filter].
  cbv zeta in IH.
  match type of IH with context [obj_get k ?T] => set (table := T) in * end.
  destruct (counted_for_token k t) eqn:Ec; unfold counted_for_token in Ec;
    cbn [andb length].
  - destruct (trade_pnl t) as [pnl |]; [| discriminate Ec].
    apply String.eqb_eq in Ec. rewrite Ec.
    destruct (String.eqb_spec k "") as [Hempty | _]; [contradiction |].
    cbn [negb]. unfold performance_step.
    destruct (obj_get k table) as [perf |] eqn:Eentry.
    + rewrite obj_get_set_eq. cbn [perf_trades perf_successfulTrades].
      destruct IH as (Hown & Hpos & Hn & Hs). rewrite Hn, Hs.
      destruct (String.eqb (trade_status t) "success"); cbn [length];
        repeat split; try assumption; lia.
    + destruct (inherited k) eqn:Hinh; [rewrite Eentry; now left |].
      rewrite obj_get_set_eq. cbn [perf_trades perf_successfulTrades].
      destruct IH as [IH | IH]; [discriminate IH |]. rewrite IH.
      assert (Hsub : length (List.filter
                (fun t0 => counted_for_token k t0
                           && String.eqb (trade_status t0) "success") ts) = 0%nat).
      { clear -IH. induction ts as [| a ts IHts]; [reflexivity |].
        cbn [List.filter] in *. destruct (counted_for_token k a); cbn [andb];
          [discriminate IH | now apply IHts]. }
      rewrite Hsub.
      destruct (String.eqb (trade_status t) "success"); cbn [length];
        repeat split; lia.
  - rewrite !Nat.add_0_r.
    destruct (trade_pnl t) as [pnl |]; [| exact IH].
    destruct (String.eqb_spec (trade_token t) "") as [_ | _]; cbn [negb];
      [exact IH |].
    rewrite performance_step_other; [exact IH |].
    intros E. rewrite E, String.eqb_refl in Ec. discriminate Ec.
Qed.

(** X16: the per-token breakdown of [getSummary] has an own entry for a
    token symbol exactly when the symbol is not the name of a property
    inherited from [Object.prototype] and some recorded trade of that token
    carries a [pnl]; the entry counts those trades, and among them the
    successful ones. A symbol such as "constructor" never gets an entry. *)
Theorem getSummary_tokenPerformance (w : Ledger) (k : string) :
  k <> "" ->
  let counted := List.filter (counted_for_token k) (ledger_trades w) in
  let successful :=
    List.filter (fun t => String.eqb (trade_status t) "success") counted in
  match obj_get k (sum_tokenPerformance (getSummary w)) with
  | Some perf =>
      inherited k = false
      /\ counted <> []
      /\ perf_trades perf = Z.of_nat (length counted)
      /\ perf_successfulTrades perf = Z.of_nat (length successful)
      /\ perf_successfulTrades perf <= perf_trades perf
  | None => inherited k = true \/ counted = []
  end.
Proof.
  intros Hk counted successful.
  pose proof (tokenPerformance_fold k (ledger_trades w) Hk) as H. cbv zeta in H.
  change (sum_tokenPerformance (getSummary w))
    with (tokenPerformance_of (ledger_trades w)).
  assert (Hsucc : length successful
                  = length (List.filter
                      (fun t => counted_for_token k t
                                && String.eqb (trade_status t) "success")
                      (ledger_trades w))).
  { subst successful counted. clear. induction (ledger_trades w) as [| a l IH];
      [reflexivity |]. cbn [List.filter].
    destruct (counted_for_token k a); cbn [andb List.filter]; [| exact IH].
    destruct (String.eqb (trade_status a) "success"); cbn [length]; now rewrite IH. }
  fold counted in H. rewrite <- Hsucc in H.
  destruct (obj_get k (tokenPerformance_of (ledger_trades w))) as [perf |].
  - destruct H as (Hown & Hpos & Hn & Hs). split; [exact Hown |].
    split; [intros E; rewrite E in Hpos; cbn in Hpos; lia |].
    split; [exact Hn |]. split; [exact Hs |]. rewrite Hn, Hs.
    apply inj_le. subst successful. apply filter_length_le.
  - destruct H as [H | H]; [now left | right; now apply length_zero_iff_nil].
Qed.

Lemma getSummary_tokenPerformance_witness :
  let w := record_all
             [ (1700000000000,
                executeArbitrageStrategy config Sample.checkWalletBalances
                  Sample.getSigner Sample.executeSwap Sample.bridgeTokens
                  Sample.strategy true);
               (1700000060000,
                executeArbitrageStrategy config Sample.checkWalletBalances
                  Sample.getSigner Sample.executeSwap Sample.bridgeTokens
                  Sample.strategy false) ]
             (PnLTracker_new ∅ (JS.ofZ 10) None None) in
  (exists perf,
     obj_get "stETH" (sum_tokenPerformance (getSummary w)) = Some perf
     /\ perf_trades perf = 1 /\ perf_successfulTrades perf <= perf_trades perf)
  /\ obj_get "constructor" (sum_tokenPerformance (getSummary w)) = None.
Proof.
  intros w. split.
  - assert (Hk : "stETH" <> "") by discriminate.
    pose proof (getSummary_tokenPerformance w "stETH" Hk) as H. cbv zeta in H.
    destruct (obj_get "stETH" (sum_tokenPerformance (getSummary w)))
      as [perf |] eqn:E.
    + exists perf. destruct H as (_ & _ & Hn & _ & Hle).
      split; [reflexivity |]. split; [| exact Hle].
      rewrite Hn. vm_compute. reflexivity.
    + exfalso. destruct H as [H | H]; vm_compute in H; discriminate H.
  - assert (Hk : "constructor" <> "") by discriminate.
    pose proof (getSummary_tokenPerformance w "constructor" Hk) as H. cbv zeta in H.
    destruct (obj_get "constructor" (sum_tokenPerformance (getSummary w)))
      as [perf |]; [| reflexivity].
    destruct H as (H & _). vm_compute in H. discriminate H.
Defined.

(** One call of [recordTrade] keeps the balance on the last point of the
    PnL history. *)
Lemma recordTrade_last_balance (now : Z) (execution : Execution) (w : Ledger)
    (init : JS.number) :
  currentBalanceETH (tracker w) = last_balance (pnlHistory (tracker w)) init ->
  let w' := fst (recordTrade now execution w) in
  currentBalanceETH (tracker w') = last_balance (pnlHistory (tracker w')) init.
Proof.
  intros Hinv w'.
  destruct (recordTrade_step now execution w) as (_ & _ & _ & _ & Hmove).
  fold w' in Hmove. destruct (advances_balance execution).
  - destruct Hmove as (_ & point & -> & _ & Hpoint).
    unfold last_balance. now rewrite last_snoc.
  - destruct Hmove as [-> ->]. exact Hinv.
Qed.

Lemma record_all_trades (calls : list (Z * Execution)) (w : Ledger) :
  exists added,
    ledger_trades (record_all calls w) = (ledger_trades w ++ added)%list
    /\ map trade_id added
       = map (fun k => Z.of_nat (length (ledger_trades w) + k)) (seq 1 (length calls)).
Proof.
  induction calls as [| call calls IH] using rev_ind.
  - exists []. split; [now rewrite app_nil_r | reflexivity].
  - destruct IH as (added & Htrades & Hids). rewrite record_all_snoc.
    destruct (recordTrade_step (fst call) (snd call) (record_all calls w))
      as (Hgrow & _).
    exists (added ++ [snd (recordTrade (fst call) (snd call) (record_all calls w))])%list.
    split; [rewrite Hgrow, Htrades; now rewrite <- app_assoc |].
    rewrite map_app, Hids, length_app, seq_app, map_app. f_equal.
    cbn [length seq map Nat.add]. f_equal. unfold recordTrade. cbn [snd trade_id].
    destruct (String.eqb _ _); [destruct (exec_pnl _) |]; cbn [snd trade_id];
      rewrite Htrades, length_app;
      apply (f_equal length) in Hids; rewrite !length_map, length_seq in Hids;
      lia.
Qed.

(** X17: a ledger loaded from saved data and then used keeps the
    balance on the last point of its PnL history (the initial balance
    while the history is empty); the loaded trades stay in front, and the
    trades recorded after them are numbered on from the loaded count. A
    tracker constructed from the two lists the ledger holds therefore has
    the same balance, history and trades. *)
Theorem PnLTracker_balance_follows_history (h h' : heap) (init : JS.number)
    (pnlData : option (list PnlPoint)) (tradesData : option (list Trade))
    (calls : list (Z * Execution)) :
  let loaded := default [] tradesData in
  let w := record_all calls (PnLTracker_new h init pnlData tradesData) in
  let again := PnLTracker_new h' init (Some (pnlHistory (tracker w)))
                 (Some (ledger_trades w)) in
  currentBalanceETH (tracker w) = last_balance (pnlHistory (tracker w)) init
  /\ (exists added,
        ledger_trades w = (loaded ++ added)%list
        /\ map trade_id added
           = map (fun k => Z.of_nat (length loaded + k)) (seq 1 (length calls)))
  /\ currentBalanceETH (tracker again) = currentBalanceETH (tracker w)
  /\ pnlHistory (tracker again) = pnlHistory (tracker w)
  /\ ledger_trades again = ledger_trades w.
Proof.
  intros loaded w again.
  assert (Hstart : ledger_trades (PnLTracker_new h init pnlData tradesData) = loaded).
  { unfold PnLTracker_new, ledger_trades, Array_alloc, loaded.
    destruct tradesData as [ts |]; cbn; now rewrite Array_read_insert_eq. }
  assert (Hbalance : currentBalanceETH (tracker w)
                     = last_balance (pnlHistory (tracker w)) init).
  { clear again. subst w. induction calls as [| call calls IH] using rev_ind.
    - unfold record_all, PnLTracker_new, Array_alloc, last_balance. cbn [fold_left].
      destruct tradesData; reflexivity.
    - rewrite record_all_snoc. now apply recordTrade_last_balance. }
  split; [exact Hbalance |]. split.
  { destruct (record_all_trades calls (PnLTracker_new h init pnlData tradesData))
      as (added & Htrades & Hids).
    rewrite Hstart in Htrades, Hids. now exists added. }
  subst again. unfold PnLTracker_new, ledger_trades, Array_alloc. cbn.
  rewrite Array_read_insert_eq. split; [| split; reflexivity].
  symmetry. exact Hbalance.
Qed.

(** ** The bot's counters *)

Lemma executeArbitrage_catch_counters (msg : string) (b : Bot) :
  counters_consistent b -> counters_consistent (executeArbitrage_catch msg b).
Proof.
  unfold counters_consistent, executeArbitrage_catch.
  destruct (activeTrade (botState b)); cbn; intros (He & Hs & Hf & Hl);
    repeat split; lia.
Qed.

Lemma bot_step_counters (b b' : Bot) :
  bot_step b b' -> counters_consistent b -> counters_consistent b'.
Proof.
  intros Hstep Hb. destruct Hstep as [b | b os _ | b o | b i o r _ | b i s now e _ | b _].
  - unfold scanForOpportunities_call. destruct (activeTrade (botState b)); exact Hb.
  - unfold scanForOpportunities_resume. destruct os as [| o os]; [exact Hb |].
    cbn [with_state autoExecute]. destruct (autoExecute b); [| exact Hb].
    destruct (stable_sort _ _) as [| top rest]; [exact Hb |].
    unfold executeArbitrage_call. cbn [botState activeTrade].
    destruct (activeTrade (botState b)); exact Hb.
  - unfold executeArbitrage_call. destruct (activeTrade (botState b)); exact Hb.
  - unfold executeArbitrage_strategy. destruct r as [strategy | msg]; [exact Hb |].
    apply executeArbitrage_catch_counters. exact Hb.
  - unfold executeArbitrage_finish. cbv zeta.
    cbn [remove_task botState pnlTracker autoExecute scanning executing timers].
    destruct (recordTrade_step now e (pnlTracker b)) as (Hgrow & Hstatus & _).
    set (w' := fst (recordTrade now e (pnlTracker b))) in *.
    assert (Hcount :
      Z.of_nat (length (List.filter (fun t => String.eqb (trade_status t) "success")
                          (ledger_trades w')))
      = Z.of_nat (length (List.filter (fun t => String.eqb (trade_status t) "success")
                            (ledger_trades (pnlTracker b))))
        + (if String.eqb (exec_status e) "success" then 1 else 0)).
    { rewrite Hgrow, List.filter_app, length_app.
      cbn [List.filter]. rewrite Hstatus.
      destruct (String.eqb (exec_status e) "success"); cbn [length]; lia. }
    clearbody w'. clear Hgrow Hstatus.
    destruct Hb as (He & Hs & Hf & Hl).
    cbn [remove_task botState pnlTracker autoExecute scanning executing timers].
    destruct (activeTrade (botState b)) as [a |].
    + cbn [with_state botState pnlTracker autoExecute scanning executing timers].
      destruct (String.eqb (exec_status e) "success") eqn:Esuccess.
      * destruct (exec_pnl e) as [pnl |].
        -- unfold counters_consistent.
           cbn [botState pnlTracker count_trade set_activeTrade tradesExecuted
                tradesSuccessful tradesFailed].
           rewrite Hcount. repeat split; lia.
        -- apply executeArbitrage_catch_counters. unfold counters_consistent.
           cbn [with_state botState pnlTracker count_trade set_activeTrade
                tradesExecuted tradesSuccessful tradesFailed].
           rewrite Hcount. repeat split; lia.
      * unfold counters_consistent.
        cbn [botState pnlTracker count_trade set_activeTrade tradesExecuted
             tradesSuccessful tradesFailed].
        rewrite Hcount. repeat split; lia.
    + apply executeArbitrage_catch_counters. unfold counters_consistent.
      cbn [botState pnlTracker]. rewrite Hcount.
      destruct (String.eqb (exec_status e) "success"); repeat split; lia.
  - exact Hb.
Qed.

(** X18: in every state the bot can reach, the trades it counts as
    executed are the successful plus the failed ones, no counter is
    negative, and it counts no more successful trades than its ledger
    holds records with status "success". *)
Theorem bot_counters_consistent (auto : bool) (b : Bot) :
  reachable auto b ->
  let st := botState b in
  tradesExecuted st = tradesSuccessful st + tradesFailed st
  /\ 0 <= tradesSuccessful st
  /\ 0 <= tradesFailed st
  /\ tradesSuccessful st
     <= Z.of_nat (length (List.filter
                            (fun t => String.eqb (trade_status t) "success")
                            (ledger_trades (pnlTracker b)))).
Proof.
  intros Hreach. change (counters_consistent b).
  induction Hreach as [| b b' _ IH Hstep].
  - unfold counters_consistent. cbn. repeat split; lia.
  - exact (bot_step_counters b b' Hstep IH).
Qed.

Lemma bot_counters_consistent_witness :
  let e := executeArbitrageStrategy config Sample.checkWalletBalances
             Sample.getSigner Sample.executeSwap Sample.bridgeTokens
             Sample.strategy true in
  let b1 := executeArbitrage_call Sample.opportunity (initial_bot true) in
  let b2 := executeArbitrage_strategy 0 (Ok Sample.strategy) b1 in
  let b3 := executeArbitrage_finish 0 1700000000000 e b2 in
  reachable true b3
  /\ tradesExecuted (botState b3) = 1
  /\ tradesExecuted (botState b3)
     = tradesSuccessful (botState b3) + tradesFailed (botState b3)
  /\ tradesSuccessful (botState b3)
     <= Z.of_nat (length (List.filter
                            (fun t => String.eqb (trade_status t) "success")
                            (ledger_trades (pnlTracker b3)))).
Proof.
  intros e b1 b2 b3.
  assert (Hreach : reachable true b3).
  { eapply reachable_step; [eapply reachable_step; [eapply reachable_step |] |].
    - apply reachable_initial.
    - apply (step_execute_call _ Sample.opportunity).
    - apply (step_execute_strategy _ 0%nat Sample.opportunity (Ok Sample.strategy)).
      reflexivity.
    - apply (step_execute_finish _ 0%nat Sample.strategy 1700000000000 e).
      reflexivity. }
  destruct (bot_counters_consistent true b3 Hreach) as (Hsum & _ & _ & Hledger).
  split; [exact Hreach |]. split; [vm_compute; reflexivity |].
  split; [exact Hsum | exact Hledger].
Defined.

(** ** The swap router and the Uniswap connector *)

Lemma best_of_spec (others : list Quote) (first : Quote) :
  In (best_of first others) (first :: others)
  /\ forall q, In q (first :: others) ->
               quote_outputAmount q <= quote_outputAmount (best_of first others).
Proof.
  unfold best_of. revert first.
  induction others as [| current others IH]; intros first; cbn [fold_left].
  - split; [now left |]. intros q [<- | []]. lia.
  - destruct (Z.ltb_spec (quote_outputAmount first) (quote_outputAmount current))
      as [Hlt | Hge].
    + destruct (IH current) as [Hin Hmax]. split.
      * right. exact Hin.
      * intros q [Hq | Hq]; [| now apply Hmax].
        subst q. specialize (Hmax current (or_introl eq_refl)). lia.
    + destruct (IH first) as [Hin Hmax]. split.
      * destruct Hin as [<- | Hin]; [now left | right; now right].
      * intros q [Hq | [Hq | Hq]].
        -- apply Hmax. now left.
        -- subst q. specialize (Hmax first (or_introl eq_refl)). lia.
        -- apply Hmax. now right.
Qed.

Lemma collect_quotes_fold getQuote (network from to : string) (amount : Z)
    (names : list string) (acc : list Quote) (q : Quote) :
  In q (fold_left
          (fun quotes exchange =>
             match getQuote exchange network from to amount with
             | Ok (Some quote) => (quotes ++ [quote])%list
             | Ok None => quotes
             | Throw _ => quotes
             end) names acc)
  <-> In q acc
      \/ exists exchange, In exchange names
                          /\ getQuote exchange network from to amount = Ok (Some q).
Proof.
  revert acc. induction names as [| name names IH]; intros acc; cbn [fold_left].
  - split; [now left | intros [H | (e & [] & _)]; exact H].
  - rewrite IH. split.
    + intros [Hacc | (e & He & Hq)].
      * destruct (getQuote name network from to amount) as [[quote |] |] eqn:E;
          try (now left).
        apply in_app_or in Hacc as [Hacc | [<- | []]]; [now left |].
        right. exists name. split; [now left | exact E].
      * right. exists e. split; [now right | exact Hq].
    + intros [Hacc | (e & [<- | He] & Hq)].
      * left. destruct (getQuote name network from to amount) as [[quote |] |];
          try assumption. apply in_or_app. now left.
      * left. rewrite Hq. apply in_or_app. right. now left.
      * right. exists e. split; assumption.
Qed.

Lemma collect_quotes_spec (exchanges : JsObject bool) getQuote
    (network from to : string) (amount : Z) (q : Quote) :
  In q (collect_quotes exchanges getQuote network from to amount)
  <-> exists exchange, In (exchange, true) exchanges
                       /\ getQuote exchange network from to amount = Ok (Some q).
Proof.
  unfold collect_quotes. rewrite collect_quotes_fold. split.
  - intros [[] | (e & He & Hq)]. exists e. split; [| exact Hq].
    apply in_map_iff in He as ([e' enabled] & <- & Hf).
    apply filter_In in Hf as [Hin Hen]. cbn in Hen. now subst enabled.
  - intros (e & He & Hq). right. exists e. split; [| exact Hq].
    apply in_map_iff. exists (e, true). split; [reflexivity |].
    apply filter_In. split; [exact He | reflexivity].
Qed.

(** X19: [getBestQuote] answers with a quote that the connector of an
    enabled exchange gave for the pair (with the input token in place of
    ETH as the output token), and no enabled exchange's connector gave a
    quote with a larger output. It throws when the input token is ETH (the
    zero address), and otherwise only when no enabled exchange gave a
    quote. *)
Theorem getBestQuote_best (exchanges : JsObject bool) getQuote
    (network fromToken toToken : string) (amount : Z) :
  let quoteToToken :=
    if String.eqb toToken AddressZero then fromToken else toToken in
  let offered q :=
    exists exchange,
      In (exchange, true) exchanges
      /\ getQuote exchange network fromToken quoteToToken amount = Ok (Some q) in
  match getBestQuote exchanges getQuote network fromToken toToken amount with
  | Ok best =>
      fromToken <> AddressZero
      /\ offered best
      /\ forall q, offered q -> quote_outputAmount q <= quote_outputAmount best
  | Throw _ => fromToken = AddressZero \/ forall q, ~ offered q
  end.
Proof.
  intros quoteToToken offered. unfold getBestQuote.
  destruct (String.eqb_spec fromToken AddressZero) as [-> | Hne]; [now left |].
  fold quoteToToken.
  pose proof (collect_quotes_spec exchanges getQuote network fromToken quoteToToken
                amount) as Hspec.
  destruct (collect_quotes _ _ _ _ _ _) as [| first others].
  - right. intros q Hq. apply Hspec in Hq. destruct Hq.
  - destruct (best_of_spec others first) as [Hin Hmax].
    split; [exact Hne |]. split; [now apply Hspec |].
    intros q Hq. apply Hmax. now apply Hspec.
Qed.

(** X20: whatever the exchanges answer, the estimate of
    [estimateSwapGasCost] is consistent: its [gasCostEth] parses back to its
    [gasCost], and the estimate is either the default (the configured gas
    limit at the configured maximum fee) or the provider's gas estimate
    at the network's maximum fee per gas, or at its gas price when it has
    no maximum fee. For ETH as the input token it is always
    the default, so the calculator's estimate for the buy leg is the
    default as well. *)
Theorem estimateSwapGasCost_estimate (cfg : Config) (exchanges : JsObject bool)
    getQuote estimateGas (gasSettings : string -> GasSettings)
    (network fromToken toToken : string) (amount : Z) :
  let estimate n f t a :=
    estimateSwapGasCost cfg exchanges getQuote estimateGas gasSettings n f t a in
  let g := estimate network fromToken toToken amount in
  JS.parseEther (gasCostEth g) = Ok (gasCost g)
  /\ (g = default_gas_estimate cfg
      \/ exists price,
           gasCost g = gasEstimate g * price
           /\ (gs_maxFeePerGas (gasSettings network) = Some price
               \/ gs_maxFeePerGas (gasSettings network) = None
                  /\ gs_gasPrice (gasSettings network) = Some price))
  /\ estimate network AddressZero toToken amount = default_gas_estimate cfg
  /\ estimateGasCost cfg (fun n f t a => Ok (estimate n f t a))
       network AddressZero toToken amount
     = default_gas_estimate cfg.
Proof.
  intros estimate g.
  assert (Hzero : estimate network AddressZero toToken amount
                  = default_gas_estimate cfg).
  { unfold estimate, estimateSwapGasCost, getBestQuote.
    now rewrite String.eqb_refl. }
  assert (Hshape : g = default_gas_estimate cfg
      \/ exists price,
           g = {| gasEstimate := gasEstimate g;
                  gasCost := gasEstimate g * price;
                  gasCostEth := JS.formatEther (gasEstimate g * price) |}
           /\ (gs_maxFeePerGas (gasSettings network) = Some price
               \/ gs_maxFeePerGas (gasSettings network) = None
                  /\ gs_gasPrice (gasSettings network) = Some price)).
  { subst g estimate. unfold estimateSwapGasCost.
    destruct (getBestQuote _ _ _ _ _ _) as [bestQuote |]; [| now left].
    cbn [mbind result_bind]. destruct (estimateGas _ _ _ _ _ _ _) as [units |];
      [| now left].
    cbn [mbind result_bind].
    destruct (gs_maxFeePerGas (gasSettings network)) as [maxFee |] eqn:Emax.
    - right. exists maxFee. split; [reflexivity | now left].
    - destruct (gs_gasPrice (gasSettings network)) as [price |] eqn:Eprice.
      + right. exists price. split; [reflexivity | right; now split].
      + now left. }
  split; [| split; [| split]].
  - destruct Hshape as [-> | (price & -> & _)]; cbn [gasCost gasCostEth default_gas_estimate];
      apply parseEther_formatEther.
  - destruct Hshape as [H | (price & H & Hprice)]; [now left |].
    right. exists price. split; [now rewrite H | exact Hprice].
  - exact Hzero.
  - unfold estimateGasCost. exact Hzero.
Qed.

(** X21: [swapper.executeSwap] throws for ETH as the input token before
    any connector is asked, so a live run of [executeArbitrageStrategy]
    over this swapper stops at its first step, the buy: the execution is
    failed with that error, its only step is failed, and no PnL is
    computed. *)
Theorem executeArbitrageStrategy_live_stops_at_buy (cfg : Config)
    (exchanges : JsObject bool) getQuote submitSwap provider balances signer bridge
    (strategy : Strategy) (startBalances : JsObject Balance) :
  let swap := swapper_executeSwap provider
                (executeSwap_submit exchanges getQuote submitSwap) in
  let e := executeArbitrageStrategy cfg balances signer swap bridge strategy false in
  balances 0%nat = Ok startBalances ->
  (forall network toToken amount slippage,
      swap network AddressZero toToken amount slippage
      = Throw "tokens is not defined")
  /\ exec_status e = "failed"
  /\ exec_error e = Some "Failed at step 1: tokens is not defined"
  /\ option_map (map step_status) (exec_steps e) = Some ["failed"]
  /\ exec_pnl e = None.
Proof.
  intros swap e Hbal.
  assert (Hswap : forall network toToken amount slippage,
             swap network AddressZero toToken amount slippage
             = Throw "tokens is not defined").
  { intros. unfold swap, swapper_executeSwap, executeSwap_submit, getBestQuote.
    now rewrite String.eqb_refl. }
  split; [exact Hswap |].
  subst e. unfold executeArbitrageStrategy. rewrite Hbal.
  unfold try_buy. fold swap. rewrite Hswap. cbn [mbind result_bind].
  repeat split.
Qed.

Lemma executeArbitrageStrategy_live_stops_at_buy_witness :
  let e := executeArbitrageStrategy config Sample.checkWalletBalances
             Sample.getSigner
             (swapper_executeSwap Sample.confirmed
                (executeSwap_submit config_exchanges
                   (fun exchange network fromToken toToken amount =>
                      Ok (Some {| quote_exchange := exchange;
                                  quote_fromToken := fromToken;
                                  quote_toToken := toToken;
                                  quote_inputAmount := amount;
                                  quote_outputAmount := amount;
                                  quote_fee := 3000 |}))
                   (fun exchange network fromToken toToken amount minOutput fee =>
                      Ok "0xswap")))
             Sample.bridgeTokens Sample.strategy false in
  exec_status e = "failed"
  /\ exec_error e = Some "Failed at step 1: tokens is not defined".
Proof.
  intros e.
  destruct (executeArbitrageStrategy_live_stops_at_buy config config_exchanges
              (fun exchange network fromToken toToken amount =>
                 Ok (Some {| quote_exchange := exchange;
                             quote_fromToken := fromToken;
                             quote_toToken := toToken;
                             quote_inputAmount := amount;
                             quote_outputAmount := amount;
                             quote_fee := 3000 |}))
              (fun exchange network fromToken toToken amount minOutput fee =>
                 Ok "0xswap")
              Sample.confirmed Sample.checkWalletBalances Sample.getSigner
              Sample.bridgeTokens Sample.strategy
              (match Sample.checkWalletBalances 0%nat with
               | Ok b => b
               | Throw _ => []
               end) eq_refl)
    as (_ & Hstatus & Herror & _).
  split; [exact Hstatus | exact Herror].
Defined.

Lemma better_tier_fold router (fromToken toToken : string) (amount : Z)
    (tiers : list Z) (best : Z * Z) :
  let run := fold_left
               (fun best fee =>
                  better_tier best fee (router fromToken toToken fee amount))
               tiers best in
  fst best <= fst run
  /\ (forall fee out, In fee tiers -> router fromToken toToken fee amount = Ok out ->
                      out <= fst run)
  /\ (run = best
      \/ In (snd run) tiers
         /\ router fromToken toToken (snd run) amount = Ok (fst run)
         /\ fst best < fst run).
Proof.
  revert best. induction tiers as [| tier tiers IH]; intros best; cbn [fold_left].
  - cbv zeta. split; [lia |]. split; [intros fee out [] | now left].
  - cbv zeta. specialize (IH (better_tier best tier (router fromToken toToken tier amount))).
    cbv zeta in IH. destruct IH as (Hle & Hmax & Hwho).
    set (run := fold_left _ tiers _) in *.
    assert (Hstep : fst best
                    <= fst (better_tier best tier (router fromToken toToken tier amount))).
    { unfold better_tier. destruct (router _ _ tier _) as [out |]; [| lia].
      destruct (Z.ltb_spec (fst best) out); cbn [fst]; lia. }
    split; [lia |]. split.
    + intros fee out [<- | Hin] Hout; [| now apply (Hmax fee)].
      unfold better_tier in Hle. rewrite Hout in Hle.
      destruct (Z.ltb_spec (fst best) out); cbn [fst] in Hle; lia.
    + destruct Hwho as [Hrun | (Hin & Hout & Hlt)].
      * rewrite Hrun. unfold better_tier.
        destruct (router _ _ tier _) as [out |] eqn:Eout; [| now left].
        destruct (Z.ltb_spec (fst best) out); [| now left].
        right. cbn [fst snd]. split; [now left |]. split; [exact Eout | lia].
      * right. split; [now right |]. split; [exact Hout | lia].
Qed.

(** X22: [UniswapConnector.getQuote] answers with the largest positive
    output the router quotes over the fee tiers 500, 3000 and 10000,
    together with a tier that quotes it; it throws exactly when no tier
    quotes a positive output. *)
Theorem UniswapConnector_getQuote_best router (fromToken toToken : string)
    (amount : Z) :
  let tiers := [500; 3000; 10000] in
  match UniswapConnector_getQuote router fromToken toToken amount with
  | Ok q =>
      0 < quote_outputAmount q
      /\ In (quote_fee q) tiers
      /\ router fromToken toToken (quote_fee q) amount = Ok (quote_outputAmount q)
      /\ (forall fee out, In fee tiers ->
                          router fromToken toToken fee amount = Ok out ->
                          out <= quote_outputAmount q)
      /\ quote_inputAmount q = amount
  | Throw _ =>
      forall fee out, In fee tiers ->
                      router fromToken toToken fee amount = Ok out -> out <= 0
  end.
Proof.
  intros tiers. unfold UniswapConnector_getQuote.
  pose proof (better_tier_fold router fromToken toToken amount tiers (0, 3000)) as H.
  cbv zeta in H. fold tiers.
  destruct (fold_left _ tiers (0, 3000)) as [bestAmountOut bestFeeTier].
  cbn [fst snd] in H. destruct H as (Hle & Hmax & Hwho).
  destruct (Z.eqb_spec bestAmountOut 0) as [-> | Hne].
  - exact Hmax.
  - destruct Hwho as [[= Hzero _] | (Hin & Hout & Hlt)]; [contradiction |].
    cbn [quote_outputAmount quote_fee quote_inputAmount].
    repeat split; try assumption.
Qed.

(** ** The price feed *)

Lemma lists_address_spec (a : string) (t : Token) :
  lists_address a t = true <-> In a (map snd (addresses t)).
Proof.
  unfold lists_address. rewrite existsb_exists. split.
  - intros (x & Hin & E). apply String.eqb_eq in E. now subst x.
  - intros Hin. exists a. split; [exact Hin | apply String.eqb_refl].
Qed.

(** An address some configured token lists always has a price. *)
Lemma getTokenPrice_found (lsdTokens : list Token) (a n : string) (t : Token) :
  In t lsdTokens -> In a (map snd (addresses t)) ->
  exists p, getTokenPrice lsdTokens a n = Ok p.
Proof.
  intros Hin Hlists. unfold getTokenPrice.
  destruct (List.find (lists_address a) lsdTokens) as [t' |] eqn:Efind;
    [eexists; reflexivity |].
  pose proof (find_none _ _ Efind t Hin) as Hnot.
  apply lists_address_spec in Hlists. congruence.
Qed.

(** X23: [getTokenPrice] succeeds exactly for an address that some
    configured token lists on some network, and the price then carries the
    symbol of a token listing the address; for any other address it
    throws, naming the address. When neither that symbol nor the network
    is the name of a property inherited from [Object.prototype] (for such
    a name the lookup in the price tables finds a function, not a number),
    the USD price is 3000 times the ETH price, and a network without a
    configured variance is priced like ethereum. *)
Theorem getTokenPrice_listed (lsdTokens : list Token) (tokenAddress network : string) :
  match getTokenPrice lsdTokens tokenAddress network with
  | Ok p =>
      (exists t, In t lsdTokens /\ In tokenAddress (map snd (addresses t))
                 /\ tokenSymbol p = symbol t)
      /\ (inherited (tokenSymbol p) = false -> inherited network = false ->
          priceInUsd p = JS.mul (priceInEth p) (JS.ofZ 3000)
          /\ (obj_get network networkVariances = None ->
              getTokenPrice lsdTokens tokenAddress "ethereum" = Ok p))
  | Throw msg =>
      msg = "Token " +:+ tokenAddress +:+ " not found in configuration"
      /\ forall t, In t lsdTokens -> ~ In tokenAddress (map snd (addresses t))
  end.
Proof.
  unfold getTokenPrice.
  destruct (List.find (lists_address tokenAddress) lsdTokens) as [t |] eqn:Efind.
  - apply find_some in Efind as [Hin Hlists]. apply lists_address_spec in Hlists.
    split; [now exists t |]. intros _ _. split; [reflexivity |].
    intros ->. reflexivity.
  - split; [reflexivity |]. intros t Hin Hlists.
    apply lists_address_spec in Hlists.
    pose proof (find_none _ _ Efind t Hin) as Hnot. congruence.
Qed.

Lemma getTokenPrice_listed_witness :
  exists p,
    getTokenPrice tokens_lsdTokens "0x5979D7b546E38E414F7E9822514be443A4800529"
      "arbitrum" = Ok p
    /\ tokenSymbol p = "stETH"
    /\ inherited (tokenSymbol p) = false /\ inherited "arbitrum" = false
    /\ priceInUsd p = JS.mul (priceInEth p) (JS.ofZ 3000).
Proof.
  pose proof (getTokenPrice_listed tokens_lsdTokens
                "0x5979D7b546E38E414F7E9822514be443A4800529" "arbitrum") as H.
  destruct (getTokenPrice tokens_lsdTokens
              "0x5979D7b546E38E414F7E9822514be443A4800529" "arbitrum")
    as [p |] eqn:E; [| vm_compute in E; discriminate E].
  exists p. split; [reflexivity |].
  assert (Hsym : tokenSymbol p = "stETH")
    by (vm_compute in E; injection E as <-; reflexivity).
  assert (Hown : inherited (tokenSymbol p) = false) by (rewrite Hsym; reflexivity).
  split; [exact Hsym |]. split; [exact Hown |]. split; [reflexivity |].
  destruct H as [_ H]. apply (H Hown eq_refl).
Defined.

Lemma obj_get_NoDup {V} (k : string) (v : V) (o : JsObject V) :
  NoDup (map fst o) -> In (k, v) o -> obj_get k o = Some v.
Proof.
  induction o as [| [k0 v0] o IH]; intros Hnd Hin; [destruct Hin |].
  cbn [map fst] in Hnd. apply NoDup_cons in Hnd as [Hfresh Hnd].
  cbn [obj_get]. destruct Hin as [[= -> ->] | Hin].
  - now rewrite String.eqb_refl.
  - destruct (String.eqb_spec k k0) as [-> | _]; [| now apply IH].
    exfalso. apply Hfresh. apply list_elem_of_In, in_map_iff. now exists (k0, v).
Qed.

(** X24: over the repository's price feed no network is skipped: every
    token [findCrosschainLSDTokens] returns gets, from
    [getPricesAcrossChains], a price on each of its networks. (The network
    names of a token's address table are distinct, as the keys of an
    object are.) *)
Theorem getPricesAcrossChains_complete (lsdTokens : list Token) (t : Token)
    (n : string) :
  (forall t0, In t0 lsdTokens -> NoDup (map fst (addresses t0))) ->
  In t (findCrosschainLSDTokens lsdTokens) ->
  In n (networks t) ->
  exists a p,
    obj_get n (addresses t) = Some a
    /\ a <> ""
    /\ getTokenPrice lsdTokens a n = Ok p
    /\ obj_get n (getPricesAcrossChains (getTokenPrice lsdTokens) t) = Some p.
Proof.
  intros Hkeys Ht Hn. unfold findCrosschainLSDTokens in Ht.
  apply in_flat_map in Ht as (t0 & Ht0 & Ht).
  destruct (1 <? Z.of_nat (length (listed_networks t0))); [| destruct Ht].
  destruct Ht as [<- | []]. cbn [networks addresses] in *.
  unfold listed_networks in Hn. apply in_map_iff in Hn as ([n' a] & <- & Hf).
  apply filter_In in Hf as [Hin Ha]. cbn [fst snd] in *.
  assert (Hget : obj_get n' (addresses t0) = Some a)
    by (apply obj_get_NoDup; [now apply Hkeys | exact Hin]).
  assert (Hne : a <> "") by (intros ->; discriminate Ha).
  assert (Hprice : exists p, getTokenPrice lsdTokens a n' = Ok p).
  { pose proof (getTokenPrice_found lsdTokens a n' t0 Ht0) as H.
    apply H. apply in_map_iff. now exists (n', a). }
  destruct Hprice as [p Hp]. exists a, p.
  split; [exact Hget |]. split; [exact Hne |]. split; [exact Hp |].
  unfold getPricesAcrossChains. cbn [networks addresses].
  rewrite getPricesAcrossChains_fold. cbn [addresses]. rewrite Hget. cbn [default truthy].
  rewrite Ha, andb_true_r.
  assert (existsb (String.eqb n') (listed_networks t0) = true) as ->.
  { apply existsb_exists. exists n'. split; [| apply String.eqb_refl].
    unfold listed_networks. apply in_map_iff. exists (n', a). split; [reflexivity |].
    apply filter_In. now split. }
  cbn [from_option id]. now rewrite Hp.
Qed.

Lemma tokens_lsdTokens_keys (t0 : Token) :
  In t0 tokens_lsdTokens -> NoDup (map fst (addresses t0)).
Proof.
  unfold tokens_lsdTokens. cbn [In]. intros H.
  repeat (destruct H as [<- | H];
          [apply (bool_decide_unpack _); vm_compute; reflexivity |]).
  contradiction.
Qed.

Lemma getPricesAcrossChains_complete_witness :
  exists t p,
    In t (findCrosschainLSDTokens tokens_lsdTokens)
    /\ symbol t = "stETH"
    /\ In "arbitrum" (networks t)
    /\ obj_get "arbitrum"
         (getPricesAcrossChains (getTokenPrice tokens_lsdTokens) t) = Some p.
Proof.
  set (t := {| symbol := "stETH";
               addresses := addresses (hd Sample.stETH tokens_lsdTokens);
               networks := ["ethereum"; "arbitrum"; "optimism"; "base"] |}).
  assert (Ht : In t (findCrosschainLSDTokens tokens_lsdTokens))
    by (left; reflexivity).
  assert (Hn : In "arbitrum" (networks t)) by (right; left; reflexivity).
  destruct (getPricesAcrossChains_complete tokens_lsdTokens t "arbitrum"
              tokens_lsdTokens_keys Ht Hn) as (a & p & _ & _ & _ & Hp).
  exists t, p. repeat split; assumption.
Defined.
